(** * Balanced offload manager of sdnext: [modules/sd_offload.py]

    A shallow embedding of [OffloadHook] (constructor, [validate],
    [model_size], [pre_forward], [post_forward]) and of the orchestrator
    [apply_balanced_offload] with its two nested functions
    [get_pipe_modules] and [apply_balanced_offload_to_module].

    Python objects that the code mutates live in a store: torch modules
    in [heap], [OffloadHook] objects in [hooks]; a reference is an index.
    Everything the code does to the outside (log lines, [torch_gc],
    accelerate calls) is appended to a chronological trace [events].
    Python floats are binary64 values: Rocq's primitive floats, with
    the rounding and the comparisons of the hardware ([nan] compares
    false with everything, itself included). *)

From Stdlib Require Import Floats String List ZArith Bool Lia DecimalString.
From stdpp Require Import base list.

Open Scope string_scope.
Open Scope float_scope.

(* Decimal literals stand for the nearest binary64 value, as in Python. *)
Set Warnings "-inexact-float".

(** ** Python values *)

(** An exception object: class name and [str(e)]. *)
Record Exn := mkExn { exn_class : string; exn_msg : string }.

Inductive result (A : Type) : Type :=
| Ok (a : A)
| Raise (e : Exn).
Arguments Ok {A} a.
Arguments Raise {A} e.

(** [torch.device]: a type and an optional index. *)
Record Device := mkDevice { dev_type : string; dev_index : option Z }.

(** A device-map value: an [int] device index or a string. *)
Inductive DevSpec :=
| DInt (i : Z)
| DStr (s : string).

(** A device map is a Python dict from parameter path to device. *)
Definition DeviceMap := list (string * DevSpec).

(** The dict literal [{device_index: self.gpu, "cpu": self.cpu}]. *)
Record MaxMemory := mkMaxMemory { mm_index : Z; mm_gpu : Z; mm_cpu : Z }.

Definition option_Z_eqb (a b : option Z) : bool :=
  match a, b with
  | Some x, Some y => Z.eqb x y
  | None, None => true
  | _, _ => false
  end.

Definition Device_eqb (a b : Device) : bool :=
  String.eqb (dev_type a) (dev_type b) && option_Z_eqb (dev_index a) (dev_index b).

Definition MaxMemory_eqb (a b : MaxMemory) : bool :=
  Z.eqb (mm_index a) (mm_index b) && Z.eqb (mm_gpu a) (mm_gpu b)
  && Z.eqb (mm_cpu a) (mm_cpu b).

(** Python [dict] as an insertion-ordered association list. *)
Fixpoint dict_get {V : Type} (k : string) (d : list (string * V)) : option V :=
  match d with
  | [] => None
  | (k', v) :: d' => if String.eqb k k' then Some v else dict_get k d'
  end.

(** [d[k] = v]: overwrite in place, or append a new key. *)
Fixpoint dict_set {V : Type} (k : string) (v : V) (d : list (string * V)) : list (string * V) :=
  match d with
  | [] => [(k, v)]
  | (k', v') :: d' =>
      if String.eqb k k' then (k', v) :: d' else (k', v') :: dict_set k v d'
  end.

(** ** Floats

    [a < b] is [a <? b], [a > b] is [b <? a], [a != b] is
    [negb (a =? b)]; [*], [/], [+] and [-] round to nearest. *)

(** [int(x)] on a float truncates toward zero; it raises on [nan] and
    on the infinities. *)
Definition int_of (x : float) : result Z :=
  match Prim2SF x with
  | S754_nan => Raise (mkExn "ValueError" "cannot convert float NaN to integer")
  | S754_infinity _ => Raise (mkExn "OverflowError" "cannot convert float infinity to integer")
  | S754_zero _ => Ok 0%Z
  | S754_finite s m e => Ok (cond_Zopp s (Z.shiftl (Zpos m) e))
  end.

(** [z / 2**k] on two [int]s: the quotient rounded to the nearest
    float, or [OverflowError] when that is out of range. *)
Definition int_true_div_pow2 (z k : Z) : result float :=
  match binary_normalize prec emax z (- k) false with
  | S754_infinity _ =>
      Raise (mkExn "OverflowError" "integer division result too large for a float")
  | r => Ok (SF2Prim r)
  end.



(** ** Objects in the store *)

(** A [torch.nn.Module] as far as the offload code looks at it. An
    absent Python attribute is [None]. *)
Record Module := mkModule {
  m_class : string;                          (* __class__.__name__ *)
  m_name : option string;                    (* __name__ *)
  m_device : Device;                         (* .device *)
  m_dtype : option string;                   (* .dtype *)
  m_parameters : result (list (Z * Z));      (* parameters(): numel, element_size *)
  m_hf_hook : option nat;                    (* _hf_hook *)
  network_layer_name : option string;
  balanced_offload_device_map : option DeviceMap;
  balanced_offload_max_memory : option MaxMemory;
  offload_dir : option string;
  offload_post : option bool
}.

(** An [OffloadHook] object. [execution_device] is the attribute the
    code sets through [module._hf_hook]. *)
Record OffloadHook := mkOffloadHook {
  checkpoint_name : string;
  min_watermark : float;
  max_watermark : float;
  cpu_watermark : float;
  gpu : Z;
  cpu : Z;
  offload_map : list (string * float);
  param_map : list (string * float);
  execution_device : option Device
}.

(** [shared.opts], the settings the code reads and [validate] rewrites. *)
Record Opts := mkOpts {
  diffusers_offload_mode : string;
  diffusers_offload_min_gpu_memory : float;
  diffusers_offload_max_gpu_memory : float;
  diffusers_offload_max_cpu_memory : float;
  accelerate_offload_path : string;
  te_hijack : bool
}.

(** ** Trace of outside effects *)

Inductive Level := LvlTrace | LvlDebug | LvlInfo | LvlWarning | LvlError.

(** Log lines, by the format string that produced them, with the
    interpolated values that matter. *)
Inductive LogMsg :=
| MsgInit (watermark_low watermark_high : float)          (* op=init *)
| MsgLowInvalid (low : float)                             (* op=validate: watermark low=.. invalid value *)
| MsgHighInvalid (high : float)                           (* op=validate: watermark high=.. invalid value *)
| MsgLowReset (low : float)                               (* op=validate: watermark low=.. reset *)
| MsgLowMemory (high : float)                             (* op=validate: watermark high=.. low memory *)
| MsgCalcError (module_name : string) (e : Exn)       (* op=calc module=.. *)
| MsgApplyError (module_name : string) (e : Exn)      (* op=apply module=.. *)
| MsgModel (module_name cls : string) (params size : float) (* Model module=.. *)
| MsgMove (op : string) (prev_gpu used_gpu perc : float) (cls : string) (size : float)
| MsgApplied                                          (* Apply offload: time=.. *)
| MsgSummary (cls : string) (modules : nat) (size : float). (* Model class=.. modules=.. size=.. *)

Inductive Event :=
| EvLog (lvl : Level) (msg : LogMsg)                  (* shared.log.* *)
| EvDisplay (e : Exn) (module_name : string)          (* errors.display *)
| EvGc (fast force : bool) (reason : option string)         (* devices.torch_gc *)
| EvSize (module_name : string)                       (* size computed in get_pipe_modules *)
| EvTo (module : nat) (d : Device)                    (* module.to(d) *)
| EvInfer (module : nat) (mm : MaxMemory)             (* accelerate.infer_auto_device_map *)
| EvDispatch (module : nat) (dm : DeviceMap) (dir : string) (* accelerate.dispatch_model *)
| EvRemoveHook (module : nat)                         (* accelerate.hooks.remove_hook_from_module *)
| EvAddHook (module hook : nat).                      (* accelerate.hooks.add_hook_to_module *)

(** ** The mutable world and the fixed environment *)

Record World := mkWorld {
  opts : Opts;                               (* shared.opts *)
  hooks : list OffloadHook;                  (* every OffloadHook object built so far *)
  offload_hook_instance : option nat;        (* the module-level global *)
  heap : list Module;                        (* torch modules *)
  events : list Event
}.

(** What [getattr(pipe, name, None)] can give. *)
Inductive PyVal :=
| VNone
| VModule (ref : nat)        (* a torch.nn.Module *)
| VOther.                    (* any other object: tokenizer, scheduler, ... *)

(** A pipeline object: class name, the keys of [_internal_dict] when it
    has one, the parameter names of its constructor, its attributes. *)
Record Pipe := mkPipe {
  p_class : string;
  p_internal_dict : option (list string);
  p_signature : list string;
  p_attrs : list (string * PyVal)
}.

(** The model handed to the orchestrator: a pipeline, its checkpoint
    info ([sd_checkpoint_info], and in it [name]) and the nested
    pipelines the orchestrator probes for. *)
Record SdModel := mkSdModel {
  sd_pipe : Pipe;
  sd_checkpoint_info : option (option string);
  nested_pipe : option Pipe;
  prior_pipe : option Pipe;
  decoder_pipe : option Pipe
}.

(** State that the code only reads, and the behaviour of the libraries
    it calls. Library calls see the trace so far, so that two calls
    may behave differently. *)
Record Env := mkEnv {
  gpu_memory : float;                            (* shared.gpu_memory *)
  cpu_memory : float;                            (* shared.cpu_memory *)
  sd_model_type : string;                    (* shared.sd_model_type *)
  sd_loaded : bool;                          (* shared.sd_loaded *)
  shared_sd_model : option SdModel;          (* shared.sd_model *)
  device : Device;                           (* devices.device *)
  backend : string;                          (* devices.backend *)
  debug : bool;                              (* SD_MOVE_DEBUG set at import *)
  SD_MOVE_DEBUG : option string;             (* os.environ.get('SD_MOVE_DEBUG') *)
  same_device : Device -> Device -> bool;    (* devices.same_device *)
  torch_gc_reading : list Event -> float * float;    (* what torch_gc returns *)
  to_raises : list Event -> Module -> Device -> option Exn;       (* module.to(d) *)
  infer_auto_device_map :
    list Event -> Module -> MaxMemory -> result (option DeviceMap);
  dispatch_model :
    list Event -> Module -> DeviceMap -> string -> result Module
}.

(** [devices.cpu] *)
Definition devices_cpu : Device := mkDevice "cpu" None.

Definition offload_post_families : list string := ["h1"].
Definition balanced_offload_exclude : list string := ["CogView4Pipeline"].

(** ** A state and exception monad

    A Python statement either finishes or raises; what it changed
    before raising stays changed. *)

Definition M (A : Type) : Type := World -> result A * World.

Definition ret {A : Type} (a : A) : M A := fun w => (Ok a, w).

Definition raise {A : Type} (e : Exn) : M A := fun w => (Raise e, w).

Definition bind {A B : Type} (m : M A) (f : A -> M B) : M B :=
  fun w =>
    match m w with
    | (Ok a, w') => f a w'
    | (Raise e, w') => (Raise e, w')
    end.

(** [try: m  except Exception as e: h e] *)
Definition try_except {A : Type} (m : M A) (h : Exn -> M A) : M A :=
  fun w =>
    match m w with
    | (Ok a, w') => (Ok a, w')
    | (Raise e, w') => h e w'
    end.

Declare Scope py_scope.
Delimit Scope py_scope with py.
Notation "x <- m ;; k" := (bind m (fun x => k))
  (at level 100, m at next level, right associativity) : py_scope.
Notation "m ;; k" := (bind m (fun _ => k))
  (at level 100, right associativity) : py_scope.
Open Scope py_scope.

Definition when (b : bool) (m : M unit) : M unit := if b then m else ret tt.

Definition get_world : M World := fun w => (Ok w, w).

Definition get_opts : M Opts := fun w => (Ok (opts w), w).

Definition set_opts (o : Opts) : M unit :=
  fun w => (Ok tt, mkWorld o (hooks w) (offload_hook_instance w) (heap w) (events w)).

Definition set_hooks (hs : list OffloadHook) : M unit :=
  fun w => (Ok tt, mkWorld (opts w) hs (offload_hook_instance w) (heap w) (events w)).

Definition set_instance (i : option nat) : M unit :=
  fun w => (Ok tt, mkWorld (opts w) (hooks w) i (heap w) (events w)).

Definition set_heap (h : list Module) : M unit :=
  fun w => (Ok tt, mkWorld (opts w) (hooks w) (offload_hook_instance w) h (events w)).

Definition emit (e : Event) : M unit :=
  fun w => (Ok tt, mkWorld (opts w) (hooks w) (offload_hook_instance w) (heap w)
                     (events w ++ [e])).

Definition log (lvl : Level) (msg : LogMsg) : M unit := emit (EvLog lvl msg).

(** Reading through a reference. A reference always points into the
    store in Python; the model raises on one that does not. *)
Definition dangling : Exn := mkExn "ReferenceError" "no such object".

Definition get_module (i : nat) : M Module :=
  fun w => match heap w !! i with
           | Some m => (Ok m, w)
           | None => (Raise dangling, w)
           end.

Definition put_module (i : nat) (m : Module) : M unit :=
  fun w => set_heap (<[i := m]> (heap w)) w.

Definition get_hook (h : nat) : M OffloadHook :=
  fun w => match hooks w !! h with
           | Some k => (Ok k, w)
           | None => (Raise dangling, w)
           end.

Definition put_hook (h : nat) (k : OffloadHook) : M unit :=
  fun w => set_hooks (<[h := k]> (hooks w)) w.

(** A new object of the store; its reference is returned. *)
Definition alloc_hook (k : OffloadHook) : M nat :=
  fun w => (Ok (length (hooks w)),
            mkWorld (opts w) (hooks w ++ [k]) (offload_hook_instance w) (heap w) (events w)).

(** Field updates of [shared.opts]. *)
Definition with_min_gpu (v : float) (o : Opts) : Opts :=
  mkOpts (diffusers_offload_mode o) v (diffusers_offload_max_gpu_memory o)
         (diffusers_offload_max_cpu_memory o) (accelerate_offload_path o) (te_hijack o).

Definition with_max_gpu (v : float) (o : Opts) : Opts :=
  mkOpts (diffusers_offload_mode o) (diffusers_offload_min_gpu_memory o) v
         (diffusers_offload_max_cpu_memory o) (accelerate_offload_path o) (te_hijack o).

Definition with_max_cpu (v : float) (o : Opts) : Opts :=
  mkOpts (diffusers_offload_mode o) (diffusers_offload_min_gpu_memory o)
         (diffusers_offload_max_gpu_memory o) v (accelerate_offload_path o) (te_hijack o).

(** Attribute assignments on a module. *)
Definition with_device (d : Device) (m : Module) : Module :=
  mkModule (m_class m) (m_name m) d (m_dtype m) (m_parameters m) (m_hf_hook m)
    (network_layer_name m) (balanced_offload_device_map m) (balanced_offload_max_memory m)
    (offload_dir m) (offload_post m).

Definition with_hf_hook (h : option nat) (m : Module) : Module :=
  mkModule (m_class m) (m_name m) (m_device m) (m_dtype m) (m_parameters m) h
    (network_layer_name m) (balanced_offload_device_map m) (balanced_offload_max_memory m)
    (offload_dir m) (offload_post m).

Definition with_network_layer_name (n : option string) (m : Module) : Module :=
  mkModule (m_class m) (m_name m) (m_device m) (m_dtype m) (m_parameters m) (m_hf_hook m)
    n (balanced_offload_device_map m) (balanced_offload_max_memory m)
    (offload_dir m) (offload_post m).

Definition with_device_map (dm : option DeviceMap) (m : Module) : Module :=
  mkModule (m_class m) (m_name m) (m_device m) (m_dtype m) (m_parameters m) (m_hf_hook m)
    (network_layer_name m) dm (balanced_offload_max_memory m)
    (offload_dir m) (offload_post m).

Definition with_max_memory (mm : option MaxMemory) (m : Module) : Module :=
  mkModule (m_class m) (m_name m) (m_device m) (m_dtype m) (m_parameters m) (m_hf_hook m)
    (network_layer_name m) (balanced_offload_device_map m) mm
    (offload_dir m) (offload_post m).

Definition with_offload_dir (d : option string) (m : Module) : Module :=
  mkModule (m_class m) (m_name m) (m_device m) (m_dtype m) (m_parameters m) (m_hf_hook m)
    (network_layer_name m) (balanced_offload_device_map m) (balanced_offload_max_memory m)
    d (offload_post m).

Definition with_offload_post (b : option bool) (m : Module) : Module :=
  mkModule (m_class m) (m_name m) (m_device m) (m_dtype m) (m_parameters m) (m_hf_hook m)
    (network_layer_name m) (balanced_offload_device_map m) (balanced_offload_max_memory m)
    (offload_dir m) b.

(** Attribute assignments on a hook object. *)
Definition with_offload_map (d : list (string * float)) (k : OffloadHook) : OffloadHook :=
  mkOffloadHook (checkpoint_name k) (min_watermark k) (max_watermark k) (cpu_watermark k)
    (gpu k) (cpu k) d (param_map k) (execution_device k).

Definition with_param_map (d : list (string * float)) (k : OffloadHook) : OffloadHook :=
  mkOffloadHook (checkpoint_name k) (min_watermark k) (max_watermark k) (cpu_watermark k)
    (gpu k) (cpu k) (offload_map k) d (execution_device k).

Definition with_execution_device (d : option Device) (k : OffloadHook) : OffloadHook :=
  mkOffloadHook (checkpoint_name k) (min_watermark k) (max_watermark k) (cpu_watermark k)
    (gpu k) (cpu k) (offload_map k) (param_map k) d.

(** ** Strings *)

(** [sub in s] *)
Fixpoint contains (sub s : string) : bool :=
  String.prefix sub s
  || match s with
     | EmptyString => false
     | String _ s' => contains sub s'
     end.

(** [name in names] for a list of strings *)
Definition str_in (name : string) (names : list string) : bool :=
  existsb (String.eqb name) names.

(** [os.path.join] of relative components *)
Definition path_join (parts : list string) : string := String.concat "/" parts.

(** [str(k)] for an [int] *)
Definition str_of_int (k : Z) : string := DecimalString.NilZero.string_of_int (Z.to_int k).

(** A non-empty string is true. *)
Definition truthy_str (s : option string) : bool :=
  match s with
  | Some (String _ _) => true
  | _ => false
  end.

(** [sorted(items, key=lambda x: x[1], reverse=True)]: descending and
    stable; equal sizes stay in their first order. The sizes are
    quotients of integers, or [0]; none is [nan]. *)
Fixpoint insert_desc (x : string * float) (l : list (string * float)) : list (string * float) :=
  match l with
  | [] => [x]
  | y :: l' => if snd y <? snd x then x :: y :: l' else y :: insert_desc x l'
  end.

Definition sorted_desc (l : list (string * float)) : list (string * float) :=
  fold_left (fun acc x => insert_desc x acc) l [].

(** [run m] as a value: the exception, if any, is handed to the caller
    of [attempt] instead of unwinding. *)
Definition attempt {A : Type} (m : M A) : M (result A) :=
  fun w => let (r, w') := m w in (Ok r, w').

Section Offload.

Variable env : Env.

(** ** [OffloadHook.validate] *)

Definition validate : M unit :=
  o <- get_opts ;;
  if negb (String.eqb (diffusers_offload_mode o) "balanced") then ret tt else
  when ((diffusers_offload_min_gpu_memory o <? 0)
        || (1 <? diffusers_offload_min_gpu_memory o))
       (set_opts (with_min_gpu 0.2 o) ;;
        log LvlWarning (MsgLowInvalid 0.2)) ;;
  o <- get_opts ;;
  when ((diffusers_offload_max_gpu_memory o <? 0.1)
        || (1 <? diffusers_offload_max_gpu_memory o))
       (set_opts (with_max_gpu 0.7 o) ;;
        log LvlWarning (MsgHighInvalid 0.7)) ;;
  o <- get_opts ;;
  when (diffusers_offload_max_gpu_memory o <? diffusers_offload_min_gpu_memory o)
       (set_opts (with_min_gpu (diffusers_offload_max_gpu_memory o) o) ;;
        log LvlWarning (MsgLowReset (diffusers_offload_max_gpu_memory o))) ;;
  o <- get_opts ;;
  when (diffusers_offload_max_gpu_memory o * gpu_memory env <? 4)
       (log LvlWarning (MsgLowMemory (diffusers_offload_max_gpu_memory o))).

(** ** [OffloadHook.__init__]

    The new object is entered in the store and its reference returned;
    the caller assigns it to [offload_hook_instance]. When one of the
    two [int(..)] raises, the object under construction is dropped with
    the exception: nothing is entered in the store. *)

(** A Python expression that may raise, as a statement. *)
Definition eval {A : Type} (r : result A) : M A :=
  match r with
  | Ok a => ret a
  | Raise e => raise e
  end.

Definition OffloadHook_init (checkpoint : string) : M nat :=
  o <- get_opts ;;
  when (1 <? diffusers_offload_max_gpu_memory o)
       (set_opts (with_max_gpu 0.75 o)) ;;
  o <- get_opts ;;
  when (1 <? diffusers_offload_max_cpu_memory o)
       (set_opts (with_max_cpu 0.75 o)) ;;
  o <- get_opts ;;
  gpu <- eval (int_of (gpu_memory env * diffusers_offload_max_gpu_memory o
                       * 1024 * 1024 * 1024)) ;;
  cpu <- eval (int_of (cpu_memory env * diffusers_offload_max_cpu_memory o
                       * 1024 * 1024 * 1024)) ;;
  let self :=
    mkOffloadHook checkpoint
      (diffusers_offload_min_gpu_memory o)
      (diffusers_offload_max_gpu_memory o)
      (diffusers_offload_max_cpu_memory o)
      gpu cpu [] [] None in
  h <- alloc_hook self ;;
  log LvlInfo (MsgInit (min_watermark self) (max_watermark self)) ;;
  validate ;;
  ret h.

(** [OffloadHook.model_size]: [sum(self.offload_map.values())] *)
Definition model_size (self : OffloadHook) : float :=
  fold_left PrimFloat.add (map snd (offload_map self)) 0.

(** ** Library calls *)

(** [devices.torch_gc(fast=.., force=.., reason=..)], returning
    [(used_gpu, used_ram)]. *)
Definition torch_gc (fast force : bool) (reason : option string) : M (float * float) :=
  w <- get_world ;;
  emit (EvGc fast force reason) ;;
  ret (torch_gc_reading env (events w)).

(** [a / b] on floats: the rounded quotient; a zero divisor of either
    sign raises. *)
Definition py_div (a b : float) : M float :=
  if b =? 0 then raise (mkExn "ZeroDivisionError" "float division by zero")
  else ret (a / b).

(** [module.to(d)]: moves the module in place, or raises. *)
Definition module_to (i : nat) (d : Device) : M unit :=
  m <- get_module i ;;
  w <- get_world ;;
  emit (EvTo i d) ;;
  match to_raises env (events w) m d with
  | Some e => raise e
  | None => put_module i (with_device d m)
  end.

(** [accelerate.hooks.remove_hook_from_module(module, recurse=True)]:
    the module has no [_hf_hook] afterwards. *)
Definition remove_hook_from_module (i : nat) : M unit :=
  m <- get_module i ;;
  emit (EvRemoveHook i) ;;
  put_module i (with_hf_hook None m).

(** [accelerate.hooks.add_hook_to_module(module, hook, append=True)].
    The code calls it on a module whose hook it has just removed, so
    there is no earlier hook to chain with. *)
Definition add_hook_to_module (i h : nat) : M unit :=
  m <- get_module i ;;
  emit (EvAddHook i h) ;;
  put_module i (with_hf_hook (Some h) m).

(** [module._hf_hook.execution_device = torch.device(devices.device)] *)
Definition set_execution_device (i : nat) : M unit :=
  m <- get_module i ;;
  match m_hf_hook m with
  | None =>
      raise (mkExn "AttributeError"
               ("'" ++ m_class m ++ "' object has no attribute '_hf_hook'"))
  | Some h =>
      k <- get_hook h ;;
      put_hook h (with_execution_device (Some (device env)) k)
  end.

(** [module.dtype] inside a format string *)
Definition module_dtype (i : nat) : M string :=
  m <- get_module i ;;
  match m_dtype m with
  | Some t => ret t
  | None =>
      raise (mkExn "AttributeError"
               ("'" ++ m_class m ++ "' object has no attribute 'dtype'"))
  end.

(** [module.__name__] inside a format string *)
Definition module_dunder_name (i : nat) : M string :=
  m <- get_module i ;;
  match m_name m with
  | Some n => ret n
  | None =>
      raise (mkExn "AttributeError"
               ("'" ++ m_class m ++ "' object has no attribute '__name__'"))
  end.

(** [d[k]] on a dict of floats *)
Definition dict_item (k : string) (d : list (string * float)) : M float :=
  match dict_get k d with
  | Some v => ret v
  | None => raise (mkExn "KeyError" ("'" ++ k ++ "'"))
  end.


(** ** The [except Exception as e] block

    The two handlers, in [post_forward] and in
    [apply_balanced_offload_to_module], are the same text but for the
    expression that names the module: [module.__name__] in the first,
    [module_name] in the second. [name] is that expression; it is
    evaluated where the format string is. *)
Definition offload_except (name : M string) (e : Exn) : M unit :=
  (if contains "out of memory" (exn_msg e) then
     torch_gc true true (Some "oom") ;; ret tt
   else if contains "bitsandbytes" (exn_msg e) then
     ret tt
   else
     n <- name ;;
     log LvlError (MsgApplyError n e)) ;;
  when (truthy_str (SD_MOVE_DEBUG env))
       (n <- name ;; emit (EvDisplay e n)).

(** ** [OffloadHook.pre_forward] *)

(** The DirectML rewrite of the integer entries of a device map. *)
Definition directml_rewrite (dm : DeviceMap) : DeviceMap :=
  map (fun kv => match snd kv with
                 | DInt k => (fst kv, DStr (dev_type (device env) ++ ":" ++ str_of_int k))
                 | DStr _ => kv
                 end) dm.

(** What the hook keeps of a device map: rewritten on DirectML only. *)
Definition rewritten (dm : DeviceMap) : DeviceMap :=
  if String.eqb (backend env) "directml" then directml_rewrite dm else dm.

Definition current_max_memory (self : OffloadHook) : MaxMemory :=
  let device_index := match dev_index (device env) with
                      | Some k => k
                      | None => 0%Z
                      end in
  mkMaxMemory device_index (gpu self) (cpu self).

(** The cached map is taken when there is one and the [max_memory] kept
    with it equals the current one. *)
Definition device_map_cached (m : Module) (max_memory : MaxMemory) : option DeviceMap :=
  match balanced_offload_device_map m, balanced_offload_max_memory m with
  | Some dm, Some mm => if MaxMemory_eqb max_memory mm then Some dm else None
  | _, _ => None
  end.

Definition infer_device_map (i : nat) (max_memory : MaxMemory) : M (option DeviceMap) :=
  m <- get_module i ;;
  w <- get_world ;;
  emit (EvInfer i max_memory) ;;
  match infer_auto_device_map env (events w) m max_memory with
  | Ok dm => ret dm
  | Raise e => raise e
  end.

Definition dispatch (i : nat) (dm : DeviceMap) (dir : string) : M unit :=
  m <- get_module i ;;
  w <- get_world ;;
  emit (EvDispatch i dm dir) ;;
  match dispatch_model env (events w) m dm dir with
  | Ok m' => put_module i m'
  | Raise e => raise e
  end.

Definition pre_forward (self_ref i : nat) : M unit :=
  self <- get_hook self_ref ;;
  module <- get_module i ;;
  if same_device env (m_device module) (device env) then ret tt else
  let max_memory := current_max_memory self in
  let cached := device_map_cached module max_memory in
  device_map <- match cached with
                | Some dm => ret (Some dm)
                | None => infer_device_map i max_memory
                end ;;
  o <- get_opts ;;
  let dir := match offload_dir module with
             | Some d => d
             | None => path_join [accelerate_offload_path o; m_class module]
             end in
  device_map <-
    (if String.eqb (backend env) "directml" then
       match device_map with
       | None => raise (mkExn "AttributeError" "'NoneType' object has no attribute 'keys'")
       | Some dm =>
           (* the dict is rewritten in place: a cached one is the module's own *)
           when (match cached with Some _ => true | None => false end)
                (put_module i (with_device_map (Some (directml_rewrite dm)) module)) ;;
           ret (Some (directml_rewrite dm))
       end
     else ret device_map) ;;
  match device_map with
  | Some dm => dispatch i dm dir
  | None => ret tt
  end ;;
  set_execution_device i ;;
  module <- get_module i ;;
  put_module i (with_max_memory (Some max_memory) (with_device_map device_map module)).

(** ** [OffloadHook.post_forward] *)

Definition post_forward {A : Type} (self_ref i : nat) (output : A) : M A :=
  self <- get_hook self_ref ;;
  module <- get_module i ;;
  when (match offload_post module with Some b => b | None => false end
        && negb (Device_eqb (m_device module) devices_cpu))
       (r <- torch_gc true false None ;;
        let used_gpu := fst r in
        perc_gpu <- py_div used_gpu (gpu_memory env) ;;
        try_except
          (self <- get_hook self_ref ;;
           let module_size := model_size self in
           let prev_gpu := used_gpu in
           o <- get_opts ;;
           let offload_now := diffusers_offload_min_gpu_memory o <? perc_gpu in
           used_gpu <- (if offload_now then
                          module_to i devices_cpu ;; ret (used_gpu - module_size)
                        else ret used_gpu) ;;
           when (debug env)
                (module <- get_module i ;;
                 module_dtype i ;;
                 log LvlTrace (MsgMove (if offload_now then "post" else "skip")
                                 prev_gpu used_gpu perc_gpu (m_class module) module_size)))
          (offload_except (module_dunder_name i))) ;;
  ret output.

(** ** [apply_balanced_offload] and its nested functions *)

(** The global [offload_hook_instance], dereferenced. *)
Definition get_instance : M nat :=
  fun w => match offload_hook_instance w with
           | Some h => (Ok h, w)
           | None => (Raise (mkExn "AttributeError" "'NoneType' object has no attribute"), w)
           end.

Definition getattr (pipe : Pipe) (name : string) : PyVal :=
  match dict_get name (p_attrs pipe) with
  | Some v => v
  | None => VNone
  end.

(** [_internal_dict.keys()] or the constructor's parameter names,
    without the excluded and the private ones. *)
Definition pipe_module_names (exclude : list string) (pipe : Pipe) : list string :=
  List.filter (fun m => negb (str_in m exclude) && negb (String.prefix "_" m))
    (match p_internal_dict pipe with
     | Some keys => keys
     | None => p_signature pipe
     end).

Definition sum_Z (l : list Z) : Z := fold_left Z.add l 0%Z.

(** The two statements of the [try] block of [get_pipe_modules]: bytes
    and parameter counts, each summed as an [int] and divided three
    times by 1024. The first division is of two [int]s. *)
Definition sizes_of (ps : list (Z * Z)) : result (float * float) :=
  match int_true_div_pow2 (sum_Z (map (fun p => fst p * snd p)%Z ps)) 10 with
  | Raise e => Raise e
  | Ok size =>
      match int_true_div_pow2 (sum_Z (map fst ps)) 10 with
      | Raise e => Raise e
      | Ok num => Ok (size / 1024 / 1024, num / 1024 / 1024)
      end
  end.

(** The [try] block on a module: [module.parameters()] may raise as
    well. *)
Definition module_sizes (module : Module) : result (float * float) :=
  match m_parameters module with
  | Ok ps => sizes_of ps
  | Raise e => Raise e
  end.

(** The loop of [get_pipe_modules]. [modules] and [param_num] are its
    local variables; [param_num] has no value until the first size
    computation that succeeds. *)
Fixpoint get_pipe_modules_loop (pipe : Pipe) (names : list string)
    (modules : list (string * float)) (param_num : option float) : M (list (string * float)) :=
  match names with
  | [] => ret modules
  | module_name :: rest =>
      h <- get_instance ;;
      inst <- get_hook h ;;
      match dict_get module_name (offload_map inst) with
      | Some module_size =>
          get_pipe_modules_loop pipe rest (dict_set module_name module_size modules) param_num
      | None =>
          match getattr pipe module_name with
          | VModule i =>
              module <- get_module i ;;
              emit (EvSize module_name) ;;
              sized <- match module_sizes module with
                       | Ok (size, num) => ret (size, Some num)
                       | Raise e =>
                           log LvlError (MsgCalcError module_name e) ;;
                           ret (0, param_num)
                       end ;;
              let module_size := fst sized in
              let param_num := snd sized in
              inst <- get_hook h ;;
              put_hook h (with_offload_map (dict_set module_name module_size (offload_map inst)) inst) ;;
              pn <- match param_num with
                    | Some v => ret v
                    | None =>
                        raise (mkExn "UnboundLocalError"
                                 "local variable 'param_num' referenced before assignment")
                    end ;;
              inst <- get_hook h ;;
              put_hook h (with_param_map (dict_set module_name pn (param_map inst)) inst) ;;
              get_pipe_modules_loop pipe rest (dict_set module_name module_size modules) param_num
          | _ => get_pipe_modules_loop pipe rest modules param_num
          end
      end
  end.

Definition get_pipe_modules (exclude : list string) (pipe : Pipe) : M (list (string * float)) :=
  modules <- get_pipe_modules_loop pipe (pipe_module_names exclude pipe) [] None ;;
  ret (sorted_desc modules).

(** The log lines at the end of the [try] block of
    [apply_balanced_offload_to_module]. *)
Definition offload_log_lines (cached : bool) (module_name : string) (i : nat)
    (cls : string) (offload_now : bool) (prev_gpu used_gpu perc_gpu module_size : float)
    : M unit :=
  when (negb cached)
       (module_dtype i ;;
        h <- get_instance ;;
        inst <- get_hook h ;;
        params <- dict_item module_name (param_map inst) ;;
        size <- dict_item module_name (offload_map inst) ;;
        log LvlDebug (MsgModel module_name cls params size)) ;;
  when (debug env)
       (module_dtype i ;;
        log LvlTrace (MsgMove (if offload_now then "move" else "skip")
                        prev_gpu used_gpu perc_gpu cls module_size)).

(** The [try] block with its handler; the running [used_gpu] goes in
    and comes out. [module] is the module as it is when the block is
    entered. *)
Definition offload_try (cached : bool) (module_name : string) (i : nat) (module : Module)
    (module_size used_gpu perc_gpu : float) : M float :=
  o <- get_opts ;;
  let prev_gpu := used_gpu in
  let offload_now := (diffusers_offload_min_gpu_memory o <? perc_gpu)
                     && negb (Device_eqb (m_device module) devices_cpu) in
  let handler := offload_except (ret module_name) in
  moved <- attempt (if offload_now then
                      module_to i devices_cpu ;; ret (used_gpu - module_size)
                    else ret used_gpu) ;;
  match moved with
  | Raise e => handler e ;; ret used_gpu
  | Ok used_gpu =>
      (* the log lines come after the update of [used_gpu] *)
      try_except
        (offload_log_lines cached module_name i (m_class module) offload_now
           prev_gpu used_gpu perc_gpu module_size)
        handler ;;
      ret used_gpu
  end.

(** What follows the [try] block: the hook is attached again and the
    attributes kept before the removal are put back. *)
Definition offload_attach (checkpoint module_name : string) (i : nat)
    (saved_layer_name : option string) (device_map : option DeviceMap)
    (max_memory : option MaxMemory) : M unit :=
  o <- get_opts ;;
  m <- get_module i ;;
  put_module i (with_offload_dir
                  (Some (path_join [accelerate_offload_path o; checkpoint; module_name])) m) ;;
  h <- get_instance ;;
  add_hook_to_module i h ;;
  set_execution_device i ;;
  when (truthy_str saved_layer_name)
       (m <- get_module i ;; put_module i (with_network_layer_name saved_layer_name m)) ;;
  when (match device_map, max_memory with
        | Some (_ :: _), Some _ => true
        | _, _ => false
        end)
       (m <- get_module i ;;
        put_module i (with_max_memory max_memory (with_device_map device_map m))) ;;
  m <- get_module i ;;
  put_module i (with_offload_post
                  (Some (str_in (sd_model_type env) offload_post_families
                         && te_hijack o
                         && String.prefix "text_encoder" module_name)) m).

(** One turn of the loop of [apply_balanced_offload_to_module]. *)
Definition offload_module (cached : bool) (checkpoint : string) (pipe : Pipe)
    (module_name : string) (module_size used_gpu : float) : M float :=
  match getattr pipe module_name with
  | VNone => ret used_gpu
  | VOther =>
      (* accelerate walks [module.children()] *)
      raise (mkExn "AttributeError" "object has no attribute 'children'")
  | VModule i =>
      module <- get_module i ;;
      let saved_layer_name := network_layer_name module in
      let device_map := balanced_offload_device_map module in
      let max_memory := balanced_offload_max_memory module in
      remove_hook_from_module i ;;
      perc_gpu <- py_div used_gpu (gpu_memory env) ;;
      used_gpu <- offload_try cached module_name i module module_size used_gpu perc_gpu ;;
      offload_attach checkpoint module_name i saved_layer_name device_map max_memory ;;
      ret used_gpu
  end.

Fixpoint offload_modules (cached : bool) (checkpoint : string) (pipe : Pipe)
    (items : list (string * float)) (used_gpu : float) : M unit :=
  match items with
  | [] => ret tt
  | (module_name, module_size) :: rest =>
      used_gpu <- offload_module cached checkpoint pipe module_name module_size used_gpu ;;
      offload_modules cached checkpoint pipe rest used_gpu
  end.

Definition apply_balanced_offload_to_module (cached : bool) (checkpoint : string)
    (exclude : list string) (pipe : Pipe) : M unit :=
  r <- torch_gc true false None ;;
  items <- get_pipe_modules exclude pipe ;;
  offload_modules cached checkpoint pipe items (fst r) ;;
  torch_gc true true (Some "offload") ;;
  ret tt.

(** [for p in optional: apply_balanced_offload_to_module(p)] *)
Definition apply_to_nested (cached : bool) (checkpoint : string)
    (exclude : list string) (pipe : option Pipe) : M unit :=
  match pipe with
  | Some p => apply_balanced_offload_to_module cached checkpoint exclude p
  | None => ret tt
  end.

(** The four calls of [apply_balanced_offload_to_module]: the model
    itself, then [pipe], [prior_pipe] and [decoder_pipe] where the model
    has them. *)
Definition apply_to_pipelines (cached : bool) (checkpoint : string)
    (exclude : list string) (sd : SdModel) : M unit :=
  apply_balanced_offload_to_module cached checkpoint exclude (sd_pipe sd) ;;
  apply_to_nested cached checkpoint exclude (nested_pipe sd) ;;
  apply_to_nested cached checkpoint exclude (prior_pipe sd) ;;
  apply_to_nested cached checkpoint exclude (decoder_pipe sd).

(** Is the manager in [offload_hook_instance] to be replaced? *)
Definition instance_stale (checkpoint : string) : M bool :=
  w <- get_world ;;
  match offload_hook_instance w with
  | None => ret true
  | Some h =>
      inst <- get_hook h ;;
      o <- get_opts ;;
      ret (negb (min_watermark inst =? diffusers_offload_min_gpu_memory o)
           || negb (max_watermark inst =? diffusers_offload_max_gpu_memory o)
           || negb (String.eqb checkpoint (checkpoint_name inst)))
  end.

(** [sd_model], or [shared.sd_model] when none is given and a model is
    loaded. *)
Definition resolve_model (sd_model : option SdModel) : option SdModel :=
  match sd_model with
  | Some m => Some m
  | None => if sd_loaded env then shared_sd_model env else None
  end.

(** The checkpoint's name, or the class name of the pipeline. *)
Definition checkpoint_of (sd : SdModel) : string :=
  match sd_checkpoint_info sd with
  | Some (Some n) => n
  | _ => p_class (sd_pipe sd)
  end.

(** The orchestrator. The calls that follow the last nested pipeline
    (layerwise quantization, [set_accelerate], the timer) act on state
    that this model does not carry and are left out. *)
Definition apply_balanced_offload (sd_model : option SdModel) (exclude : list string)
    : M (option SdModel) :=
  o <- get_opts ;;
  if negb (String.eqb (diffusers_offload_mode o) "balanced") then ret sd_model else
  match resolve_model sd_model with
  | None => ret None
  | Some sd =>
      if str_in (p_class (sd_pipe sd)) balanced_offload_exclude then ret (Some sd) else
      let checkpoint := checkpoint_of sd in
      stale <- instance_stale checkpoint ;;
      when stale (h <- OffloadHook_init checkpoint ;; set_instance (Some h)) ;;
      let cached := negb stale in
      apply_to_pipelines cached checkpoint exclude sd ;;
      when (debug env) (log LvlTrace MsgApplied) ;;
      when (negb cached)
           (h <- get_instance ;;
            inst <- get_hook h ;;
            log LvlInfo (MsgSummary (p_class (sd_pipe sd)) (length (offload_map inst))
                           (model_size inst))) ;;
      ret (Some sd)
  end.

End Offload.

(** * Vocabulary of the statements *)

(** The world after more events and nothing else. *)
Definition add_events (evs : list Event) (w : World) : World :=
  mkWorld (opts w) (hooks w) (offload_hook_instance w) (heap w) (events w ++ evs).

(** Events that change no attachment and compute no size: log lines,
    [errors.display], [torch_gc] and [module.to]. *)
Definition bookkeeping (e : Event) : Prop :=
  match e with
  | EvLog _ _ | EvDisplay _ _ | EvGc _ _ _ | EvTo _ _ => True
  | _ => False
  end.

(** The fields of a manager that its constructor fixes. *)
Definition same_config (k k' : OffloadHook) : Prop :=
  checkpoint_name k' = checkpoint_name k /\
  min_watermark k' = min_watermark k /\
  max_watermark k' = max_watermark k /\
  cpu_watermark k' = cpu_watermark k /\
  gpu k' = gpu k /\
  cpu k' = cpu k.

(** Every entry of [d] is in [d'] with the same value. *)
Definition keeps_entries (d d' : list (string * float)) : Prop :=
  forall n v, dict_get n d = Some v -> dict_get n d' = Some v.

(** What no step of the orchestrator or of the hooks changes: the
    options, the current manager, the store's size, the configuration
    of every manager and the entries of its size cache; the trace only
    grows. *)
Record frame (w w' : World) : Prop := mkFrame {
  fr_opts : opts w' = opts w;
  fr_instance : offload_hook_instance w' = offload_hook_instance w;
  fr_hooks_length : length (hooks w') = length (hooks w);
  fr_heap_length : length (heap w') = length (heap w);
  fr_hooks : forall h k, hooks w !! h = Some k ->
               exists k', hooks w' !! h = Some k' /\ same_config k k'
                          /\ keeps_entries (offload_map k) (offload_map k');
  fr_events : exists evs, events w' = (events w ++ evs)%list
}.

(** [m] respects the frame, however it ends. *)
Definition framed {A : Type} (m : M A) : Prop :=
  forall w r w', m w = (r, w') -> frame w w'.

(** [module._hf_hook.execution_device], read through the store. *)
Definition declared_execution_device (w : World) (i : nat) : option Device :=
  match heap w !! i with
  | Some m =>
      match m_hf_hook m with
      | Some h =>
          match hooks w !! h with
          | Some k => execution_device k
          | None => None
          end
      | None => None
      end
  | None => None
  end.

(** The hook attached to the module at [i], if any. *)
Definition attached_hook (w : World) (i : nat) : option nat :=
  match heap w !! i with
  | Some m => m_hf_hook m
  | None => None
  end.

(** The pipelines the orchestrator walks through, in its order. *)
Definition pipes_of (sd : SdModel) : list Pipe :=
  sd_pipe sd
  :: (match nested_pipe sd with Some p => [p] | None => [] end
      ++ match prior_pipe sd with Some p => [p] | None => [] end
      ++ match decoder_pipe sd with Some p => [p] | None => [] end)%list.

(** The module at [i] is a submodule the orchestrator reaches in [pipe]. *)
Definition reaches (exclude : list string) (pipe : Pipe) (i : nat) : Prop :=
  exists name, In name (pipe_module_names exclude pipe) /\ getattr pipe name = VModule i.

(** The name is in the size cache of the current manager, or is not the
    name of a module. *)
Definition settled (pipe : Pipe) (w : World) (name : string) : Prop :=
  forall i, getattr pipe name = VModule i ->
    exists h k s, offload_hook_instance w = Some h /\ hooks w !! h = Some k
                  /\ dict_get name (offload_map k) = Some s.

(** The size caches are the same in [w'] as in [w]. *)
Definition same_caches (w w' : World) : Prop :=
  forall h k, hooks w !! h = Some k ->
    exists k', hooks w' !! h = Some k' /\ offload_map k' = offload_map k.

(** Every name of [pipe] is in the cache and every module it reaches
    is hooked to the manager [h]. *)
Definition established (exclude : list string) (h : nat) (w : World) (pipe : Pipe) : Prop :=
  (forall n, In n (pipe_module_names exclude pipe) -> settled pipe w n)
  /\ (forall i, reaches exclude pipe i -> attached_hook w i = Some h).

(** What a pass, or a sequence of passes, replays: same caches, same
    attachments, no size computed, and the modules of [ps] hooked
    again. *)
Definition replays (exclude : list string) (h : nat) (ps : list Pipe) (w w' : World) : Prop :=
  same_caches w w'
  /\ (forall j, attached_hook w' j = attached_hook w j)
  /\ exists evs,
       events w' = (events w ++ evs)%list
       /\ (forall n, ~ In (EvSize n) evs)
       /\ (forall p i, In p ps -> reaches exclude p i -> In (EvAddHook i h) evs).

(** * Sample objects for running the model *)

Definition cuda0 : Device := mkDevice "cuda" (Some 0%Z).

Definition sample_env : Env :=
  mkEnv 24 64 "sdxl" true None cuda0 "cuda" false None Device_eqb
    (fun _ => (12, 8))
    (fun _ _ _ => None)
    (fun _ _ _ => Ok (Some [("", DInt 0)]))
    (fun _ m _ _ => Ok m).

Definition sample_opts (low high : float) : Opts :=
  mkOpts "balanced" low high 0.5 "offload" false.

Definition empty_world (o : Opts) : World := mkWorld o [] None [] [].

Definition sample_hook : OffloadHook :=
  mkOffloadHook "ckpt" 0.2 0.75 0.5 19327352832 34359738368
    [("unet", 5)] [("unet", 2)] None.

Definition sample_max_memory : MaxMemory := mkMaxMemory 0 19327352832 34359738368.

(** A module on [d], hooked to the manager at reference 0. *)
Definition sample_module (d : Device) (dm : option DeviceMap) (mm : option MaxMemory)
    (post : option bool) : Module :=
  mkModule "UNet2DConditionModel" None d (Some "float16") (Ok [(1000, 2)%Z]) (Some 0%nat)
    None dm mm None post.

Definition sample_world (m : Module) : World :=
  mkWorld (sample_opts 0.2 0.75) [sample_hook] (Some 0%nat) [m] [].

(** An environment whose library calls fail with [e]. *)
Definition failing_env (e : Exn) : Env :=
  mkEnv 24 64 "sdxl" true None cuda0 "cuda" false None Device_eqb
    (fun _ => (12, 8))
    (fun _ _ _ => Some e)
    (fun _ _ _ => Raise e)
    (fun _ _ _ _ => Raise e).



(** [sample_env] with [SD_MOVE_DEBUG] set when the module was loaded. *)
Definition debug_env : Env :=
  mkEnv 24 64 "sdxl" true None cuda0 "cuda" true None Device_eqb
    (fun _ => (12, 8))
    (fun _ _ _ => None)
    (fun _ _ _ => Ok (Some [("", DInt 0)]))
    (fun _ m _ _ => Ok m).

Definition sample_pipe (attrs : list (string * PyVal)) : Pipe :=
  mkPipe "StableDiffusionXLPipeline" (Some (map fst attrs)) [] attrs.

Definition sample_model (attrs : list (string * PyVal)) : SdModel :=
  mkSdModel (sample_pipe attrs) (Some (Some "ckpt")) None None None.

(** A model with one module and one object that is not a module, and
    two calls of the orchestrator from a world without a manager. *)
Definition twice_model : SdModel := sample_model [("unet", VModule 0); ("scheduler", VOther)].

Definition twice_start (low high : float) : World :=
  mkWorld (sample_opts low high) [] None [sample_module cuda0 None None None] [].

Definition twice_first (low high : float) : World :=
  snd (apply_balanced_offload sample_env (Some twice_model) [] (twice_start low high)).

Definition twice_second (low high : float) : World :=
  snd (apply_balanced_offload sample_env (Some twice_model) [] (twice_first low high)).

(** * Vocabulary of further properties *)

(** Options that [validate] accepts as they are: numbers with
    [0 <= low <= 1], [0.1 <= high <= 1] and [low <= high]. *)
Definition valid_watermarks (o : Opts) : Prop :=
  (0 <=? diffusers_offload_min_gpu_memory o) = true
  /\ (diffusers_offload_min_gpu_memory o <=? 1) = true
  /\ (0.1 <=? diffusers_offload_max_gpu_memory o) = true
  /\ (diffusers_offload_max_gpu_memory o <=? 1) = true
  /\ (diffusers_offload_min_gpu_memory o <=? diffusers_offload_max_gpu_memory o) = true.

(** A list of sized names in descending order of size: no entry is
    below a later one. *)
Fixpoint descending (l : list (string * float)) : Prop :=
  match l with
  | [] => True
  | x :: l' => (forall y, In y l' -> (snd x <? snd y) = false) /\ descending l'
  end.

(** The size cache of the current manager has [n] with size [s]. *)
Definition cached_size (w : World) (n : string) (s : float) : Prop :=
  exists h k, offload_hook_instance w = Some h /\ hooks w !! h = Some k
              /\ dict_get n (offload_map k) = Some s.

(** Every entry of [modules] is the cache's entry. *)
Definition agrees_with_cache (modules : list (string * float)) (w : World) : Prop :=
  forall n s, dict_get n modules = Some s -> cached_size w n s.

(** [m] changes no module of the store but those of [P], however it
    ends. *)
Definition touches_only {A : Type} (P : nat -> Prop) (m : M A) : Prop :=
  forall w r w', m w = (r, w') -> forall j, ~ P j -> heap w' !! j = heap w !! j.

(** The module at [j] is reached in one of the model's pipelines. *)
Definition reached_in (exclude : list string) (sd : SdModel) (j : nat) : Prop :=
  exists p, In p (pipes_of sd) /\ reaches exclude p j.

(** A world with a manager and two modules, of which [twice_model]
    reaches the first only. *)
Definition two_module_world : World :=
  mkWorld (sample_opts 0.2 0.75) [sample_hook] (Some 0%nat)
    [sample_module cuda0 None None None;
     mkModule "AutoencoderKL" None cuda0 (Some "float16") (Ok [(10, 2)%Z])
       None None None None None None] [].

(** The value the orchestrator gives [module.offload_post] under the
    name [module_name]. *)
Definition post_flag (env : Env) (o : Opts) (module_name : string) : bool :=
  str_in (sd_model_type env) offload_post_families
  && te_hijack o
  && String.prefix "text_encoder" module_name.

(** An environment on the DirectML backend whose builder yields
    [built]. *)
Definition directml_env (built : option DeviceMap) : Env :=
  mkEnv 24 64 "sdxl" true None (mkDevice "privateuseone" (Some 0%Z)) "directml" false None
    Device_eqb
    (fun _ => (12, 8))
    (fun _ _ _ => None)
    (fun _ _ _ => Ok built)
    (fun _ m _ _ => Ok m).

(** An environment that reports no accelerator memory. *)
Definition no_gpu_env : Env :=
  mkEnv 0 64 "sdxl" true None devices_cpu "cpu" false None Device_eqb
    (fun _ => (0, 8))
    (fun _ _ _ => None)
    (fun _ _ _ => Ok (Some [("", DStr "cpu")]))
    (fun _ m _ _ => Ok m).

Definition ZeroDivisionError : Exn := mkExn "ZeroDivisionError" "float division by zero".


(** * The rest of the module

    [dtype_byte_size], [set_accelerate], [disable_offload],
    [set_diffuser_offload], and the orchestrator with the calls that
    follow its last pass. They work on state that the manager does not
    touch: the [has_accelerate] attributes, three more options and the
    patch of accelerate's [dtype_byte_size]. A session carries that
    state around the world of the manager. The timer is left out. *)

(** ** [dtype_byte_size] *)

(** A dtype as accelerate gets it: a [torch.dtype] by its name, or a
    member of accelerate's [CustomDtype]. *)
Inductive Dtype :=
| TorchDtype (name : string)
| CustomDtype (name : string).

Definition Dtype_eqb (a b : Dtype) : bool :=
  match a, b with
  | TorchDtype x, TorchDtype y => String.eqb x y
  | CustomDtype x, CustomDtype y => String.eqb x y
  | _, _ => false
  end.

Definition fp8_dtypes : list string :=
  ["float8_e4m3fn"; "float8_e4m3fnuz"; "float8_e5m2"; "float8_e5m2fnuz"].

(** The list literal [[torch.a, torch.b, ...]]: the attributes are
    looked up from left to right; one that this torch lacks raises. *)
Fixpoint torch_attrs (defined names : list string) : result (list Dtype) :=
  match names with
  | [] => Ok []
  | n :: rest =>
      if str_in n defined then
        match torch_attrs defined rest with
        | Ok l => Ok (TorchDtype n :: l)
        | Raise e => Raise e
        end
      else Raise (mkExn "AttributeError" ("module 'torch' has no attribute '" ++ n ++ "'"))
  end.

(** What the name [dtype_byte_size] can be bound to: accelerate's own
    function, or the function of this module. *)
Inductive ByteSizeFn := LibraryByteSize | OffloadByteSize.

(** ** More objects, options and effects *)

(** A pipeline object as [set_diffuser_offload] looks at it: what the
    orchestrator sees of it, its [has_accelerate] attribute (absent is
    [None]) and the methods its class has. *)
Record ModelObject := mkModelObject {
  pipelines : SdModel;
  has_accelerate : option bool;
  has_maybe_free_model_hooks : bool;
  has_enable_model_cpu_offload : bool;
  has_enable_sequential_cpu_offload : bool
}.

Definition with_has_accelerate (b : option bool) (mo : ModelObject) : ModelObject :=
  mkModelObject (pipelines mo) b (has_maybe_free_model_hooks mo)
    (has_enable_model_cpu_offload mo) (has_enable_sequential_cpu_offload mo).

(** Log lines of [set_diffuser_offload], by their format string. *)
Inductive SetMsg :=
| MsgBackendOriginal                            (* Attempting to use offload with backend=original *)
| MsgNotLoaded (op : string)                    (* {op} is not loaded *)
| MsgLargeModel (op mode cls : string)          (* Setting {op}: offload=.. type=.. large model *)
| MsgSetting (op mode : string)                 (* Setting {op}: offload=.. limit=.. *)
| MsgDisablingMove (op method : string)         (* Disabling {op} "Move model to CPU" since ".." is enabled *)
| MsgSettingError (op mode : string) (e : Exn). (* Setting {op}: offload=.. {e} *)

(** What [set_diffuser_offload] and the orchestrator's tail do to the
    outside, in order. The model of a call is a reference. *)
Inductive Call :=
| CLog (lvl : Level) (msg : SetMsg)             (* shared.log.warning, .error, .debug *)
| CQuiet (quiet : bool) (msg : SetMsg)          (* shared.log.quiet(quiet, ..) *)
| CFreeHooks (model : nat)                      (* sd_model.maybe_free_model_hooks() *)
| CEnableModelOffload (model : nat) (d : Device)      (* sd_model.enable_model_cpu_offload(device=d) *)
| CEnableSequentialOffload (model : nat) (d : Device) (* sd_model.enable_sequential_cpu_offload(device=d) *)
| CCpuOffload (vae : nat) (d : Device)          (* accelerate.cpu_offload(sd_model.vae, d, ..) *)
| CLayerwise (model : nat).                     (* model_quant.apply_layerwise(sd_model, quiet=True) *)

(** The state around the manager's world. *)
Record Session := mkSession {
  world : World;
  models : list ModelObject;                  (* pipeline objects *)
  component_has_accelerate : list nat;        (* modules whose has_accelerate is True *)
  accelerate_dtype_byte_size : option ByteSizeFn;   (* the global of this module *)
  modeling_dtype_byte_size : ByteSizeFn;      (* accelerate.utils.modeling.dtype_byte_size *)
  diffusers_move_base : bool;                 (* shared.opts.diffusers_move_base *)
  diffusers_move_unet : bool;
  diffusers_move_refiner : bool;
  layerwise_quantization : bool;              (* shared.opts.layerwise_quantization *)
  calls : list Call
}.

(** What the code reads and calls besides [Env]. A library call sees
    the calls so far and the modules; it may raise and may change the
    modules. *)
Record Host := mkHost {
  native : bool;                              (* shared.native *)
  torch_dtypes : list string;                 (* the dtypes this torch defines *)
  library_dtype_byte_size : Dtype -> result float;   (* accelerate's dtype_byte_size *)
  all_hooks : list Call -> nat -> option nat; (* len(sd_model._all_hooks), if there is one *)
  library : list Call -> Call -> list Module -> option Exn * list Module
}.

Definition offload_warn : list string :=
  ["sc"; "sd3"; "f1"; "h1"; "hunyuandit"; "auraflow"; "omnigen"; "omnigen2"; "cogview4";
   "cosmos"; "chroma"].

(** [dtype_byte_size(dtype)], with the global [accelerate_dtype_byte_size]
    as [saved]. Called through the function it has itself been saved
    as, it would not return. *)
Definition dtype_byte_size (host : Host) (saved : option ByteSizeFn) (dtype : Dtype)
    : result float :=
  let dtype :=
    match torch_attrs (torch_dtypes host) fp8_dtypes with
    | Ok l => if existsb (Dtype_eqb dtype) l then CustomDtype "FP8" else dtype
    | Raise _ => dtype
    end in
  match saved with
  | None => Raise (mkExn "TypeError" "'NoneType' object is not callable")
  | Some LibraryByteSize => library_dtype_byte_size host dtype
  | Some OffloadByteSize => Raise (mkExn "RecursionError" "maximum recursion depth exceeded")
  end.

(** [accelerate.utils.modeling.dtype_byte_size(dtype)], as accelerate
    calls it in the session [s]. *)
Definition call_dtype_byte_size (host : Host) (s : Session) (dtype : Dtype) : result float :=
  match modeling_dtype_byte_size s with
  | LibraryByteSize => library_dtype_byte_size host dtype
  | OffloadByteSize => dtype_byte_size host (accelerate_dtype_byte_size s) dtype
  end.

(** The loop of [disable_offload]. *)
Fixpoint disable_offload_loop (pipe : Pipe) (keys : list string) : M unit :=
  match keys with
  | [] => ret tt
  | module_name :: rest =>
      match getattr pipe module_name with
      | VModule i =>
          module <- get_module i ;;
          let saved_layer_name := network_layer_name module in
          remove_hook_from_module i ;;
          when (truthy_str saved_layer_name)
               (m <- get_module i ;;
                put_module i (with_network_layer_name saved_layer_name m))
      | _ => ret tt
      end ;;
      disable_offload_loop pipe rest
  end.

(** [_internal_dict.keys()], or the constructor's parameter names. *)
Definition pipe_keys (pipe : Pipe) : list string :=
  match p_internal_dict pipe with
  | Some keys => keys
  | None => p_signature pipe
  end.

(** ** The session monad *)

Definition Sess (A : Type) : Type := Session -> result A * Session.

Definition sret {A : Type} (a : A) : Sess A := fun s => (Ok a, s).

Definition sraise {A : Type} (e : Exn) : Sess A := fun s => (Raise e, s).

Definition sbind {A B : Type} (m : Sess A) (f : A -> Sess B) : Sess B :=
  fun s =>
    match m s with
    | (Ok a, s') => f a s'
    | (Raise e, s') => (Raise e, s')
    end.

Definition stry {A : Type} (m : Sess A) (h : Exn -> Sess A) : Sess A :=
  fun s =>
    match m s with
    | (Ok a, s') => (Ok a, s')
    | (Raise e, s') => h e s'
    end.

Declare Scope sess_scope.
Delimit Scope sess_scope with sess.
Notation "x <- m ;; k" := (sbind m (fun x => k))
  (at level 100, m at next level, right associativity) : sess_scope.
Notation "m ;; k" := (sbind m (fun _ => k))
  (at level 100, right associativity) : sess_scope.
Open Scope sess_scope.

Definition swhen (b : bool) (m : Sess unit) : Sess unit := if b then m else sret tt.

Definition get_session : Sess Session := fun s => (Ok s, s).

Definition with_world (w : World) (s : Session) : Session :=
  mkSession w (models s) (component_has_accelerate s) (accelerate_dtype_byte_size s)
    (modeling_dtype_byte_size s) (diffusers_move_base s) (diffusers_move_unet s)
    (diffusers_move_refiner s) (layerwise_quantization s) (calls s).

Definition with_models (ms : list ModelObject) (s : Session) : Session :=
  mkSession (world s) ms (component_has_accelerate s) (accelerate_dtype_byte_size s)
    (modeling_dtype_byte_size s) (diffusers_move_base s) (diffusers_move_unet s)
    (diffusers_move_refiner s) (layerwise_quantization s) (calls s).

Definition with_components (l : list nat) (s : Session) : Session :=
  mkSession (world s) (models s) l (accelerate_dtype_byte_size s)
    (modeling_dtype_byte_size s) (diffusers_move_base s) (diffusers_move_unet s)
    (diffusers_move_refiner s) (layerwise_quantization s) (calls s).

Definition with_patch (saved : option ByteSizeFn) (f : ByteSizeFn) (s : Session) : Session :=
  mkSession (world s) (models s) (component_has_accelerate s) saved f
    (diffusers_move_base s) (diffusers_move_unet s) (diffusers_move_refiner s)
    (layerwise_quantization s) (calls s).

Definition with_move (base unet refiner : bool) (s : Session) : Session :=
  mkSession (world s) (models s) (component_has_accelerate s) (accelerate_dtype_byte_size s)
    (modeling_dtype_byte_size s) base unet refiner (layerwise_quantization s) (calls s).

Definition with_calls (cs : list Call) (s : Session) : Session :=
  mkSession (world s) (models s) (component_has_accelerate s) (accelerate_dtype_byte_size s)
    (modeling_dtype_byte_size s) (diffusers_move_base s) (diffusers_move_unet s)
    (diffusers_move_refiner s) (layerwise_quantization s) cs.

(** A step of the manager's layer, run on the session's world. *)
Definition lift {A : Type} (m : M A) : Sess A :=
  fun s => let (r, w') := m (world s) in (r, with_world w' s).

Definition get_model (r : nat) : Sess ModelObject :=
  fun s => match models s !! r with
           | Some mo => (Ok mo, s)
           | None => (Raise dangling, s)
           end.

Definition put_model (r : nat) (mo : ModelObject) : Sess unit :=
  fun s => (Ok tt, with_models (<[r := mo]> (models s)) s).

(** [sd_model.has_accelerate = b] *)
Definition set_has_accelerate (r : nat) (b : bool) : Sess unit :=
  mo <- get_model r ;;
  put_model r (with_has_accelerate (Some b) mo).

Definition record (c : Call) : Sess unit :=
  fun s => (Ok tt, with_calls (calls s ++ [c]) s).

Definition slog (lvl : Level) (msg : SetMsg) : Sess unit := record (CLog lvl msg).

Definition squiet (quiet : bool) (msg : SetMsg) : Sess unit := record (CQuiet quiet msg).

(** [has_accelerate] as a condition. *)
Definition truthy (b : option bool) : bool :=
  match b with
  | Some true => true
  | _ => false
  end.

Section SetOffload.

Variable env : Env.
Variable host : Host.

(** A call into diffusers or accelerate. *)
Definition call (c : Call) : Sess unit :=
  fun s =>
    let (e, hp) := library host (calls s) c (heap (world s)) in
    let w := world s in
    let s' := with_calls (calls s ++ [c])
                (with_world (mkWorld (opts w) (hooks w) (offload_hook_instance w) hp
                               (events w)) s) in
    match e with
    | Some e => (Raise e, s')
    | None => (Ok tt, s')
    end.

(** ** [set_accelerate] *)

(** [component.has_accelerate = True] for the modules under [keys]. *)
Fixpoint mark_components (pipe : Pipe) (keys : list string) : Sess unit :=
  match keys with
  | [] => sret tt
  | k :: rest =>
      match getattr pipe k with
      | VModule i =>
          fun s => (Ok tt, with_components (component_has_accelerate s ++ [i]) s)
      | _ => sret tt
      end ;;
      mark_components pipe rest
  end.

(** The nested function, on a pipeline that has no [pipe] of its own:
    only a pipeline with an [_internal_dict] has components to mark. *)
Definition set_accelerate_to_module (pipe : Pipe) : Sess unit :=
  match p_internal_dict pipe with
  | Some keys => mark_components pipe keys
  | None => sret tt
  end.

Definition set_accelerate_to_nested (pipe : option Pipe) : Sess unit :=
  match pipe with
  | Some p => set_accelerate_to_module p
  | None => sret tt
  end.

Definition set_accelerate (r : nat) : Sess unit :=
  set_has_accelerate r true ;;
  mo <- get_model r ;;
  let sd := pipelines mo in
  (* set_accelerate_to_module(sd_model) goes into [sd_model.pipe] first *)
  set_accelerate_to_nested (nested_pipe sd) ;;
  set_accelerate_to_module (sd_pipe sd) ;;
  set_accelerate_to_nested (prior_pipe sd) ;;
  set_accelerate_to_nested (decoder_pipe sd).

(** ** [disable_offload] *)

Definition disable_offload (sd_model : option nat) : Sess unit :=
  match sd_model with
  | None => sret tt
  | Some r =>
      mo <- get_model r ;;
      if negb (truthy (has_accelerate mo)) then sret tt else
      let pipe := sd_pipe (pipelines mo) in
      lift (disable_offload_loop pipe (pipe_keys pipe)) ;;
      set_has_accelerate r false
  end.

(** ** [apply_balanced_offload] with its tail

    The orchestrator called on a model object, with what follows the
    last pass: layerwise quantization where the option is set, then
    [set_accelerate], then the two log lines. *)
Definition apply_balanced_offload_on (r : nat) (exclude : list string) : Sess nat :=
  o <- lift get_opts ;;
  if negb (String.eqb (diffusers_offload_mode o) "balanced") then sret r else
  mo <- get_model r ;;
  let sd := pipelines mo in
  if str_in (p_class (sd_pipe sd)) balanced_offload_exclude then sret r else
  let checkpoint := checkpoint_of sd in
  stale <- lift (instance_stale checkpoint) ;;
  lift (when stale (h <- OffloadHook_init env checkpoint ;; set_instance (Some h))%py) ;;
  let cached := negb stale in
  lift (apply_to_pipelines env cached checkpoint exclude sd) ;;
  s <- get_session ;;
  swhen (layerwise_quantization s) (call (CLayerwise r)) ;;
  set_accelerate r ;;
  lift (when (debug env) (log LvlTrace MsgApplied)) ;;
  lift (when (negb cached)
          (h <- get_instance ;;
           inst <- get_hook h ;;
           log LvlInfo (MsgSummary (p_class (sd_pipe sd)) (length (offload_map inst))
                          (model_size inst)))%py) ;;
  sret r.

(** ** [set_diffuser_offload] *)

(** The three "Move model to CPU" options are switched off, with a
    warning, when one of them is on. *)
Definition reset_move_options (op method : string) : Sess unit :=
  s <- get_session ;;
  swhen (diffusers_move_base s || diffusers_move_unet s || diffusers_move_refiner s)
        ((fun s => (Ok tt, with_move false false false s)) ;;
         slog LvlWarning (MsgDisablingMove op method)).

(** [sd_model.maybe_free_model_hooks()] *)
Definition maybe_free_model_hooks (r : nat) : Sess unit :=
  mo <- get_model r ;;
  if has_maybe_free_model_hooks mo then call (CFreeHooks r)
  else sraise (mkExn "AttributeError"
                 ("'" ++ p_class (sd_pipe (pipelines mo))
                  ++ "' object has no attribute 'maybe_free_model_hooks'")).

(** [sd_model.vae], of which [.to] is called next. *)
Definition model_vae (mo : ModelObject) : Sess nat :=
  let pipe := sd_pipe (pipelines mo) in
  match dict_get "vae" (p_attrs pipe) with
  | Some (VModule i) => sret i
  | Some VNone => sraise (mkExn "AttributeError" "'NoneType' object has no attribute 'to'")
  | Some VOther => sraise (mkExn "AttributeError" "object has no attribute 'to'")
  | None => sraise (mkExn "AttributeError"
                      ("'" ++ p_class pipe ++ "' object has no attribute 'vae'"))
  end.

Definition set_diffuser_offload (sd_model : option nat) (op : string) (quiet : bool)
    : Sess unit :=
  if negb (native host) then slog LvlWarning MsgBackendOriginal else
  match sd_model with
  | None => slog LvlWarning (MsgNotLoaded op)
  | Some r =>
      mo <- get_model r ;;
      swhen (negb (truthy (has_accelerate mo))) (set_has_accelerate r false) ;;
      s <- get_session ;;
      swhen (match accelerate_dtype_byte_size s with None => true | Some _ => false end)
            (fun s => (Ok tt, with_patch (Some (modeling_dtype_byte_size s))
                                OffloadByteSize s)) ;;
      o <- lift get_opts ;;
      let mode := diffusers_offload_mode o in
      swhen (String.eqb mode "none")
            ((if str_in (sd_model_type env) offload_warn
                 || contains "video" (sd_model_type env)
              then slog LvlWarning
                     (MsgLargeModel op mode
                        (match shared_sd_model env with
                         | Some m => p_class (sd_pipe m)
                         | None => "NoneType"
                         end))
              else squiet quiet (MsgSetting op mode)) ;;
             swhen (has_maybe_free_model_hooks mo)
                   (maybe_free_model_hooks r ;;
                    set_has_accelerate r false)) ;;
      o <- lift get_opts ;;
      let mode := diffusers_offload_mode o in
      swhen (String.eqb mode "model" && has_enable_model_cpu_offload mo)
            (stry
               (squiet quiet (MsgSetting op mode) ;;
                reset_move_options op "Model CPU offload" ;;
                s <- get_session ;;
                match all_hooks host (calls s) r with
                | None | Some O => call (CEnableModelOffload r (device env))
                | Some (S _) => maybe_free_model_hooks r
                end ;;
                set_accelerate r)
               (fun e => slog LvlError (MsgSettingError op mode e))) ;;
      o <- lift get_opts ;;
      let mode := diffusers_offload_mode o in
      swhen (String.eqb mode "sequential" && has_enable_sequential_cpu_offload mo)
            (stry
               (slog LvlDebug (MsgSetting op mode) ;;
                reset_move_options op "Sequential CPU offload" ;;
                mo <- get_model r ;;
                (if truthy (has_accelerate mo) then
                   if String.eqb op "vae" then
                     vae <- model_vae mo ;;
                     lift (module_to env vae devices_cpu) ;;
                     call (CCpuOffload vae (device env))
                   else sret tt
                 else call (CEnableSequentialOffload r (device env))) ;;
                set_accelerate r)
               (fun e => slog LvlError (MsgSettingError op mode e))) ;;
      o <- lift get_opts ;;
      swhen (String.eqb (diffusers_offload_mode o) "balanced")
            (apply_balanced_offload_on r [] ;; sret tt)
  end.

End SetOffload.

Close Scope sess_scope.


(** * Vocabulary of the session's properties *)

(** Is [dtype] one of the four FP8 dtypes of torch? *)
Definition is_fp8 (dtype : Dtype) : bool :=
  match dtype with
  | TorchDtype n => str_in n fp8_dtypes
  | CustomDtype _ => false
  end.

(** Does this torch define all four? *)
Definition defines_fp8 (host : Host) : bool :=
  forallb (fun n => str_in n (torch_dtypes host)) fp8_dtypes.

(** The patch of accelerate's [dtype_byte_size] is either not made, or
    made with accelerate's own function saved. *)
Definition patch_consistent (s : Session) : Prop :=
  (accelerate_dtype_byte_size s = None /\ modeling_dtype_byte_size s = LibraryByteSize)
  \/ (accelerate_dtype_byte_size s = Some LibraryByteSize
      /\ modeling_dtype_byte_size s = OffloadByteSize).

(** The modules that the names [keys] of [pipe] lead to, in order. *)
Definition modules_under (pipe : Pipe) (keys : list string) : list nat :=
  flat_map (fun k => match getattr pipe k with
                     | VModule i => [i]
                     | _ => []
                     end) keys.

(** The components [set_accelerate_to_module] marks in [pipe]. *)
Definition components_of (pipe : Pipe) : list nat :=
  match p_internal_dict pipe with
  | Some keys => modules_under pipe keys
  | None => []
  end.

Definition components_of_nested (pipe : option Pipe) : list nat :=
  match pipe with
  | Some p => components_of p
  | None => []
  end.

(** The components [set_accelerate] marks in a model, in its order. *)
Definition components_of_model (sd : SdModel) : list nat :=
  (components_of_nested (nested_pipe sd) ++ components_of (sd_pipe sd)
   ++ components_of_nested (prior_pipe sd) ++ components_of_nested (decoder_pipe sd))%list.

(** The session after [set_accelerate] on the model [mo] at [r]. *)
Definition accelerated (r : nat) (mo : ModelObject) (s : Session) : Session :=
  with_components (component_has_accelerate s ++ components_of_model (pipelines mo))
    (with_models (<[r := with_has_accelerate (Some true) mo]> (models s)) s).

(** The store of modules after the hooks of the modules [refs] have
    been removed. *)
Definition unhooked (refs : list nat) (hp : list Module) : list Module :=
  fold_left (fun hp i => match hp !! i with
                         | Some m => <[i := with_hf_hook None m]> hp
                         | None => hp
                         end) refs hp.

(** [m] takes a session to one that [R] relates to it, however it
    ends. *)
Definition ensures {A : Type} (R : Session -> Session -> Prop) (m : Sess A) : Prop :=
  forall s r s', m s = (r, s') -> R s s'.

(** [f] reads the same in both sessions. *)
Definition same_on {X : Type} (f : Session -> X) (s s' : Session) : Prop := f s' = f s.

(** The calls of [s'] are those of [s] and then calls of [P]. *)
Definition calls_grow_by (P : Call -> Prop) (s s' : Session) : Prop :=
  exists cs, calls s' = (calls s ++ cs)%list /\ Forall P cs.

(** A call into a library, as opposed to a log line. *)
Definition library_call (c : Call) : Prop :=
  match c with
  | CLog _ _ | CQuiet _ _ => False
  | _ => True
  end.

(** The three "Move model to CPU" options. *)
Definition move_options (s : Session) : bool * bool * bool :=
  (diffusers_move_base s, diffusers_move_unet s, diffusers_move_refiner s).

(** ** Sample objects of a session *)

Definition sample_host : Host :=
  mkHost true fp8_dtypes
    (fun d => match d with
              | CustomDtype "FP8" => Ok 1
              | TorchDtype "float16" => Ok 2
              | _ => Ok 4
              end)
    (fun _ _ => None)
    (fun _ _ hp => (None, hp)).

(** A host whose torch has only two of the FP8 dtypes. *)
Definition old_torch_host : Host :=
  mkHost true ["float8_e4m3fn"; "float8_e5m2"]
    (fun d => match d with
              | CustomDtype "FP8" => Ok 1
              | TorchDtype "float16" => Ok 2
              | _ => Ok 4
              end)
    (fun _ _ => None)
    (fun _ _ hp => (None, hp)).

(** A host whose library calls fail with [e]. *)
Definition failing_host (e : Exn) : Host :=
  mkHost true fp8_dtypes (fun _ => Raise e) (fun _ _ => None) (fun _ _ hp => (Some e, hp)).

Definition sample_object (sd : SdModel) (flag : option bool) : ModelObject :=
  mkModelObject sd flag true true true.

(** A session as it is when the module has just been imported. *)
Definition fresh_session (w : World) (mos : list ModelObject) (move : bool) : Session :=
  mkSession w mos [] None LibraryByteSize move false false false [].

(** A model whose [prior_pipe] has a module that the model itself has
    under no key. *)
Definition nested_model : SdModel :=
  mkSdModel (sample_pipe [("unet", VModule 0)]) (Some (Some "ckpt")) None
    (Some (sample_pipe [("prior", VModule 1)])) None.

(** The patch of [dtype_byte_size], as a pair. *)
Definition patch_of (s : Session) : option ByteSizeFn * ByteSizeFn :=
  (accelerate_dtype_byte_size s, modeling_dtype_byte_size s).

(** The options of the manager's world. *)
Definition opts_of (s : Session) : Opts := opts (world s).


(** * Properties *)

(** ** Comparisons of floats

    The comparisons are those of [SFcompare] on the decoded values
    ([FloatAxioms]); [nan] is not comparable. *)

Lemma SFcompare_refl (x : spec_float) : SFcompare x x = Some Eq \/ SFcompare x x = None.
Proof.
  destruct x as [s|s| |s m e]; simpl; auto.
  - destruct s; auto.
  - rewrite Z.compare_refl, Pos.compare_cont_refl. destruct s; auto.
Qed.

Lemma SFcompare_antisym (x y : spec_float) :
  SFcompare y x = option_map CompOpp (SFcompare x y).
Proof.
  destruct x as [s|s| |s m e], y as [s'|s'| |s' m' e']; simpl; try reflexivity;
    try (destruct s; reflexivity); try (destruct s'; reflexivity);
    try (destruct s, s'; reflexivity).
  destruct s, s'; try reflexivity; f_equal;
    rewrite (Z.compare_antisym e e'); destruct (e ?= e')%Z; simpl; try reflexivity;
    rewrite (Pos.compare_cont_antisym m m' Eq); simpl; try reflexivity.
Qed.

Lemma SFcompare_number (x y : spec_float) :
  SFcompare x x = Some Eq -> SFcompare y y = Some Eq -> SFcompare x y <> None.
Proof. destruct x, y; simpl; congruence. Qed.

Lemma SFcompare_trans_lt (x y z : spec_float) :
  SFcompare x y = Some Lt -> SFcompare y z = Some Lt -> SFcompare x z = Some Lt.
Proof.
  assert (Hpos : forall m1 m2 m3, Pos.compare_cont Eq m1 m2 = Lt ->
            Pos.compare_cont Eq m2 m3 = Lt -> Pos.compare_cont Eq m1 m3 = Lt).
  { intros m1 m2 m3. change (Pos.compare_cont Eq) with Pos.compare.
    rewrite !Pos.compare_lt_iff. lia. }
  assert (Hpos' : forall m1 m2 m3, CompOpp (Pos.compare_cont Eq m1 m2) = Lt ->
            CompOpp (Pos.compare_cont Eq m2 m3) = Lt ->
            CompOpp (Pos.compare_cont Eq m1 m3) = Lt).
  { intros m1 m2 m3. change (Pos.compare_cont Eq) with Pos.compare.
    rewrite <- !Pos.compare_antisym, !Pos.compare_lt_iff. lia. }
  destruct x as [s|s| |s m e], y as [s'|s'| |s' m' e'], z as [s''|s''| |s'' m'' e''];
    simpl; try congruence;
    try (destruct s; congruence); try (destruct s'; congruence);
    try (destruct s''; congruence);
    try (destruct s, s'; congruence); try (destruct s', s''; congruence);
    try (destruct s, s''; congruence);
    try (destruct s, s', s''; congruence).
  destruct s, s', s''; try congruence;
    destruct (Z.compare_spec e e'), (Z.compare_spec e' e''), (Z.compare_spec e e'');
    try congruence; intros Hxy Hyz; try lia;
    f_equal; try reflexivity; try (injection Hxy as Hxy); try (injection Hyz as Hyz); eauto.
Qed.

Lemma ltb_irrefl (x : float) : (x <? x) = false.
Proof.
  rewrite FloatAxioms.ltb_spec. unfold SFltb.
  destruct (SFcompare_refl (Prim2SF x)) as [H|H]; rewrite H; reflexivity.
Qed.

Lemma ltb_asym (a b : float) : (a <? b) = true -> (b <? a) = false.
Proof.
  rewrite !FloatAxioms.ltb_spec. unfold SFltb.
  rewrite (SFcompare_antisym (Prim2SF a) (Prim2SF b)).
  destruct (SFcompare (Prim2SF a) (Prim2SF b)) as [[]|]; simpl; congruence.
Qed.

Lemma ltb_trans (a b c : float) : (a <? b) = true -> (b <? c) = true -> (a <? c) = true.
Proof.
  rewrite !FloatAxioms.ltb_spec. unfold SFltb. intros H1 H2.
  rewrite (SFcompare_trans_lt (Prim2SF a) (Prim2SF b) (Prim2SF c)); [reflexivity| |].
  - destruct (SFcompare (Prim2SF a) (Prim2SF b)) as [[]|]; congruence.
  - destruct (SFcompare (Prim2SF b) (Prim2SF c)) as [[]|]; congruence.
Qed.

Lemma eqb_sym (a b : float) : (a =? b) = (b =? a).
Proof.
  rewrite !FloatAxioms.eqb_spec. unfold SFeqb.
  rewrite (SFcompare_antisym (Prim2SF b) (Prim2SF a)).
  destruct (SFcompare (Prim2SF b) (Prim2SF a)) as [[]|]; reflexivity.
Qed.

(** A float that is not [nan] equals itself. *)
Lemma is_nan_false (x : float) : is_nan x = false <-> (x =? x) = true.
Proof. unfold is_nan. apply negb_false_iff. Qed.

Lemma is_nan_decoded (x : float) : is_nan x = true <-> Prim2SF x = S754_nan.
Proof.
  unfold is_nan. rewrite negb_true_iff, FloatAxioms.eqb_spec. unfold SFeqb.
  destruct (Prim2SF x) as [s|s| |s m e]; simpl; try (split; congruence).
  - destruct s; split; congruence.
  - rewrite Z.compare_refl, Pos.compare_cont_refl. destruct s; split; simpl; congruence.
Qed.

Lemma ltb_false_leb (a b : float) :
  is_nan a = false -> is_nan b = false -> (a <? b) = false -> (b <=? a) = true.
Proof.
  rewrite !is_nan_false, !FloatAxioms.eqb_spec, FloatAxioms.ltb_spec, FloatAxioms.leb_spec.
  unfold SFeqb, SFltb, SFleb. intros Ha Hb.
  assert (Hn : SFcompare (Prim2SF a) (Prim2SF b) <> None).
  { apply SFcompare_number.
    - destruct (SFcompare (Prim2SF a) (Prim2SF a)) as [[]|]; congruence.
    - destruct (SFcompare (Prim2SF b) (Prim2SF b)) as [[]|]; congruence. }
  rewrite (SFcompare_antisym (Prim2SF a) (Prim2SF b)).
  destruct (SFcompare (Prim2SF a) (Prim2SF b)) as [[]|]; simpl; congruence.
Qed.

Lemma leb_ltb_false (a b : float) : (b <=? a) = true -> (a <? b) = false.
Proof.
  rewrite FloatAxioms.ltb_spec, FloatAxioms.leb_spec. unfold SFltb, SFleb.
  rewrite (SFcompare_antisym (Prim2SF a) (Prim2SF b)).
  destruct (SFcompare (Prim2SF a) (Prim2SF b)) as [[]|]; simpl; congruence.
Qed.

Lemma leb_number (a b : float) : (a <=? b) = true -> is_nan a = false /\ is_nan b = false.
Proof.
  intros H. split.
  - destruct (is_nan a) eqn:E; [|reflexivity]. apply is_nan_decoded in E.
    rewrite FloatAxioms.leb_spec, E in H. discriminate H.
  - destruct (is_nan b) eqn:E; [|reflexivity]. apply is_nan_decoded in E.
    rewrite FloatAxioms.leb_spec, E in H. unfold SFleb in H.
    destruct (Prim2SF a); discriminate H.
Qed.

(** Below zero is below a tenth. *)
Lemma ltb_zero_tenth (x : float) : (x <? 0) = true -> (x <? 0.1) = true.
Proof. intros H. exact (ltb_trans x 0 0.1 H eq_refl). Qed.

Lemma not_ltb_tenth_zero (x : float) : (x <? 0.1) = false -> (x <? 0) = false.
Proof.
  intros H. destruct (x <? 0) eqn:E; [|reflexivity].
  apply ltb_zero_tenth in E. congruence.
Qed.

(** [nan] goes through a product, and [int] raises on it. *)
Lemma mul_nan_l (a b : float) : is_nan a = true -> is_nan (a * b) = true.
Proof.
  rewrite !is_nan_decoded, mul_spec. intros ->. reflexivity.
Qed.

Lemma mul_nan_r (a b : float) : is_nan b = true -> is_nan (a * b) = true.
Proof.
  rewrite !is_nan_decoded, mul_spec. intros ->. destruct (Prim2SF a); reflexivity.
Qed.

Lemma int_of_number (x : float) (z : Z) : int_of x = Ok z -> is_nan x = false.
Proof.
  unfold int_of. intros H. destruct (is_nan x) eqn:E; [|reflexivity].
  apply is_nan_decoded in E. rewrite E in H. discriminate H.
Qed.

(** A budget that converts was computed from a watermark that is a
    number. *)
Lemma budget_number (memory watermark : float) (z : Z) :
  int_of (memory * watermark * 1024 * 1024 * 1024) = Ok z -> is_nan watermark = false.
Proof.
  intros H. apply int_of_number in H.
  destruct (is_nan watermark) eqn:E; [|reflexivity].
  rewrite (mul_nan_l _ 1024) in H; [discriminate H|].
  do 2 apply mul_nan_l. apply mul_nan_r, E.
Qed.

Example init_sample :
  opts (snd (OffloadHook_init sample_env "ckpt" (empty_world (sample_opts 1.5 2))))
  = sample_opts 0.2 0.75.
Proof. vm_compute. reflexivity. Qed.

Example init_sample_fields :
  hooks (snd (OffloadHook_init sample_env "ckpt" (empty_world (sample_opts 1.5 2))))
  = [mkOffloadHook "ckpt" 1.5 0.75 0.5 19327352832 34359738368 [] [] None].
Proof. vm_compute. reflexivity. Qed.

(** ** Watermark validation (C4) *)

(** After [validate] none of its tests holds any longer. *)
Lemma validate_run (env : Env) (w : World) :
  diffusers_offload_mode (opts w) = "balanced" ->
  exists w' evs,
    validate env w = (Ok tt, w') /\
    events w' = (events w ++ evs)%list /\
    hooks w' = hooks w /\
    (diffusers_offload_min_gpu_memory (opts w') <? 0) = false /\
    (1 <? diffusers_offload_min_gpu_memory (opts w')) = false /\
    (diffusers_offload_max_gpu_memory (opts w') <? 0.1) = false /\
    (1 <? diffusers_offload_max_gpu_memory (opts w')) = false /\
    (diffusers_offload_max_gpu_memory (opts w')
     <? diffusers_offload_min_gpu_memory (opts w')) = false /\
    (diffusers_offload_min_gpu_memory (opts w') <> diffusers_offload_min_gpu_memory (opts w) ->
     exists v, In (EvLog LvlWarning (MsgLowInvalid v)) evs
               \/ In (EvLog LvlWarning (MsgLowReset v)) evs) /\
    (diffusers_offload_max_gpu_memory (opts w') <> diffusers_offload_max_gpu_memory (opts w) ->
     In (EvLog LvlWarning (MsgHighInvalid 0.7)) evs) /\
    offload_hook_instance w' = offload_hook_instance w /\
    heap w' = heap w /\
    diffusers_offload_mode (opts w') = diffusers_offload_mode (opts w) /\
    Forall bookkeeping evs /\
    (is_nan (diffusers_offload_min_gpu_memory (opts w)) = false ->
     is_nan (diffusers_offload_max_gpu_memory (opts w)) = false ->
     is_nan (diffusers_offload_min_gpu_memory (opts w')) = false) /\
    (is_nan (diffusers_offload_max_gpu_memory (opts w)) = false ->
     is_nan (diffusers_offload_max_gpu_memory (opts w')) = false) /\
    diffusers_offload_max_cpu_memory (opts w') = diffusers_offload_max_cpu_memory (opts w) /\
    ((diffusers_offload_min_gpu_memory (opts w) <? 0) = false ->
     (1 <? diffusers_offload_min_gpu_memory (opts w)) = false ->
     (diffusers_offload_max_gpu_memory (opts w) <? 0.1) = false ->
     (1 <? diffusers_offload_max_gpu_memory (opts w)) = false ->
     (diffusers_offload_max_gpu_memory (opts w)
      <? diffusers_offload_min_gpu_memory (opts w)) = false ->
     opts w' = opts w /\
     (evs = [] \/
      evs = [EvLog LvlWarning (MsgLowMemory (diffusers_offload_max_gpu_memory (opts w)))])).
Proof.
  intros Hmode. destruct w as [o hs inst hp evs0]. destruct o as [mode lo hi hc path te].
  simpl in Hmode. subst mode.
  unfold validate, bind, when, get_opts, set_opts, log, emit, ret; simpl.
  destruct (lo <? 0) eqn:E1; [|destruct (1 <? lo) eqn:E1']; simpl;
    (destruct (hi <? 0.1) eqn:E2; [|destruct (1 <? hi) eqn:E2']); simpl;
    repeat match goal with
           | |- context [if ?a <? ?b then _ else _] => destruct (a <? b) eqn:?; simpl
           end;
    (eexists; eexists; split; [reflexivity|]; simpl;
     split; [rewrite <- ?app_assoc; simpl; try reflexivity;
             try (rewrite app_nil_r; reflexivity)|]).
  all: repeat match goal with
         | |- _ /\ _ => split
         end.
  all: try reflexivity; try assumption; try apply ltb_irrefl;
    try (apply not_ltb_tenth_zero; assumption);
    try solve [repeat constructor].
  all: try (intros Hne; try (exfalso; apply Hne; reflexivity);
            first [ solve [eexists; left; simpl; eauto 10]
                  | solve [eexists; right; simpl; eauto 10]
                  | solve [simpl; eauto 10] ]).
  all: try (intros; assumption).
  all: try (intros; reflexivity).
  all: try (intros; congruence).
  all: try (intros; split; [reflexivity| auto]).
Qed.

(** C4 (as amended). In balanced mode the constructor first resets a
    high or a host watermark above 1 to 0.75, without a log line, and
    converts the two budgets [memory * watermark * 1024*1024*1024] to
    integers. When one of them is infinite or [nan] the conversion
    raises, before the manager exists and before any validation. When
    both convert, the constructor returns the new manager and has
    corrected the options in place: none of the tests of [validate]
    holds any longer, so for a low watermark that is a number
    [0 <= low <= high] and [0.1 <= high <= 1], a low watermark of 0
    included. A low watermark that changed was corrected with a
    warning; a high watermark that changed was above 1 or was
    corrected with a warning. With a high watermark above 1 and nothing
    else to correct, nothing is logged but the [op=init] line and
    possibly the low-memory warning. *)
Theorem OffloadHook_init_clamps (env : Env) (checkpoint : string) (w : World) :
  diffusers_offload_mode (opts w) = "balanced" ->
  let low := diffusers_offload_min_gpu_memory (opts w) in
  let high := if 1 <? diffusers_offload_max_gpu_memory (opts w) then 0.75
              else diffusers_offload_max_gpu_memory (opts w) in
  let host := if 1 <? diffusers_offload_max_cpu_memory (opts w) then 0.75
              else diffusers_offload_max_cpu_memory (opts w) in
  let reset := mkWorld (with_max_cpu host (with_max_gpu high (opts w))) (hooks w)
                 (offload_hook_instance w) (heap w) (events w) in
  let gpu_budget := int_of (gpu_memory env * high * 1024 * 1024 * 1024) in
  let cpu_budget := int_of (cpu_memory env * host * 1024 * 1024 * 1024) in
  (forall e, gpu_budget = Raise e ->
     OffloadHook_init env checkpoint w = (Raise e, reset)) /\
  (forall g e, gpu_budget = Ok g -> cpu_budget = Raise e ->
     OffloadHook_init env checkpoint w = (Raise e, reset)) /\
  (forall g c, gpu_budget = Ok g -> cpu_budget = Ok c ->
     exists w' evs,
       OffloadHook_init env checkpoint w = (Ok (length (hooks w)), w') /\
       events w' = (events w ++ EvLog LvlInfo (MsgInit low high) :: evs)%list /\
       hooks w' = (hooks w ++ [mkOffloadHook checkpoint low high host g c [] [] None])%list /\
       (diffusers_offload_min_gpu_memory (opts w') <? 0) = false /\
       (1 <? diffusers_offload_min_gpu_memory (opts w')) = false /\
       (diffusers_offload_max_gpu_memory (opts w') <? 0.1) = false /\
       (1 <? diffusers_offload_max_gpu_memory (opts w')) = false /\
       (diffusers_offload_max_gpu_memory (opts w')
        <? diffusers_offload_min_gpu_memory (opts w')) = false /\
       (is_nan low = false ->
        (0 <=? diffusers_offload_min_gpu_memory (opts w')) = true /\
        (diffusers_offload_min_gpu_memory (opts w')
         <=? diffusers_offload_max_gpu_memory (opts w')) = true /\
        (0.1 <=? diffusers_offload_max_gpu_memory (opts w')) = true /\
        (diffusers_offload_max_gpu_memory (opts w') <=? 1) = true) /\
       (diffusers_offload_min_gpu_memory (opts w') <> low ->
        exists v, In (EvLog LvlWarning (MsgLowInvalid v)) evs
                  \/ In (EvLog LvlWarning (MsgLowReset v)) evs) /\
       (diffusers_offload_max_gpu_memory (opts w')
        <> diffusers_offload_max_gpu_memory (opts w) ->
        (1 <? diffusers_offload_max_gpu_memory (opts w)) = true
        \/ In (EvLog LvlWarning (MsgHighInvalid 0.7)) evs) /\
       diffusers_offload_max_cpu_memory (opts w') = host /\
       ((low <? 0) = false -> (1 <? low) = false ->
        (high <? 0.1) = false -> (high <? low) = false ->
        diffusers_offload_min_gpu_memory (opts w') = low /\
        diffusers_offload_max_gpu_memory (opts w') = high /\
        (evs = [] \/ evs = [EvLog LvlWarning (MsgLowMemory high)]))).
Proof.
  intros Hmode. destruct w as [o hs inst hp evs0]. destruct o as [mode lo hi hc path te].
  simpl in Hmode. subst mode. simpl.
  assert (Hone : forall x, (1 <? (if 1 <? x then 0.75 else x)) = false).
  { intros x. destruct (1 <? x) eqn:E; [reflexivity | exact E]. }
  unfold OffloadHook_init, bind, when, get_opts, set_opts, alloc_hook, log, emit, ret; simpl.
  split; [|split].
  - intros e He.
    destruct (1 <? hi) eqn:Ehi; destruct (1 <? hc) eqn:Ehc; simpl;
      rewrite ?Ehi, ?Ehc; simpl; rewrite He; reflexivity.
  - intros g e Hg He.
    destruct (1 <? hi) eqn:Ehi; destruct (1 <? hc) eqn:Ehc; simpl;
      rewrite ?Ehi, ?Ehc; simpl; rewrite Hg; simpl; rewrite He; reflexivity.
  - intros g c Hg Hc.
    pose proof (budget_number _ _ _ Hg) as Hnum.
    pose proof (Hone hi) as Hone'.
    destruct (1 <? hi) eqn:Ehi; destruct (1 <? hc) eqn:Ehc; simpl;
      rewrite ?Ehi, ?Ehc; simpl; rewrite Hg; simpl; rewrite Hc; simpl;
      match goal with
      | |- context [validate env ?W] =>
          destruct (validate_run env W eq_refl)
            as (w' & evs & Hrun & Hev & Hhooks & Hlo & Hlo1 & Hhi & Hhi1 & Hle
                & Hwlo & Hwhi & _ & _ & _ & _ & Hnlo & Hnhi & Hcpu & Hsame);
          rewrite Hrun; simpl in *
      end;
      exists w', evs;
      (split; [reflexivity|]);
      (split; [rewrite Hev, <- app_assoc; reflexivity|]);
      (split; [rewrite Hhooks; reflexivity|]);
      repeat (split; [assumption|]).
    all: split;
      [intros Hn; specialize (Hnlo Hn Hnum); specialize (Hnhi Hnum);
       repeat split; apply ltb_false_leb; auto|].
    all: split; [exact Hwlo|].
    all: split; [intros Hne; auto|].
    all: split; [exact Hcpu|].
    all: intros T1 T2 T3 T4;
      destruct (Hsame T1 T2 T3 Hone' T4) as [Ho Hevs]; rewrite Ho; simpl; auto.
Qed.

Lemma OffloadHook_init_clamps_witness :
  (* a low watermark of 1.5 and a high watermark of 2 *)
  (exists w' evs,
     OffloadHook_init sample_env "ckpt" (empty_world (sample_opts 1.5 2)) = (Ok 0%nat, w') /\
     events w' = ([] ++ EvLog LvlInfo (MsgInit 1.5 0.75) :: evs)%list /\
     hooks w' = ([] ++ [mkOffloadHook "ckpt" 1.5 0.75 0.5 19327352832 34359738368
                         [] [] None])%list /\
     (diffusers_offload_min_gpu_memory (opts w') <? 0) = false /\
     (1 <? diffusers_offload_min_gpu_memory (opts w')) = false /\
     (diffusers_offload_max_gpu_memory (opts w') <? 0.1) = false /\
     (1 <? diffusers_offload_max_gpu_memory (opts w')) = false /\
     (diffusers_offload_max_gpu_memory (opts w')
      <? diffusers_offload_min_gpu_memory (opts w')) = false /\
     (is_nan 1.5 = false ->
      (0 <=? diffusers_offload_min_gpu_memory (opts w')) = true /\
      (diffusers_offload_min_gpu_memory (opts w')
       <=? diffusers_offload_max_gpu_memory (opts w')) = true /\
      (0.1 <=? diffusers_offload_max_gpu_memory (opts w')) = true /\
      (diffusers_offload_max_gpu_memory (opts w') <=? 1) = true) /\
     (diffusers_offload_min_gpu_memory (opts w') <> 1.5 ->
      exists v, In (EvLog LvlWarning (MsgLowInvalid v)) evs
                \/ In (EvLog LvlWarning (MsgLowReset v)) evs) /\
     (diffusers_offload_max_gpu_memory (opts w') <> 2 ->
      (1 <? 2) = true \/ In (EvLog LvlWarning (MsgHighInvalid 0.7)) evs) /\
     diffusers_offload_max_cpu_memory (opts w') = 0.5 /\
     ((1.5 <? 0) = false -> (1 <? 1.5) = false ->
      (0.75 <? 0.1) = false -> (0.75 <? 1.5) = false ->
      diffusers_offload_min_gpu_memory (opts w') = 1.5 /\
      diffusers_offload_max_gpu_memory (opts w') = 0.75 /\
      (evs = [] \/ evs = [EvLog LvlWarning (MsgLowMemory 0.75)])))
  (* a high watermark whose budget overflows *)
  /\ OffloadHook_init sample_env "ckpt" (empty_world (sample_opts 0.2 (-1e300)))
     = (Raise (mkExn "OverflowError" "cannot convert float infinity to integer"),
        empty_world (sample_opts 0.2 (-1e300)))
  (* a host watermark that is not a number *)
  /\ OffloadHook_init sample_env "ckpt"
       (empty_world (mkOpts "balanced" 0.2 0.75 nan "offload" false))
     = (Raise (mkExn "ValueError" "cannot convert float NaN to integer"),
        empty_world (mkOpts "balanced" 0.2 0.75 nan "offload" false)).
Proof.
  split; [|split].
  - exact (proj2 (proj2 (OffloadHook_init_clamps sample_env "ckpt"
                           (empty_world (sample_opts 1.5 2)) eq_refl))
             19327352832%Z 34359738368%Z eq_refl eq_refl).
  - exact (proj1 (OffloadHook_init_clamps sample_env "ckpt"
                    (empty_world (sample_opts 0.2 (-1e300))) eq_refl)
             (mkExn "OverflowError" "cannot convert float infinity to integer") eq_refl).
  - exact (proj1 (proj2 (OffloadHook_init_clamps sample_env "ckpt"
                           (empty_world (mkOpts "balanced" 0.2 0.75 nan "offload" false))
                           eq_refl))
             19327352832%Z (mkExn "ValueError" "cannot convert float NaN to integer")
             eq_refl eq_refl).
Defined.

(** C4 as stated fails: a low watermark of 0 passes [validate]
    unchanged (the guard is [< 0]), so it does not end up in (0,1]. *)
Lemma OffloadHook_init_keeps_zero_low :
  let run := OffloadHook_init sample_env "ckpt" (empty_world (sample_opts 0 0.5)) in
  fst run = Ok 0%nat /\
  diffusers_offload_min_gpu_memory (opts (snd run)) = 0 /\
  ~ ((0 <? diffusers_offload_min_gpu_memory (opts (snd run))) = true
     /\ (diffusers_offload_min_gpu_memory (opts (snd run)) <=? 1) = true).
Proof.
  vm_compute. split; [reflexivity|]. split; [reflexivity|].
  intros [H _]. discriminate H.
Qed.

(** The claim's own example, a low watermark of 1.5: the option is
    corrected to 0.2 with a warning, and the manager keeps 1.5. *)
Example OffloadHook_init_low_above_one :
  let run := OffloadHook_init sample_env "ckpt" (empty_world (sample_opts 1.5 0.75)) in
  fst run = Ok 0%nat /\
  opts (snd run) = sample_opts 0.2 0.75 /\
  events (snd run) = [EvLog LvlInfo (MsgInit 1.5 0.75); EvLog LvlWarning (MsgLowInvalid 0.2)] /\
  option_map min_watermark (hooks (snd run) !! 0%nat) = Some 1.5.
Proof. vm_compute. auto. Qed.

(** A high and a host watermark above 1 become 0.75 and nothing says
    so: the only line logged is [op=init]. *)
Example OffloadHook_init_silent_reset :
  let run := OffloadHook_init sample_env "ckpt"
               (empty_world (mkOpts "balanced" 0.2 2 3 "offload" false)) in
  fst run = Ok 0%nat /\
  opts (snd run) = mkOpts "balanced" 0.2 0.75 0.75 "offload" false /\
  events (snd run) = [EvLog LvlInfo (MsgInit 0.2 0.75)].
Proof. vm_compute. auto. Qed.

(** A low watermark that is not a number passes every test of
    [validate] and stays. *)
Example OffloadHook_init_keeps_nan_low :
  let run := OffloadHook_init sample_env "ckpt" (empty_world (sample_opts nan 0.75)) in
  fst run = Ok 0%nat /\
  opts (snd run) = sample_opts nan 0.75 /\
  events (snd run) = [EvLog LvlInfo (MsgInit nan 0.75)] /\
  (0 <=? diffusers_offload_min_gpu_memory (opts (snd run))) = false.
Proof. vm_compute. auto. Qed.

(** A high watermark that is not a number stops the constructor at
    the first [int(..)]. *)
Example OffloadHook_init_raises_on_nan_high :
  OffloadHook_init sample_env "ckpt" (empty_world (sample_opts 0.2 nan))
  = (Raise (mkExn "ValueError" "cannot convert float NaN to integer"),
     empty_world (sample_opts 0.2 nan)).
Proof. vm_compute. reflexivity. Qed.

(** ** Device-map cache of the placement hook (C6) *)

Lemma MaxMemory_eqb_eq (a b : MaxMemory) : MaxMemory_eqb a b = true <-> a = b.
Proof.
  destruct a as [ai ag ac], b as [bi bg bc]. unfold MaxMemory_eqb; simpl.
  rewrite !andb_true_iff, !Z.eqb_eq. split.
  - intros [[-> ->] ->]. reflexivity.
  - intros H. injection H as -> -> ->. auto.
Qed.

Lemma device_map_cached_Some (m : Module) (mm : MaxMemory) (dm : DeviceMap) :
  device_map_cached m mm = Some dm
  <-> balanced_offload_device_map m = Some dm /\ balanced_offload_max_memory m = Some mm.
Proof.
  unfold device_map_cached.
  destruct (balanced_offload_device_map m) as [dm0|], (balanced_offload_max_memory m) as [mm0|];
    try (split; [discriminate | intros [? ?]; discriminate]).
  destruct (MaxMemory_eqb mm mm0) eqn:E.
  - apply MaxMemory_eqb_eq in E. subst mm0. split.
    + intros H. injection H as ->. auto.
    + intros [H _]. exact H.
  - split; [discriminate|]. intros [_ H]. injection H as H. subst mm0.
    assert (MaxMemory_eqb mm mm = true) by (apply MaxMemory_eqb_eq; reflexivity). congruence.
Qed.

Ltac unfold_py :=
  unfold bind, ret, raise, when, try_except, attempt, get_opts, get_world, log, emit,
    get_module, put_module, set_heap, get_hook, put_hook, set_hooks in *.

(** Symbolic execution of a run [H : m w = (r, w')]: case analysis on
    the innermost undetermined test, then computation. *)
Ltac exec_step H :=
  match type of H with
  | context [match ?x with _ => _ end] =>
      lazymatch x with
      | context [match _ with _ => _ end] => fail
      | _ => destruct x eqn:?
      end
  | context [if ?x then _ else _] =>
      lazymatch x with
      | context [match _ with _ => _ end] => fail
      | _ => destruct x eqn:?
      end
  end.

(** C6. In a placement decision ([pre_forward] on a module that is not
    on the execution device) the current bounds are the dict
    [{device_index: self.gpu, "cpu": self.cpu}]. When the module has a
    cached device map and the bounds stored with it carry the
    manager's current accelerator and host budgets, the builder is not
    called: the cached map is the one dispatched (the only outside
    call of the hook), and it stays stored with the same bounds. When
    no map is cached, or no bounds are stored, or one of the stored
    bounds differs, the builder is called once, with the current
    bounds; what it returns is the map dispatched, and when the hook
    returns, that map and the current bounds are what the module
    stores. *)
Theorem pre_forward_reuses_device_map (env : Env) (h i : nat) (w w' : World)
    (self : OffloadHook) (m : Module) (r : result unit) :
  hooks w !! h = Some self ->
  heap w !! i = Some m ->
  same_device env (m_device m) (device env) = false ->
  pre_forward env h i w = (r, w') ->
  let index := match dev_index (device env) with Some k => k | None => 0%Z end in
  let dir := match offload_dir m with
             | Some d => d
             | None => path_join [accelerate_offload_path (opts w); m_class m]
             end in
  (forall dm stored,
     balanced_offload_device_map m = Some dm ->
     balanced_offload_max_memory m = Some stored ->
     mm_index stored = index -> mm_gpu stored = gpu self -> mm_cpu stored = cpu self ->
     events w' = (events w ++ [EvDispatch i (rewritten env dm) dir])%list /\
     (r = Ok tt ->
      exists m', heap w' !! i = Some m' /\
                 balanced_offload_device_map m' = Some (rewritten env dm) /\
                 balanced_offload_max_memory m'
                 = Some (mkMaxMemory index (gpu self) (cpu self)))) /\
  (balanced_offload_device_map m = None
   \/ (forall stored, balanced_offload_max_memory m = Some stored ->
         mm_index stored <> index \/ mm_gpu stored <> gpu self \/ mm_cpu stored <> cpu self) ->
   exists rest,
     events w' = (events w ++ EvInfer i (mkMaxMemory index (gpu self) (cpu self)) :: rest)%list /\
     (forall j mm', ~ In (EvInfer j mm') rest) /\
     (r = Ok tt ->
      exists built m',
        infer_auto_device_map env (events w) m (mkMaxMemory index (gpu self) (cpu self))
        = Ok built /\
        rest = match built with
               | Some dm => [EvDispatch i (rewritten env dm) dir]
               | None => []
               end /\
        heap w' !! i = Some m' /\
        balanced_offload_device_map m' = option_map (rewritten env) built /\
        balanced_offload_max_memory m'
        = Some (mkMaxMemory index (gpu self) (cpu self)))).
Proof.
  intros Hh Hm Hsd Hrun index dir.
  pose proof (lookup_lt_Some _ _ _ Hm) as Hlen.
  unfold pre_forward in Hrun.
  unfold bind at 1 in Hrun. unfold get_hook at 1 in Hrun. rewrite Hh in Hrun.
  unfold bind at 1 in Hrun. unfold get_module at 1 in Hrun. rewrite Hm in Hrun.
  rewrite Hsd in Hrun.
  change (current_max_memory env self) with (mkMaxMemory index (gpu self) (cpu self)) in Hrun.
  set (mm := mkMaxMemory index (gpu self) (cpu self)) in *.
  split.
  - intros dm stored Hdm Hst Hi Hg Hc.
    assert (Hmm : balanced_offload_max_memory m = Some mm).
    { rewrite Hst. destruct stored as [si sg sc]. simpl in Hi, Hg, Hc. subst si sg sc.
      reflexivity. }
    assert (Hcached : device_map_cached m mm = Some dm)
      by (apply device_map_cached_Some; auto).
    rewrite Hcached in Hrun.
    unfold rewritten. subst dir.
    unfold dispatch, set_execution_device in Hrun. unfold_py.
    destruct w as [o hs inst hp evs0]; simpl in *.
    rewrite ?Hm in Hrun.
    repeat (exec_step Hrun; simpl in Hrun;
            rewrite ?list_lookup_insert_eq, ?length_insert in Hrun
              by (rewrite ?length_insert; assumption);
            rewrite ?Hm in Hrun).
    all: injection Hrun as <- <-; simpl.
    all: (split; [reflexivity|]).
    all: intros Hr; try discriminate Hr.
    all: eexists; split;
      [apply list_lookup_insert_eq; rewrite ?length_insert; assumption|].
    all: simpl; auto.
  - intros Hnot.
    assert (Hcached : device_map_cached m mm = None).
    { destruct (device_map_cached m mm) as [dm|] eqn:Hc; [|reflexivity].
      apply device_map_cached_Some in Hc as [Hdm Hmm].
      destruct Hnot as [Hnone | Hdiff]; [congruence|].
      destruct (Hdiff mm Hmm) as [H | [H | H]]; exfalso; apply H; reflexivity. }
    rewrite Hcached in Hrun.
    unfold rewritten. subst dir.
    unfold infer_device_map, dispatch, set_execution_device in Hrun. unfold_py.
    destruct w as [o hs inst hp evs0]; simpl in *.
    rewrite ?Hm in Hrun.
    repeat (exec_step Hrun; simpl in Hrun;
            rewrite ?list_lookup_insert_eq, ?length_insert in Hrun
              by (rewrite ?length_insert; assumption);
            rewrite ?Hm in Hrun).
    all: injection Hrun as <- <-; simpl.
    all: eexists; (split; [rewrite <- ?app_assoc; reflexivity|]).
    all: split; [intros j mm'; simpl; intros Hin;
                 repeat (destruct Hin as [Hin|Hin]; try discriminate Hin); exact Hin|].
    all: intros Hr; try discriminate Hr.
    all: simpl in *; eexists; eexists; split; [eassumption|]; split; [reflexivity|]; split;
      [apply list_lookup_insert_eq; rewrite ?length_insert; assumption|].
    all: simpl; auto.
Qed.

Lemma pre_forward_reuses_device_map_witness :
  (* bounds stored for the current budgets: the cached map is dispatched *)
  (let m := sample_module devices_cpu (Some [("", DInt 0)]) (Some sample_max_memory) None in
   let run := pre_forward sample_env 0 0 (sample_world m) in
   events (snd run) = ([] ++ [EvDispatch 0 [("", DInt 0)] "offload/UNet2DConditionModel"])%list /\
   (fst run = Ok tt ->
    exists m', heap (snd run) !! 0%nat = Some m' /\
               balanced_offload_device_map m' = Some [("", DInt 0)] /\
               balanced_offload_max_memory m' = Some sample_max_memory))
  (* bounds stored for another host budget: the builder is called *)
  /\ (let m := sample_module devices_cpu (Some [("", DStr "cpu")])
                 (Some (mkMaxMemory 0 19327352832 1)) None in
      let run := pre_forward sample_env 0 0 (sample_world m) in
      exists rest,
        events (snd run) = ([] ++ EvInfer 0 sample_max_memory :: rest)%list /\
        (forall j mm', ~ In (EvInfer j mm') rest) /\
        (fst run = Ok tt ->
         exists built m',
           Ok (Some [("", DInt 0)]) = Ok built /\
           rest = match built with
                  | Some dm => [EvDispatch 0 dm "offload/UNet2DConditionModel"]
                  | None => []
                  end /\
           heap (snd run) !! 0%nat = Some m' /\
           balanced_offload_device_map m' = option_map (fun dm => dm) built /\
           balanced_offload_max_memory m' = Some sample_max_memory)).
Proof.
  split.
  - intros m run.
    exact (proj1 (pre_forward_reuses_device_map sample_env 0 0 (sample_world m) (snd run)
                    sample_hook m (fst run) eq_refl eq_refl eq_refl eq_refl)
             [("", DInt 0)] sample_max_memory eq_refl eq_refl eq_refl eq_refl eq_refl).
  - intros m run.
    refine (proj2 (pre_forward_reuses_device_map sample_env 0 0 (sample_world m) (snd run)
                     sample_hook m (fst run) eq_refl eq_refl eq_refl eq_refl) _).
    right. intros stored Hst. injection Hst as <-. right. right. simpl. lia.
Defined.

Example pre_forward_sample_run :
  let m := sample_module devices_cpu (Some [("", DInt 0)]) (Some sample_max_memory) None in
  let run := pre_forward sample_env 0 0 (sample_world m) in
  fst run = Ok tt /\
  events (snd run) = [EvDispatch 0 [("", DInt 0)] "offload/UNet2DConditionModel"] /\
  option_map execution_device (hooks (snd run) !! 0%nat) = Some (Some cuda0).
Proof. vm_compute. auto. Qed.

Example pre_forward_sample_rebuild :
  let stale := mkMaxMemory 0 1 1 in
  let m := sample_module devices_cpu (Some [("", DStr "cpu")]) (Some stale) None in
  let run := pre_forward sample_env 0 0 (sample_world m) in
  fst run = Ok tt /\
  events (snd run) = [EvInfer 0 sample_max_memory;
                      EvDispatch 0 [("", DInt 0)] "offload/UNet2DConditionModel"] /\
  option_map balanced_offload_device_map (heap (snd run) !! 0%nat)
  = Some (Some [("", DInt 0)]) /\
  option_map balanced_offload_max_memory (heap (snd run) !! 0%nat)
  = Some (Some sample_max_memory).
Proof. vm_compute. auto. Qed.

(** ** Size computation that fails (C7) *)

(** C7 (the failing input). A submodule whose size computation fails
    should get a logged zero-size entry and the pass should go on. Here
    the pipeline has one module, [unet], whose [parameters()] raises.
    [get_pipe_modules] logs the error and stores size 0, and then stops
    at [param_map[module_name] = param_num]: no earlier turn of the
    loop has given [param_num] a value. The orchestrator ends with
    that exception and no hook is attached. *)
Example size_failure_aborts_apply :
  let broken := mkModule "UNet2DConditionModel" None cuda0 (Some "float16")
                  (Raise (mkExn "TypeError" "unsupported parameter type"))
                  None None None None None None in
  let w := mkWorld (sample_opts 0.2 0.75) [] None [broken] [] in
  let run := apply_balanced_offload sample_env (Some (sample_model [("unet", VModule 0)])) [] w in
  fst run = Raise (mkExn "UnboundLocalError"
                     "local variable 'param_num' referenced before assignment") /\
  option_map offload_map (hooks (snd run) !! 0%nat) = Some [("unet", 0)] /\
  In (EvLog LvlError (MsgCalcError "unet" (mkExn "TypeError" "unsupported parameter type")))
     (events (snd run)) /\
  option_map m_hf_hook (heap (snd run) !! 0%nat) = Some None.
Proof. vm_compute. repeat split; auto 10. Qed.

(** When an earlier turn of the same loop has computed a size, the
    failing module is given the parameter count of that earlier module
    and the pass goes on. *)
Example size_failure_after_success :
  let good := sample_module cuda0 None None None in
  let broken := mkModule "AutoencoderKL" None cuda0 (Some "float16")
                  (Raise (mkExn "TypeError" "unsupported parameter type"))
                  None None None None None None in
  let w := mkWorld (sample_opts 0.2 0.75) [sample_hook] (Some 0%nat)
             [good; broken] [] in
  let pipe := sample_pipe [("text_encoder", VModule 0); ("vae", VModule 1)] in
  let run := get_pipe_modules [] pipe w in
  fst run = Ok [("text_encoder", 2000 / 1024 / 1024 / 1024); ("vae", 0)] /\
  option_map param_map (hooks (snd run) !! 0%nat)
  = Some [("unet", 2); ("text_encoder", 1000 / 1024 / 1024 / 1024);
          ("vae", 1000 / 1024 / 1024 / 1024)].
Proof. vm_compute. auto. Qed.

(** ** Classification of failures by the handlers (C8) *)

(** The handler of [apply_balanced_offload_to_module] never raises:
    it names the module by [module_name]. *)
Lemma offload_except_by_name (env : Env) (name : string) (e : Exn) (w : World) :
  fst (offload_except env (ret name) e w) = Ok tt.
Proof.
  unfold offload_except, torch_gc. unfold_py.
  destruct (contains "out of memory" (exn_msg e)); simpl.
  - destruct (truthy_str (SD_MOVE_DEBUG env)); reflexivity.
  - destruct (contains "bitsandbytes" (exn_msg e)); simpl;
      destruct (truthy_str (SD_MOVE_DEBUG env)); reflexivity.
Qed.

(** What the handler of [apply_balanced_offload_to_module] does with
    each kind of message, [SD_MOVE_DEBUG] not being set. *)
Lemma offload_except_classifies (env : Env) (name : string) (e : Exn) (w : World) :
  truthy_str (SD_MOVE_DEBUG env) = false ->
  offload_except env (ret name) e w
  = (Ok tt,
     if contains "out of memory" (exn_msg e) then
       add_events [EvGc true true (Some "oom")] w
     else if contains "bitsandbytes" (exn_msg e) then w
     else add_events [EvLog LvlError (MsgApplyError name e)] w).
Proof.
  intros Henv. unfold offload_except, torch_gc. unfold_py. rewrite Henv.
  destruct w as [o hs inst hp evs0]. simpl.
  destruct (contains "out of memory" (exn_msg e)); simpl; [reflexivity|].
  destruct (contains "bitsandbytes" (exn_msg e)); reflexivity.
Qed.

(** C8 (the failing input). An unclassified failure should be logged
    with the module's name and execution should continue. The handler
    of [post_forward] names the module by
    [module.__name__]. A torch module has no such attribute: when the
    move to host fails with a message that is neither out-of-memory nor
    bitsandbytes, formatting the error line raises [AttributeError],
    nothing is logged and the exception leaves the hook. *)
Example post_forward_unclassified_escapes :
  let e := mkExn "RuntimeError" "invalid device ordinal" in
  let m := sample_module cuda0 None None (Some true) in
  let run := post_forward (failing_env e) 0 0 tt (sample_world m) in
  fst run = Raise (mkExn "AttributeError"
                     "'UNet2DConditionModel' object has no attribute '__name__'") /\
  events (snd run) = [EvGc true false None; EvTo 0 devices_cpu].
Proof. vm_compute. auto. Qed.

(** ** What the hooks let through (C1) *)

(** Same as [exec_step], on the goal. *)
Ltac exec_goal :=
  match goal with
  | |- context [match ?x with _ => _ end] =>
      lazymatch x with
      | context [match _ with _ => _ end] => fail
      | _ => destruct x eqn:?
      end
  | |- context [if ?x then _ else _] =>
      lazymatch x with
      | context [match _ with _ => _ end] => fail
      | _ => destruct x eqn:?
      end
  end.









(** ** The frame *)

Lemma same_config_refl (k : OffloadHook) : same_config k k.
Proof. repeat split. Qed.

Lemma same_config_trans (a b c : OffloadHook) :
  same_config a b -> same_config b c -> same_config a c.
Proof.
  unfold same_config. intros (?&?&?&?&?&?) (?&?&?&?&?&?). repeat split; congruence.
Qed.

Lemma frame_refl (w : World) : frame w w.
Proof.
  split; try reflexivity.
  - intros h k Hk. exists k. split; [assumption|]. split; [apply same_config_refl|].
    intros n v Hv. exact Hv.
  - exists []. symmetry. apply app_nil_r.
Qed.

Lemma frame_trans (a b c : World) : frame a b -> frame b c -> frame a c.
Proof.
  intros [Ho Hi Hl Hp Hk [e1 He1]] [Ho' Hi' Hl' Hp' Hk' [e2 He2]]. split; try congruence.
  - intros h k Hh. destruct (Hk h k Hh) as (k1 & Hk1 & Hc1 & He).
    destruct (Hk' h k1 Hk1) as (k2 & Hk2 & Hc2 & He').
    exists k2. split; [assumption|]. split; [eapply same_config_trans; eassumption|].
    intros n v Hv. apply He', He, Hv.
  - exists (e1 ++ e2)%list. rewrite He2, He1. symmetry. apply app_assoc.
Qed.

Lemma frame_add_events (evs : list Event) (w : World) : frame w (add_events evs w).
Proof.
  split; try reflexivity.
  - intros h k Hk. exists k. split; [assumption|]. split; [apply same_config_refl|].
    intros n v Hv. exact Hv.
  - exists evs. reflexivity.
Qed.

Lemma frame_heap (w : World) (i : nat) (m : Module) :
  frame w (mkWorld (opts w) (hooks w) (offload_hook_instance w) (<[i := m]> (heap w))
             (events w)).
Proof.
  split; simpl; try reflexivity.
  - apply length_insert.
  - intros h k Hk. exists k. split; [assumption|]. split; [apply same_config_refl|].
    intros n v Hv. exact Hv.
  - exists []. symmetry. apply app_nil_r.
Qed.

Lemma frame_hook (w : World) (h : nat) (k k' : OffloadHook) :
  hooks w !! h = Some k ->
  same_config k k' ->
  keeps_entries (offload_map k) (offload_map k') ->
  frame w (mkWorld (opts w) (<[h := k']> (hooks w)) (offload_hook_instance w) (heap w)
             (events w)).
Proof.
  intros Hk Hc He. split; simpl; try reflexivity.
  - apply length_insert.
  - intros h0 k0 Hk0. destruct (decide (h = h0)) as [->|Hne].
    + exists k'. rewrite list_lookup_insert_eq by (eapply lookup_lt_Some; eassumption).
      split; [reflexivity|]. assert (k0 = k) by congruence. subst k0. auto.
    + exists k0. rewrite list_lookup_insert_ne by assumption.
      split; [assumption|]. split; [apply same_config_refl|]. intros n v Hv. exact Hv.
  - exists []. symmetry. apply app_nil_r.
Qed.

Lemma framed_ret {A : Type} (a : A) : framed (ret a).
Proof. intros w r w' H. injection H as <- <-. apply frame_refl. Qed.

Lemma framed_raise {A : Type} (e : Exn) : framed (@raise A e).
Proof. intros w r w' H. injection H as <- <-. apply frame_refl. Qed.

Lemma framed_bind {A B : Type} (m : M A) (f : A -> M B) :
  framed m -> (forall a, framed (f a)) -> framed (bind m f).
Proof.
  intros Hm Hf w r w' H. unfold bind in H.
  destruct (m w) as [[a|e] w1] eqn:E.
  - eapply frame_trans; [eapply Hm; eassumption | eapply Hf; eassumption].
  - injection H as <- <-. eapply Hm; eassumption.
Qed.

Lemma framed_try_except {A : Type} (m : M A) (h : Exn -> M A) :
  framed m -> (forall e, framed (h e)) -> framed (try_except m h).
Proof.
  intros Hm Hh w r w' H. unfold try_except in H.
  destruct (m w) as [[a|e] w1] eqn:E.
  - injection H as <- <-. eapply Hm; eassumption.
  - eapply frame_trans; [eapply Hm; eassumption | eapply Hh; eassumption].
Qed.

Lemma framed_attempt {A : Type} (m : M A) : framed m -> framed (attempt m).
Proof.
  intros Hm w r w' H. unfold attempt in H.
  destruct (m w) as [r1 w1] eqn:E. injection H as <- <-. eapply Hm; eassumption.
Qed.

Lemma framed_when (b : bool) (m : M unit) : framed m -> framed (when b m).
Proof. intros Hm. destruct b; [exact Hm | apply framed_ret]. Qed.

Lemma framed_get_world : framed get_world.
Proof. intros w r w' H. injection H as <- <-. apply frame_refl. Qed.

Lemma framed_get_opts : framed get_opts.
Proof. intros w r w' H. injection H as <- <-. apply frame_refl. Qed.

Lemma framed_emit (e : Event) : framed (emit e).
Proof. intros w r w' H. injection H as <- <-. apply (frame_add_events [e]). Qed.

Lemma framed_log (l : Level) (msg : LogMsg) : framed (log l msg).
Proof. apply framed_emit. Qed.

Lemma framed_get_module (i : nat) : framed (get_module i).
Proof.
  intros w r w' H. unfold get_module in H.
  destruct (heap w !! i); injection H as <- <-; apply frame_refl.
Qed.

Lemma framed_put_module (i : nat) (m : Module) : framed (put_module i m).
Proof. intros w r w' H. injection H as <- <-. apply frame_heap. Qed.

Lemma framed_get_hook (h : nat) : framed (get_hook h).
Proof.
  intros w r w' H. unfold get_hook in H.
  destruct (hooks w !! h); injection H as <- <-; apply frame_refl.
Qed.

Lemma framed_get_instance : framed get_instance.
Proof.
  intros w r w' H. unfold get_instance in H.
  destruct (offload_hook_instance w); injection H as <- <-; apply frame_refl.
Qed.

(** [k = hooks[h]; hooks[h] = f k] for an [f] that keeps configuration
    and cache entries. *)
Lemma framed_update_hook (h : nat) (f : OffloadHook -> OffloadHook) :
  (forall k, same_config k (f k) /\ keeps_entries (offload_map k) (offload_map (f k))) ->
  framed (k <- get_hook h ;; put_hook h (f k)).
Proof.
  intros Hf w r w' H. unfold bind, get_hook, put_hook, set_hooks in H.
  destruct (hooks w !! h) as [k|] eqn:Hk; injection H as <- <-; [|apply frame_refl].
  destruct (Hf k). eapply frame_hook; eassumption.
Qed.

Create HintDb framed.

#[local] Hint Resolve framed_ret framed_raise framed_get_world framed_get_opts framed_emit
  framed_log framed_get_module framed_put_module framed_get_hook framed_get_instance
  : framed.

(** Goals [framed m] for straight-line code. *)
Ltac framed_auto :=
  repeat first
    [ solve [auto with framed]
    | apply framed_bind; [|intros ?]
    | apply framed_try_except; [|intros ?]
    | apply framed_attempt
    | apply framed_when
    | progress cbv zeta
    | match goal with
      | |- framed (match ?x with _ => _ end) => destruct x
      | |- framed (if ?x then _ else _) => destruct x
      end ].

Lemma framed_torch_gc (env : Env) (fast force : bool) (reason : option string) :
  framed (torch_gc env fast force reason).
Proof. unfold torch_gc. framed_auto. Qed.

Lemma framed_py_div (a b : float) : framed (py_div a b).
Proof. unfold py_div. framed_auto. Qed.

Lemma framed_module_to (env : Env) (i : nat) (d : Device) : framed (module_to env i d).
Proof. unfold module_to. framed_auto. Qed.

Lemma framed_remove_hook (i : nat) : framed (remove_hook_from_module i).
Proof. unfold remove_hook_from_module. framed_auto. Qed.

Lemma framed_add_hook (i h : nat) : framed (add_hook_to_module i h).
Proof. unfold add_hook_to_module. framed_auto. Qed.

Lemma framed_set_execution_device (env : Env) (i : nat) :
  framed (set_execution_device env i).
Proof.
  unfold set_execution_device. apply framed_bind; [auto with framed|]. intros m.
  destruct (m_hf_hook m); [|auto with framed].
  apply framed_update_hook. intros k. split; [repeat split|]. intros key v Hv. exact Hv.
Qed.

Lemma framed_module_dtype (i : nat) : framed (module_dtype i).
Proof. unfold module_dtype. framed_auto. Qed.

Lemma framed_module_dunder_name (i : nat) : framed (module_dunder_name i).
Proof. unfold module_dunder_name. framed_auto. Qed.

Lemma framed_dict_item (k : string) (d : list (string * float)) : framed (dict_item k d).
Proof. unfold dict_item. framed_auto. Qed.

#[local] Hint Resolve framed_torch_gc framed_py_div framed_module_to framed_remove_hook
  framed_add_hook framed_set_execution_device framed_module_dtype framed_module_dunder_name
  framed_dict_item : framed.

Lemma framed_offload_except (env : Env) (name : M string) (e : Exn) :
  framed name -> framed (offload_except env name e).
Proof. intros Hn. unfold offload_except. framed_auto. Qed.

Lemma framed_pre_forward (env : Env) (h i : nat) : framed (pre_forward env h i).
Proof. unfold pre_forward, infer_device_map, dispatch. framed_auto. Qed.

Lemma framed_post_forward (env : Env) (A : Type) (h i : nat) (output : A) :
  framed (post_forward env h i output).
Proof.
  unfold post_forward. framed_auto.
  all: apply framed_offload_except; auto with framed.
Qed.

Lemma framed_offload_try (env : Env) (cached : bool) (name : string) (i : nat)
    (module : Module) (size used perc : float) :
  framed (offload_try env cached name i module size used perc).
Proof.
  unfold offload_try, offload_log_lines. framed_auto.
  all: apply framed_offload_except; auto with framed.
Qed.

Lemma framed_offload_attach (env : Env) (checkpoint name : string) (i : nat)
    (ln : option string) (dm : option DeviceMap) (mm : option MaxMemory) :
  framed (offload_attach env checkpoint name i ln dm mm).
Proof. unfold offload_attach. framed_auto. Qed.

Lemma framed_offload_module (env : Env) (cached : bool) (checkpoint : string) (pipe : Pipe)
    (name : string) (size used : float) :
  framed (offload_module env cached checkpoint pipe name size used).
Proof.
  pose proof (framed_offload_try env) as Htry.
  pose proof (framed_offload_attach env) as Hattach.
  unfold offload_module.
  repeat first
    [ apply Htry | apply Hattach | solve [auto with framed]
    | apply framed_bind; [|intros ?]
    | progress cbv zeta
    | match goal with
      | |- framed (match ?x with _ => _ end) => destruct x
      end ].
Qed.

Lemma framed_offload_modules (env : Env) (cached : bool) (checkpoint : string) (pipe : Pipe)
    (items : list (string * float)) :
  forall used, framed (offload_modules env cached checkpoint pipe items used).
Proof.
  induction items as [|[name size] rest IH]; intros used; simpl.
  - apply framed_ret.
  - apply framed_bind; [apply framed_offload_module|]. intros u. apply IH.
Qed.

Lemma dict_get_set_other {V : Type} (n k : string) (v : V) (d : list (string * V)) :
  n <> k -> dict_get n (dict_set k v d) = dict_get n d.
Proof.
  intros Hne. induction d as [|[k' v'] d IH]; simpl.
  - destruct (String.eqb_spec n k); [contradiction | reflexivity].
  - destruct (String.eqb_spec k k') as [->|Hk]; simpl.
    + destruct (String.eqb_spec n k'); [contradiction | reflexivity].
    + destruct (n =? k')%string; [reflexivity | exact IH].
Qed.

Lemma dict_get_set_same {V : Type} (k : string) (v : V) (d : list (string * V)) :
  dict_get k (dict_set k v d) = Some v.
Proof.
  induction d as [|[k' v'] d IH]; simpl.
  - rewrite String.eqb_refl. reflexivity.
  - destruct (String.eqb_spec k k') as [->|Hk]; simpl.
    + rewrite String.eqb_refl. reflexivity.
    + destruct (String.eqb_spec k k'); [contradiction | exact IH].
Qed.

Lemma keeps_entries_set (k : string) (v : float) (d : list (string * float)) :
  dict_get k d = None -> keeps_entries d (dict_set k v d).
Proof.
  intros Hk n u Hn. destruct (String.eqb_spec n k) as [->|Hne]; [congruence|].
  rewrite dict_get_set_other by assumption. exact Hn.
Qed.

(** Symbolic execution of a run, looking up the store first. *)
Ltac run_in H :=
  repeat first
    [ progress (rewrite ?list_lookup_insert_eq in H
                  by (rewrite ?length_insert; eauto using lookup_lt_Some))
    | match type of H with
      | context [?l !! ?i] =>
          match goal with
          | E : l !! i = _ |- _ => rewrite E in H
          end
      end
    | progress simpl in H
    | exec_step H ].

(** A frame between two worlds written out, where the manager at [h]
    may have got new cache entries. *)
Ltac solve_frame :=
  split; simpl;
  [ reflexivity
  | reflexivity
  | rewrite ?length_insert; reflexivity
  | rewrite ?length_insert; reflexivity
  | let h0 := fresh "h0" in
    let k0 := fresh "k0" in
    let Hk0 := fresh "Hk0" in
    intros h0 k0 Hk0;
    try match goal with
        | |- context [<[?h := _]> _ !! h0] =>
            destruct (decide (h = h0)) as [<-|?];
            [ rewrite ?list_lookup_insert_eq
                by (rewrite ?length_insert; eauto using lookup_lt_Some);
              eexists; split; [reflexivity|];
              match goal with
              | E : ?l !! h = Some ?k |- _ =>
                  assert (k0 = k) by congruence; subst k0
              end;
              split; [repeat split|];
              simpl; first [ apply keeps_entries_set; assumption
                           | intros ? ? Hv; exact Hv ]
            | rewrite ?list_lookup_insert_ne by assumption ]
        end;
    try (exists k0; split; [assumption|]; split; [repeat split|]; intros ? ? Hv; exact Hv)
  | eexists; rewrite <- ?app_assoc; first [reflexivity | symmetry; apply app_nil_r] ].

Lemma framed_get_pipe_modules_loop (pipe : Pipe) (names : list string) :
  forall modules param_num, framed (get_pipe_modules_loop pipe names modules param_num).
Proof.
  induction names as [|name rest IH]; intros modules pn w r w' H; simpl in H.
  - injection H as <- <-. apply frame_refl.
  - unfold get_instance in H. unfold_py. destruct w as [o hs inst hp evs]. simpl in H.
    run_in H.
    all: try (injection H as <- <-).
    all: try (apply IH in H; eapply frame_trans; [|exact H]).
    all: solve_frame.
Qed.

Lemma framed_get_pipe_modules (exclude : list string) (pipe : Pipe) :
  framed (get_pipe_modules exclude pipe).
Proof.
  unfold get_pipe_modules. apply framed_bind; [apply framed_get_pipe_modules_loop|].
  intros. apply framed_ret.
Qed.

Lemma framed_apply_to_module (env : Env) (cached : bool) (checkpoint : string)
    (exclude : list string) (pipe : Pipe) :
  framed (apply_balanced_offload_to_module env cached checkpoint exclude pipe).
Proof.
  unfold apply_balanced_offload_to_module.
  apply framed_bind; [auto with framed|]. intros r.
  apply framed_bind; [apply framed_get_pipe_modules|]. intros items.
  apply framed_bind; [apply framed_offload_modules|]. intros _.
  apply framed_bind; [auto with framed|]. intros _. apply framed_ret.
Qed.

Lemma framed_apply_to_nested (env : Env) (cached : bool) (checkpoint : string)
    (exclude : list string) (pipe : option Pipe) :
  framed (apply_to_nested env cached checkpoint exclude pipe).
Proof.
  destruct pipe; simpl; [apply framed_apply_to_module | apply framed_ret].
Qed.

Lemma framed_apply_to_pipelines (env : Env) (cached : bool) (checkpoint : string)
    (exclude : list string) (sd : SdModel) :
  framed (apply_to_pipelines env cached checkpoint exclude sd).
Proof.
  unfold apply_to_pipelines.
  repeat (apply framed_bind; [first [apply framed_apply_to_module
                                    | apply framed_apply_to_nested]|]; intros _).
  apply framed_apply_to_nested.
Qed.

(** ** One turn of the orchestrator's loop, step by step *)

Lemma bookkeeping_no_size (evs : list Event) :
  Forall bookkeeping evs -> forall n, ~ In (EvSize n) evs.
Proof.
  intros H n Hin. rewrite Forall_forall in H. apply list_elem_of_In in Hin.
  exact (H _ Hin).
Qed.

Lemma bookkeeping_no_add_hook (evs : list Event) :
  Forall bookkeeping evs -> forall i h, ~ In (EvAddHook i h) evs.
Proof.
  intros H i h Hin. rewrite Forall_forall in H. apply list_elem_of_In in Hin.
  exact (H _ Hin).
Qed.

(** Closes [exists evs, (r, W') = (r, add_events evs W) /\ Forall bookkeeping evs]
    for worlds written out. *)
Ltac solve_events :=
  first
    [ exists []; split;
      [ unfold add_events; simpl; rewrite ?app_nil_r; reflexivity | constructor ]
    | eexists; split;
      [ unfold add_events; simpl; rewrite <- ?app_assoc; simpl; reflexivity
      | repeat constructor ] ].

Lemma offload_except_run (env : Env) (name : string) (e : Exn) (w : World) :
  exists evs,
    offload_except env (ret name) e w = (Ok tt, add_events evs w)
    /\ Forall bookkeeping evs.
Proof.
  unfold offload_except, torch_gc. unfold_py. destruct w as [o hs inst hp evs0]. simpl.
  repeat (exec_goal; simpl). 
  all: solve_events.
Qed.

Lemma offload_log_lines_run (env : Env) (cached : bool) (name : string) (i : nat)
    (cls : string) (now : bool) (prev used perc size : float) (w : World) :
  exists r evs,
    offload_log_lines env cached name i cls now prev used perc size w = (r, add_events evs w)
    /\ Forall bookkeeping evs.
Proof.
  unfold offload_log_lines, module_dtype, get_instance, dict_item. unfold_py.
  destruct w as [o hs inst hp evs0]. simpl.
  repeat (exec_goal; simpl).
  all: eexists; solve_events.
Qed.

#[local] Arguments offload_log_lines : simpl never.
#[local] Arguments offload_except : simpl never.
#[local] Arguments offload_try : simpl never.
#[local] Arguments offload_attach : simpl never.

Lemma offload_try_run (env : Env) (cached : bool) (name : string) (i : nat)
    (module : Module) (size used perc : float) (w : World) :
  let now := (diffusers_offload_min_gpu_memory (opts w) <? perc)
             && negb (Device_eqb (m_device module) devices_cpu) in
  exists u' hp' evs,
    offload_try env cached name i module size used perc w
    = (Ok u', mkWorld (opts w) (hooks w) (offload_hook_instance w) hp' (events w ++ evs))
    /\ Forall bookkeeping evs
    /\ (now = false -> u' = used /\ hp' = heap w)
    /\ (forall m0, now = true -> heap w !! i = Some m0 ->
        match to_raises env (events w) m0 devices_cpu with
        | None => u' = used - size /\ hp' = <[i := with_device devices_cpu m0]> (heap w)
        | Some _ => u' = used /\ hp' = heap w
        end)
    /\ (now = true -> heap w !! i = None -> u' = used /\ hp' = heap w).
Proof.
  intros now. unfold offload_try, module_to. unfold_py. fold (@ret string name).
  destruct w as [o hs inst hp evs0]. simpl in *. fold now.
  assert (Hlog : forall u W,
             exists evs,
               (let (r, w') := offload_log_lines env cached name i (m_class module) now
                                 used u perc size W in
                match r with
                | Ok a => (Ok a, w')
                | Raise e => offload_except env (ret name) e w'
                end) = (Ok tt, add_events evs W) /\ Forall bookkeeping evs).
  { intros u W.
    destruct (offload_log_lines_run env cached name i (m_class module) now used u perc size W)
      as ([[]|e] & evs & Heq & Hb); rewrite Heq.
    - exists evs. auto.
    - destruct (offload_except_run env name e (add_events evs W)) as (evs' & Heq' & Hb').
      rewrite Heq'. exists (evs ++ evs')%list. split.
      + unfold add_events. simpl. rewrite <- List.app_assoc. reflexivity.
      + apply Forall_app. auto. }
  destruct now; simpl.
  - destruct (hp !! i) as [m0|] eqn:Hm; simpl.
    + destruct (to_raises env evs0 m0 devices_cpu) as [e|] eqn:Hto; simpl.
      * destruct (offload_except_run env name e
                    (mkWorld o hs inst hp (evs0 ++ [EvTo i devices_cpu])))
          as (evs & Heq & Hb).
        rewrite Heq. unfold add_events. simpl. exists used, hp, (EvTo i devices_cpu :: evs).
        split; [rewrite <- List.app_assoc; reflexivity|].
        split; [constructor; [exact I | exact Hb]|].
        split; [discriminate|]. split; [|discriminate].
        intros m1 _ Hm1. injection Hm1 as <-. rewrite Hto. auto.
      * destruct (Hlog (used - size)
                    (mkWorld o hs inst (<[i := with_device devices_cpu m0]> hp)
                       (evs0 ++ [EvTo i devices_cpu])))
          as (evs & Heq & Hb).
        rewrite Heq. unfold add_events. simpl.
        exists (used - size), (<[i := with_device devices_cpu m0]> hp),
          (EvTo i devices_cpu :: evs).
        split; [rewrite <- List.app_assoc; reflexivity|].
        split; [constructor; [exact I | exact Hb]|].
        split; [discriminate|]. split; [|discriminate].
        intros m1 _ Hm1. injection Hm1 as <-. rewrite Hto. auto.
    + destruct (offload_except_run env name dangling (mkWorld o hs inst hp evs0))
        as (evs & Heq & Hb).
      rewrite Heq. unfold add_events. simpl. exists used, hp, evs.
      split; [reflexivity|]. split; [exact Hb|].
      split; [discriminate|]. split; [discriminate|]. auto.
  - destruct (Hlog used (mkWorld o hs inst hp evs0)) as (evs & Heq & Hb).
    rewrite Heq. unfold add_events. simpl. exists used, hp, evs.
    split; [reflexivity|]. split; [exact Hb|].
    split; [auto|]. split; discriminate.
Qed.

(** Symbolic execution of the goal, looking up the store first. *)
Ltac run_goal :=
  repeat first
    [ progress (rewrite ?list_lookup_insert_eq
                  by (rewrite ?length_insert; eauto using lookup_lt_Some))
    | match goal with
      | H : ?l !! ?i = Some _ |- context [?l !! ?i] => rewrite H
      end
    | progress simpl
    | exec_goal ].

Lemma offload_attach_run (env : Env) (checkpoint name : string) (i : nat)
    (ln : option string) (dm : option DeviceMap) (mm : option MaxMemory)
    (w : World) (m : Module) (h : nat) (k : OffloadHook) :
  heap w !! i = Some m ->
  offload_hook_instance w = Some h ->
  hooks w !! h = Some k ->
  exists m',
    offload_attach env checkpoint name i ln dm mm w
    = (Ok tt, mkWorld (opts w)
                (<[h := with_execution_device (Some (device env)) k]> (hooks w))
                (Some h) (<[i := m']> (heap w)) (events w ++ [EvAddHook i h]))
    /\ m_hf_hook m' = Some h
    /\ m_device m' = m_device m.
Proof.
  intros Hm Hi Hk. unfold offload_attach, add_hook_to_module, set_execution_device,
    get_instance. unfold_py.
  destruct w as [o hs inst hp evs0]. simpl in *. subst inst.
  run_goal.
  all: rewrite ?list_insert_insert_eq.
  all: eexists; split; [reflexivity|]; split; reflexivity.
Qed.

(** A turn of the loop on a module that is in the store, with a current
    manager and a capacity that is not zero, finishes; what it leaves. *)
Lemma offload_module_run (env : Env) (cached : bool) (checkpoint : string) (pipe : Pipe)
    (name : string) (i : nat) (size used : float) (w : World) (m : Module) (h : nat)
    (k : OffloadHook) :
  getattr pipe name = VModule i ->
  heap w !! i = Some m ->
  offload_hook_instance w = Some h ->
  hooks w !! h = Some k ->
  (gpu_memory env =? 0) = false ->
  let now := (diffusers_offload_min_gpu_memory (opts w) <? used / gpu_memory env)
             && negb (Device_eqb (m_device m) devices_cpu) in
  exists u' m' evs,
    offload_module env cached checkpoint pipe name size used w
    = (Ok u', mkWorld (opts w)
                (<[h := with_execution_device (Some (device env)) k]> (hooks w))
                (Some h) (<[i := m']> (heap w)) (events w ++ evs))
    /\ m_hf_hook m' = Some h
    /\ In (EvAddHook i h) evs
    /\ (forall n, ~ In (EvSize n) evs)
    /\ (now = false -> u' = used /\ m_device m' = m_device m)
    /\ (now = true ->
        match to_raises env (events w ++ [EvRemoveHook i]) (with_hf_hook None m)
                devices_cpu with
        | None => u' = used - size /\ m_device m' = devices_cpu
        | Some _ => u' = used /\ m_device m' = m_device m
        end).
Proof.
  intros Hattr Hm Hi Hk Hgpu now.
  pose proof Hgpu as Hz.
  pose proof (lookup_lt_Some _ _ _ Hm) as Hlen.
  unfold offload_module. rewrite Hattr. unfold remove_hook_from_module, py_div. unfold_py.
  destruct w as [o hs inst hp evs0]. simpl in *. subst inst. rewrite Hm. simpl.
  rewrite Hz. simpl. rewrite ?Hm. simpl.
  set (W1 := mkWorld o hs (Some h) (<[i := with_hf_hook None m]> hp)
               (evs0 ++ [EvRemoveHook i])).
  assert (Hm1 : heap W1 !! i = Some (with_hf_hook None m))
    by (apply list_lookup_insert_eq; exact Hlen).
  destruct (offload_try_run env cached name i m size used (used / gpu_memory env) W1)
    as (u' & hp' & evs & Heq & Hb & Hfalse & Htrue & _).
  rewrite Heq. simpl in *. fold now in Hfalse, Htrue.
  assert (Hcases : exists m2, hp' !! i = Some m2 /\ <[i := m2]> hp = hp'
                              /\ m_device m2 = (if now then
                                   match to_raises env (evs0 ++ [EvRemoveHook i])
                                           (with_hf_hook None m) devices_cpu with
                                   | None => devices_cpu
                                   | Some _ => m_device m
                                   end else m_device m)
                              /\ u' = (if now then
                                   match to_raises env (evs0 ++ [EvRemoveHook i])
                                           (with_hf_hook None m) devices_cpu with
                                   | None => used - size
                                   | Some _ => used
                                   end else used)).
  { destruct now.
    - specialize (Htrue _ eq_refl Hm1).
      destruct (to_raises env (evs0 ++ [EvRemoveHook i]) (with_hf_hook None m) devices_cpu).
      + destruct Htrue as [-> ->]. exists (with_hf_hook None m). auto.
      + destruct Htrue as [-> ->]. eexists. split.
        * apply list_lookup_insert_eq. rewrite length_insert. exact Hlen.
        * rewrite list_insert_insert_eq. auto.
    - destruct (Hfalse eq_refl) as [-> ->]. exists (with_hf_hook None m). auto. }
  destruct Hcases as (m2 & Hm2 & Hhp' & Hdev & Hu).
  destruct (offload_attach_run env checkpoint name i (network_layer_name m)
              (balanced_offload_device_map m) (balanced_offload_max_memory m)
              (mkWorld o hs (Some h) hp' ((evs0 ++ [EvRemoveHook i]) ++ evs)) m2 h k
              Hm2 eq_refl Hk) as (m' & Hrun & Hhook & Hdev').
  rewrite Hrun. simpl.
  exists u', m', (EvRemoveHook i :: evs ++ [EvAddHook i h])%list.
  split.
  { rewrite <- Hhp', list_insert_insert_eq, <- !List.app_assoc. reflexivity. }
  split; [exact Hhook|].
  split; [right; apply in_or_app; right; left; reflexivity|].
  split.
  { intros n [Hn|Hn]; [discriminate|]. apply in_app_or in Hn as [Hn|[Hn|[]]].
    - eapply bookkeeping_no_size; eassumption.
    - discriminate. }
  rewrite Hdev', Hdev, Hu. split.
  - intros Hnow. rewrite Hnow. auto.
  - intros Hnow. rewrite Hnow.
    destruct (to_raises env (evs0 ++ [EvRemoveHook i]) (with_hf_hook None m) devices_cpu);
      auto.
Qed.

(** ** Eviction: what the hook does *)

Lemma Device_eqb_eq (a b : Device) : Device_eqb a b = true <-> a = b.
Proof.
  destruct a as [ta [ia|]], b as [tb [ib|]]; unfold Device_eqb; simpl;
    rewrite andb_true_iff, String.eqb_eq; try rewrite Z.eqb_eq.
  all: split; [intros [-> H]; try subst; try discriminate; reflexivity
              | intros H; injection H; intros; subst; auto; discriminate].
Qed.

Lemma post_forward_skip (env : Env) (A : Type) (h i : nat) (output : A) (w : World)
    (self : OffloadHook) (m : Module) :
  hooks w !! h = Some self ->
  heap w !! i = Some m ->
  offload_post m <> Some true \/ m_device m = devices_cpu ->
  post_forward env h i output w = (Ok output, w).
Proof.
  intros Hh Hm Hskip. unfold post_forward. unfold_py. rewrite Hh, Hm.
  destruct (match offload_post m with Some b => b | None => false end
            && negb (Device_eqb (m_device m) devices_cpu)) eqn:E; [|reflexivity].
  apply andb_true_iff in E as [Hflag Hdev]. destruct Hskip as [Hskip|Hskip].
  - destruct (offload_post m) as [[|]|]; try discriminate. congruence.
  - apply negb_true_iff in Hdev. apply Device_eqb_eq in Hskip. congruence.
Qed.


(** With the debug line on, the estimate the eviction hook prints after
    the move is the measured usage less [model_size()], the sum over
    the whole size cache (here 5 + 3), not the size of the module it
    moved. *)
Example post_forward_subtracts_model_size :
  let m := sample_module cuda0 None None (Some true) in
  let k := mkOffloadHook "ckpt" 0.2 0.75 0.5 1 1
             [("unet", 5); ("vae", 3)] [] None in
  let w := mkWorld (sample_opts 0.2 0.75) [k] (Some 0%nat) [m] [] in
  events (snd (post_forward debug_env 0 0 tt w))
  = [EvGc true false None; EvTo 0 devices_cpu;
     EvLog LvlTrace (MsgMove "post" 12 4 0.5 "UNet2DConditionModel" 8)].
Proof. vm_compute. reflexivity. Qed.

(** ** Reuse of the manager (C10) *)

#[local] Hint Resolve framed_get_pipe_modules framed_apply_to_module framed_apply_to_nested
  framed_apply_to_pipelines : framed.

Lemma instance_stale_false (checkpoint : string) (w : World) (h : nat) (k : OffloadHook) :
  offload_hook_instance w = Some h ->
  hooks w !! h = Some k ->
  (min_watermark k =? diffusers_offload_min_gpu_memory (opts w)) = true ->
  (max_watermark k =? diffusers_offload_max_gpu_memory (opts w)) = true ->
  checkpoint = checkpoint_name k ->
  instance_stale checkpoint w = (Ok false, w).
Proof.
  intros Hi Hk Hmin Hmax ->. unfold instance_stale. unfold_py. rewrite Hi, Hk.
  rewrite Hmin, Hmax, String.eqb_refl. reflexivity.
Qed.

(** With a manager that matches, the orchestrator stays in the frame. *)
Lemma apply_cached_frame (env : Env) (sd_model : option SdModel) (exclude : list string)
    (w : World) (h : nat) (k : OffloadHook) :
  offload_hook_instance w = Some h ->
  hooks w !! h = Some k ->
  (min_watermark k =? diffusers_offload_min_gpu_memory (opts w)) = true ->
  (max_watermark k =? diffusers_offload_max_gpu_memory (opts w)) = true ->
  (forall sd, resolve_model env sd_model = Some sd -> checkpoint_of sd = checkpoint_name k) ->
  frame w (snd (apply_balanced_offload env sd_model exclude w)).
Proof.
  intros Hi Hk Hmin Hmax Hck. unfold apply_balanced_offload.
  unfold bind at 1. unfold get_opts at 1.
  destruct (negb (diffusers_offload_mode (opts w) =? "balanced")%string);
    [apply frame_refl|].
  destruct (resolve_model env sd_model) as [sd|] eqn:Hsd; [|apply frame_refl].
  destruct (str_in (p_class (sd_pipe sd)) balanced_offload_exclude); [apply frame_refl|].
  unfold bind at 1.
  rewrite (instance_stale_false _ w h k Hi Hk Hmin Hmax (Hck sd eq_refl)).
  cbv beta iota zeta delta [when negb].
  match goal with
  | |- frame w (snd (?body w)) =>
      assert (Hbody : framed body); [|destruct (body w) as [r w'] eqn:E; exact (Hbody _ _ _ E)]
  end.
  framed_auto.
Qed.

(** C10. When the current manager has the pipeline's checkpoint name
    and the low and high watermarks of the options, the orchestrator
    keeps it, whatever the host watermark option is now: the manager
    in [offload_hook_instance] is the same object, no manager is
    built, and its host budget and host watermark are the ones it was
    built with. *)
Theorem apply_keeps_manager_and_host_budget (env : Env) (sd_model : option SdModel)
    (exclude : list string) (w : World) (h : nat) (k : OffloadHook) :
  offload_hook_instance w = Some h ->
  hooks w !! h = Some k ->
  (min_watermark k =? diffusers_offload_min_gpu_memory (opts w)) = true ->
  (max_watermark k =? diffusers_offload_max_gpu_memory (opts w)) = true ->
  (forall sd, resolve_model env sd_model = Some sd -> checkpoint_of sd = checkpoint_name k) ->
  let w' := snd (apply_balanced_offload env sd_model exclude w) in
  offload_hook_instance w' = Some h /\
  length (hooks w') = length (hooks w) /\
  exists k', hooks w' !! h = Some k' /\ cpu k' = cpu k /\ cpu_watermark k' = cpu_watermark k.
Proof.
  intros Hi Hk Hmin Hmax Hck w'.
  destruct (apply_cached_frame env sd_model exclude w h k Hi Hk Hmin Hmax Hck)
    as [_ Hinst Hlen _ Hhooks _].
  fold w' in Hinst, Hlen, Hhooks.
  split; [congruence|]. split; [exact Hlen|].
  destruct (Hhooks h k Hk) as (k' & Hk' & (_ & _ & _ & Hcw & _ & Hcpu) & _).
  exists k'. auto.
Qed.

Lemma apply_keeps_manager_and_host_budget_witness :
  let o := mkOpts "balanced" 0.2 0.75 0.9 "offload" false in
  let w := mkWorld o [sample_hook] (Some 0%nat) [sample_module cuda0 None None None] [] in
  let w' := snd (apply_balanced_offload sample_env
                   (Some (sample_model [("unet", VModule 0)])) [] w) in
  offload_hook_instance w' = Some 0%nat /\
  length (hooks w') = 1%nat /\
  exists k', hooks w' !! 0%nat = Some k' /\ cpu k' = 34359738368%Z
             /\ cpu_watermark k' = 0.5.
Proof.
  intros o w w'.
  apply (apply_keeps_manager_and_host_budget sample_env
           (Some (sample_model [("unet", VModule 0)])) [] w 0 sample_hook);
    try reflexivity.
  intros sd H. injection H as <-. reflexivity.
Defined.

(** ** The declared execution device (C9) *)

(** A turn of the loop that finishes had a module in the store, a
    current manager and a capacity that is not zero. *)
Lemma offload_module_ok_inv (env : Env) (cached : bool) (checkpoint : string) (pipe : Pipe)
    (name : string) (i : nat) (size used u' : float) (w w' : World) :
  getattr pipe name = VModule i ->
  offload_module env cached checkpoint pipe name size used w = (Ok u', w') ->
  exists m h k,
    heap w !! i = Some m /\ offload_hook_instance w = Some h /\ hooks w !! h = Some k
    /\ (gpu_memory env =? 0) = false.
Proof.
  intros Hattr H. unfold offload_module in H. rewrite Hattr in H.
  unfold remove_hook_from_module, py_div in H. unfold_py.
  destruct w as [o hs inst hp evs0]. simpl in *.
  destruct (hp !! i) as [m|] eqn:Hm; simpl in H; [|discriminate H].
  rewrite ?Hm in H. simpl in H.
  destruct (gpu_memory env =? 0) eqn:Hz; simpl in H; [discriminate H|].
  match type of H with
  | context [offload_try env cached name i m size used ?p ?W] =>
      destruct (offload_try_run env cached name i m size used p W)
        as (u1 & hp' & evs & Heq & _ & _ & _ & _);
      rewrite Heq in H; simpl in H
  end.
  unfold offload_attach, add_hook_to_module, set_execution_device, get_instance in H.
  unfold_py. simpl in H.
  destruct inst as [h|]; simpl in H.
  - destruct (hs !! h) as [k|] eqn:Hk.
    + exists m, h, k. repeat split; auto.
    + exfalso. run_in H; discriminate H.
  - exfalso. run_in H; discriminate H.
Qed.

(** A turn of the loop that finishes, by what [getattr] gave. *)
Lemma offload_module_step (env : Env) (cached : bool) (checkpoint : string) (pipe : Pipe)
    (name : string) (size used u' : float) (w w' : World) :
  offload_module env cached checkpoint pipe name size used w = (Ok u', w') ->
  match getattr pipe name with
  | VNone => w' = w
  | VOther => False
  | VModule i =>
      exists m h k m' evs,
        heap w !! i = Some m /\ offload_hook_instance w = Some h /\ hooks w !! h = Some k
        /\ w' = mkWorld (opts w)
                  (<[h := with_execution_device (Some (device env)) k]> (hooks w))
                  (Some h) (<[i := m']> (heap w)) (events w ++ evs)
        /\ m_hf_hook m' = Some h
        /\ In (EvAddHook i h) evs
        /\ (forall n, ~ In (EvSize n) evs)
  end.
Proof.
  intros H. destruct (getattr pipe name) as [|i|] eqn:Hattr.
  - unfold offload_module in H. rewrite Hattr in H. injection H as _ <-. reflexivity.
  - destruct (offload_module_ok_inv env cached checkpoint pipe name i size used u' w w'
                Hattr H) as (m & h & k & Hm & Hi & Hk & Hgpu).
    destruct (offload_module_run env cached checkpoint pipe name i size used w m h k
                Hattr Hm Hi Hk Hgpu) as (u1 & m' & evs & Hrun & Hhook & Hadd & Hsize & _).
    rewrite Hrun in H. injection H as _ <-.
    exists m, h, k, m', evs. repeat split; auto.
  - unfold offload_module in H. rewrite Hattr in H. discriminate H.
Qed.

Lemma declared_after_step (env : Env) (w : World) (i h : nat) (k : OffloadHook)
    (m m' : Module) (evs : list Event) :
  heap w !! i = Some m ->
  hooks w !! h = Some k ->
  m_hf_hook m' = Some h ->
  let w' := mkWorld (opts w)
              (<[h := with_execution_device (Some (device env)) k]> (hooks w))
              (Some h) (<[i := m']> (heap w)) (events w ++ evs) in
  declared_execution_device w' i = Some (device env)
  /\ (forall j, declared_execution_device w j = Some (device env) ->
                declared_execution_device w' j = Some (device env)).
Proof.
  intros Hm Hk Hhook w'.
  pose proof (lookup_lt_Some _ _ _ Hm) as Hlen.
  pose proof (lookup_lt_Some _ _ _ Hk) as Hlenk.
  assert (Hi : declared_execution_device w' i = Some (device env)).
  { unfold declared_execution_device, w'. simpl.
    rewrite list_lookup_insert_eq by exact Hlen. rewrite Hhook.
    rewrite list_lookup_insert_eq by exact Hlenk. reflexivity. }
  split; [exact Hi|]. intros j Hj.
  destruct (decide (i = j)) as [<-|Hne]; [exact Hi|].
  unfold declared_execution_device in *. unfold w'. simpl.
  rewrite list_lookup_insert_ne by exact Hne.
  destruct (heap w !! j) as [mj|]; [|discriminate].
  destruct (m_hf_hook mj) as [hj|]; [|discriminate].
  destruct (decide (h = hj)) as [<-|Hneh].
  - rewrite list_lookup_insert_eq by exact Hlenk. reflexivity.
  - rewrite list_lookup_insert_ne by exact Hneh. exact Hj.
Qed.

Lemma offload_modules_declared (env : Env) (cached : bool) (checkpoint : string)
    (pipe : Pipe) (items : list (string * float)) :
  forall used w w',
    offload_modules env cached checkpoint pipe items used w = (Ok tt, w') ->
    (forall j, declared_execution_device w j = Some (device env) ->
               declared_execution_device w' j = Some (device env))
    /\ (forall name size i, In (name, size) items -> getattr pipe name = VModule i ->
        declared_execution_device w' i = Some (device env)).
Proof.
  induction items as [|[name size] rest IH]; intros used w w' H; simpl in H.
  - injection H as <-. split; [auto|]. intros ? ? ? [].
  - unfold bind in H.
    destruct (offload_module env cached checkpoint pipe name size used w)
      as [[u1|e] w1] eqn:Hstep; [|discriminate H].
    apply IH in H as [Hkeep Hnew].
    apply offload_module_step in Hstep.
    assert (Hstep' : (forall j, declared_execution_device w j = Some (device env) ->
                                declared_execution_device w1 j = Some (device env))
                     /\ (forall i, getattr pipe name = VModule i ->
                                   declared_execution_device w1 i = Some (device env))).
    { destruct (getattr pipe name) as [|i|] eqn:Hattr.
      - subst w1. split; [auto|]. discriminate.
      - destruct Hstep as (m & h & k & m' & evs & Hm & Hi & Hk & -> & Hhook & _).
        destruct (declared_after_step env w i h k m m' evs Hm Hk Hhook) as [Hset Hpres].
        split; [exact Hpres|]. intros i0 Heq. injection Heq as <-. exact Hset.
      - contradiction. }
    destruct Hstep' as [Hpres Hset]. split.
    + intros j Hj. apply Hkeep, Hpres, Hj.
    + intros name0 size0 i [Heq|Hin] Hattr.
      * injection Heq as <- <-. apply Hkeep, Hset, Hattr.
      * eapply Hnew; eassumption.
Qed.

(** *** What [get_pipe_modules] returns *)

Lemma dict_get_In {V : Type} (n : string) (v : V) (d : list (string * V)) :
  dict_get n d = Some v -> In (n, v) d.
Proof.
  induction d as [|[k u] d IH]; simpl; [discriminate|].
  destruct (String.eqb_spec n k) as [->|Hne].
  - intros H. injection H as ->. left. reflexivity.
  - intros H. right. apply IH, H.
Qed.

Lemma dict_set_In {V : Type} (n k : string) (s v : V) (d : list (string * V)) :
  In (n, s) (dict_set k v d) -> n = k \/ In (n, s) d.
Proof.
  induction d as [|[k' u] d IH]; simpl.
  - intros [H|[]]. injection H as <- <-. left. reflexivity.
  - destruct (String.eqb_spec k k') as [->|Hne]; simpl.
    + intros [H|H]; [injection H as <- <-; left; reflexivity | right; right; exact H].
    + intros [H|H]; [right; left; exact H|].
      destruct (IH H) as [->|Hin]; [left; reflexivity | right; right; exact Hin].
Qed.

Lemma dict_set_keeps_key {V : Type} (n k : string) (v : V) (d : list (string * V)) :
  dict_get n d <> None -> dict_get n (dict_set k v d) <> None.
Proof.
  intros H. destruct (String.eqb_spec n k) as [->|Hne].
  - rewrite dict_get_set_same. discriminate.
  - rewrite dict_get_set_other by exact Hne. exact H.
Qed.

Lemma insert_desc_In (x y : string * float) (l : list (string * float)) :
  In x (insert_desc y l) <-> x = y \/ In x l.
Proof.
  induction l as [|z l IH]; simpl.
  - split; [intros [H|[]]; left; symmetry; exact H | intros [H|[]]; left; symmetry; exact H].
  - destruct (snd z <? snd y); simpl.
    + split; [intros [H|H]; [left; symmetry; exact H | right; exact H]
             | intros [H|H]; [left; symmetry; exact H | right; exact H]].
    + rewrite IH. split.
      * intros [H|[H|H]]; [right; left; exact H | left; exact H | right; right; exact H].
      * intros [H|[H|H]]; [right; left; exact H | left; exact H | right; right; exact H].
Qed.

Lemma sorted_desc_In (x : string * float) (l : list (string * float)) :
  In x (sorted_desc l) <-> In x l.
Proof.
  unfold sorted_desc.
  assert (H : forall acc, In x (fold_left (fun acc y => insert_desc y acc) l acc)
                          <-> In x l \/ In x acc).
  { induction l as [|y l IH]; intros acc; simpl.
    - split; [intros H; right; exact H | intros [[]|H]; exact H].
    - rewrite IH, insert_desc_In. split.
      + intros [H|[H|H]]; [left; right; exact H | left; left; symmetry; exact H
                          | right; exact H].
      + intros [[H|H]|H]; [right; left; symmetry; exact H | left; exact H
                          | right; right; exact H]. }
  rewrite H. simpl. split; [intros [H0|[]]; exact H0 | intros H0; left; exact H0].
Qed.

(** One turn of the loop of [get_pipe_modules] that is followed by a
    run to the end. *)
Lemma get_pipe_modules_turn (pipe : Pipe) (name : string) (rest : list string)
    (modules ms : list (string * float)) (pn : option float) (w w' : World) :
  get_pipe_modules_loop pipe (name :: rest) modules pn w = (Ok ms, w') ->
  exists modules1 pn1 w1,
    get_pipe_modules_loop pipe rest modules1 pn1 w1 = (Ok ms, w')
    /\ frame w w1
    /\ (modules1 = modules \/ exists s, modules1 = dict_set name s modules)
    /\ (forall i, getattr pipe name = VModule i ->
          (exists s, modules1 = dict_set name s modules) /\ settled pipe w1 name)
    /\ (settled pipe w name -> w1 = w)
    /\ (exists evs, events w1 = (events w ++ evs)%list
                    /\ forall i h, ~ In (EvAddHook i h) evs).
Proof.
  intros H. simpl in H. unfold get_instance in H. unfold_py.
  destruct w as [o hs inst hp evs]. simpl in H.
  run_in H.
  all: try discriminate H.
  all: eexists _, _, _; (split; [exact H|]); (split; [solve_frame|]).
  - (* the size is in the cache *)
    split; [right; eexists; reflexivity|].
    split; [|split; [reflexivity | exists []; rewrite app_nil_r; auto]].
    intros i Hi. split; [eexists; reflexivity|].
    intros i' _. eexists _, _, _. eauto.
  - (* no such attribute *)
    split; [left; reflexivity|].
    split; [discriminate|]. split; [reflexivity | exists []; rewrite app_nil_r; auto].
  - (* a module whose size is computed *)
    split; [right; eexists; reflexivity|]. split; [|split].
    + intros i Hi. split; [eexists; reflexivity|].
      intros i' _. eexists _, _, _. split; [reflexivity|]. simpl. split.
      * apply list_lookup_insert_eq. rewrite length_insert. eauto using lookup_lt_Some.
      * simpl. apply dict_get_set_same.
    + intros Hs. destruct (Hs _ ltac:(eassumption)) as (h' & k' & s' & Hh' & Hk' & Hget).
      simpl in *. congruence.
    + eexists. split; [reflexivity|]. intros i h [Hin|[]]. discriminate Hin.
  - (* a module whose size computation fails *)
    split; [right; eexists; reflexivity|]. split; [|split].
    + intros i Hi. split; [eexists; reflexivity|].
      intros i' _. eexists _, _, _. split; [reflexivity|]. simpl. split.
      * apply list_lookup_insert_eq. rewrite length_insert. eauto using lookup_lt_Some.
      * simpl. apply dict_get_set_same.
    + intros Hs. destruct (Hs _ ltac:(eassumption)) as (h' & k' & s' & Hh' & Hk' & Hget).
      simpl in *. congruence.
    + eexists. split; [rewrite <- List.app_assoc; reflexivity|].
      intros i h [Hin|[Hin|[]]]; discriminate Hin.
  - (* an object that is not a module *)
    split; [left; reflexivity|].
    split; [discriminate|]. split; [reflexivity | exists []; rewrite app_nil_r; auto].
Qed.

Lemma settled_frame (pipe : Pipe) (w w' : World) (name : string) :
  frame w w' -> settled pipe w name -> settled pipe w' name.
Proof.
  intros [_ Hinst _ _ Hhooks _] Hs i Hi.
  destruct (Hs i Hi) as (h & k & s & Hh & Hk & Hget).
  destruct (Hhooks h k Hk) as (k' & Hk' & _ & Hkeep).
  exists h, k', s. split; [congruence|]. split; [exact Hk' | apply Hkeep, Hget].
Qed.

Lemma get_pipe_modules_loop_ok (pipe : Pipe) (names : list string) :
  forall modules pn w ms w',
    get_pipe_modules_loop pipe names modules pn w = (Ok ms, w') ->
    (forall n, dict_get n modules <> None -> dict_get n ms <> None)
    /\ (forall n i, In n names -> getattr pipe n = VModule i ->
        dict_get n ms <> None /\ settled pipe w' n)
    /\ (forall n s, In (n, s) ms -> In n names \/ In (n, s) modules)
    /\ (exists evs, events w' = (events w ++ evs)%list
                    /\ forall i h, ~ In (EvAddHook i h) evs)
    /\ ((forall n, In n names -> settled pipe w n) -> w' = w).
Proof.
  induction names as [|name rest IH]; intros modules pn w ms w' H.
  - simpl in H. injection H as <- <-.
    split; [auto|]. split; [intros n i []|]. split; [auto|].
    split; [exists []; rewrite app_nil_r; auto | reflexivity].
  - pose proof H as Hturn. apply get_pipe_modules_turn in Hturn
      as (modules1 & pn1 & w1 & Hrest & Hframe & Hmods & Hmod & Hpure & evs1 & Hev1 & Hno1).
    pose proof (framed_get_pipe_modules_loop _ _ _ _ _ _ _ Hrest) as Hframe'.
    apply IH in Hrest as (Hkeep & Hcover & Hfrom & (evs2 & Hev2 & Hno2) & Hpure').
    assert (Hkeep1 : forall n, dict_get n modules <> None -> dict_get n modules1 <> None).
    { intros n Hn. destruct Hmods as [->|[s ->]]; [exact Hn|].
      apply dict_set_keeps_key, Hn. }
    split; [intros n Hn; apply Hkeep, Hkeep1, Hn|]. split; [|split; [|split]].
    + intros n i [<-|Hin] Hattr.
      * destruct (Hmod i Hattr) as [[s ->] Hs]. split.
        -- apply Hkeep. rewrite dict_get_set_same. discriminate.
        -- eapply settled_frame; eassumption.
      * apply (Hcover n i Hin Hattr).
    + intros n s Hin. destruct (Hfrom n s Hin) as [Hn|Hn]; [left; right; exact Hn|].
      destruct Hmods as [->|[s' ->]]; [right; exact Hn|].
      apply dict_set_In in Hn as [->|Hn]; [left; left; reflexivity | right; exact Hn].
    + exists (evs1 ++ evs2)%list. split.
      * rewrite Hev2, Hev1, <- List.app_assoc. reflexivity.
      * intros i h Hin. apply in_app_or in Hin as [Hin|Hin];
          [eapply Hno1 | eapply Hno2]; eassumption.
    + intros Hall.
      assert (w1 = w) by (apply Hpure, Hall; left; reflexivity). subst w1.
      apply Hpure'. intros n Hn. apply Hall. right. exact Hn.
Qed.

Lemma get_pipe_modules_ok (exclude : list string) (pipe : Pipe) (w w' : World)
    (items : list (string * float)) :
  get_pipe_modules exclude pipe w = (Ok items, w') ->
  frame w w'
  /\ (forall n i, In n (pipe_module_names exclude pipe) -> getattr pipe n = VModule i ->
      (exists s, In (n, s) items) /\ settled pipe w' n)
  /\ (forall n s, In (n, s) items -> In n (pipe_module_names exclude pipe))
  /\ (exists evs, events w' = (events w ++ evs)%list
                  /\ forall i h, ~ In (EvAddHook i h) evs)
  /\ ((forall n, In n (pipe_module_names exclude pipe) -> settled pipe w n) -> w' = w).
Proof.
  intros H. pose proof (framed_get_pipe_modules _ _ _ _ _ H) as Hframe.
  unfold get_pipe_modules, bind in H.
  destruct (get_pipe_modules_loop pipe (pipe_module_names exclude pipe) [] None w)
    as [[ms|e] w1] eqn:Hloop; [|discriminate H].
  injection H as <- <-.
  apply get_pipe_modules_loop_ok in Hloop as (_ & Hcover & Hfrom & Hev & Hpure).
  split; [exact Hframe|]. split; [|split; [|split; [exact Hev | exact Hpure]]].
  - intros n i Hin Hattr. destruct (Hcover n i Hin Hattr) as [Hget Hs].
    split; [|exact Hs].
    destruct (dict_get n ms) as [s|] eqn:E; [|congruence].
    exists s. apply sorted_desc_In, dict_get_In, E.
  - intros n s Hin. apply (proj1 (sorted_desc_In _ _)) in Hin.
    destruct (Hfrom n s Hin) as [Hn|[]]. exact Hn.
Qed.

Lemma bind_ok {A B : Type} (m : M A) (f : A -> M B) (w w' : World) (b : B) :
  bind m f w = (Ok b, w') ->
  exists a w1, m w = (Ok a, w1) /\ f a w1 = (Ok b, w').
Proof.
  unfold bind. destruct (m w) as [[a|e] w1]; [|discriminate].
  intros H. exists a, w1. auto.
Qed.

(** A pass over a pipeline that finishes: the sizes, then the loop. *)
Lemma apply_to_module_ok (env : Env) (cached : bool) (checkpoint : string)
    (exclude : list string) (pipe : Pipe) (w w' : World) :
  apply_balanced_offload_to_module env cached checkpoint exclude pipe w = (Ok tt, w') ->
  exists items used w1 w2,
    get_pipe_modules exclude pipe (add_events [EvGc true false None] w) = (Ok items, w1)
    /\ offload_modules env cached checkpoint pipe items used w1 = (Ok tt, w2)
    /\ w' = add_events [EvGc true true (Some "offload")] w2.
Proof.
  intros H. unfold apply_balanced_offload_to_module in H.
  apply bind_ok in H as (r & w0 & Hgc & H).
  apply bind_ok in H as (items & w1 & Hitems & H).
  apply bind_ok in H as ([] & w2 & Hloop & H).
  apply bind_ok in H as (r' & w3 & Hgc' & H).
  injection H as <-.
  unfold torch_gc in Hgc, Hgc'. unfold_py. injection Hgc as <- <-. injection Hgc' as _ <-.
  exists items, (fst (torch_gc_reading env (events w))), w1, w2. auto.
Qed.

Lemma declared_add_events (evs : list Event) (w : World) (i : nat) :
  declared_execution_device (add_events evs w) i = declared_execution_device w i.
Proof. reflexivity. Qed.

Lemma apply_to_module_declared (env : Env) (cached : bool) (checkpoint : string)
    (exclude : list string) (pipe : Pipe) (w w' : World) (i : nat) :
  apply_balanced_offload_to_module env cached checkpoint exclude pipe w = (Ok tt, w') ->
  reaches exclude pipe i ->
  declared_execution_device w' i = Some (device env).
Proof.
  intros H (name & Hin & Hattr).
  apply apply_to_module_ok in H as (items & used & w1 & w2 & Hitems & Hloop & ->).
  apply get_pipe_modules_ok in Hitems as (_ & Hcover & _).
  destruct (Hcover name i Hin Hattr) as [[s Hs] _].
  apply offload_modules_declared in Hloop as [_ Hnew].
  rewrite declared_add_events. eapply Hnew; eassumption.
Qed.

Lemma pre_forward_declared (env : Env) (h i : nat) (w w' : World) (self : OffloadHook)
    (m : Module) :
  hooks w !! h = Some self ->
  heap w !! i = Some m ->
  same_device env (m_device m) (device env) = false ->
  pre_forward env h i w = (Ok tt, w') ->
  declared_execution_device w' i = Some (device env).
Proof.
  intros Hh Hm Hsd Hrun.
  pose proof (lookup_lt_Some _ _ _ Hm) as Hlen.
  unfold pre_forward in Hrun.
  unfold bind at 1 in Hrun. unfold get_hook at 1 in Hrun. rewrite Hh in Hrun.
  unfold bind at 1 in Hrun. unfold get_module at 1 in Hrun. rewrite Hm in Hrun.
  rewrite Hsd in Hrun.
  unfold infer_device_map, dispatch, set_execution_device in Hrun. unfold_py.
  destruct w as [o hs inst hp evs0]; simpl in *.
  repeat (exec_step Hrun; simpl in Hrun;
          rewrite ?list_lookup_insert_eq, ?length_insert in Hrun
            by (rewrite ?length_insert; assumption);
          rewrite ?Hm in Hrun).
  all: try discriminate Hrun.
  all: injection Hrun as <-; unfold declared_execution_device; simpl.
  all: rewrite list_lookup_insert_eq by (rewrite ?length_insert; assumption); simpl.
  all: repeat match goal with
              | E : m_hf_hook _ = Some _ |- _ => rewrite E
              | E : ?l !! ?n = Some _ |- context [<[?n := _]> ?l !! ?n] =>
                  rewrite (list_lookup_insert_eq l n) by (eapply lookup_lt_Some; exact E)
              end.
  all: reflexivity.
Qed.

(** ** Calling the orchestrator twice (C3) *)

(** The constructor in balanced mode, when it returns: the new
    manager, and what else is left as it was. *)
Lemma OffloadHook_init_run (env : Env) (checkpoint : string) (w w' : World) (h : nat) :
  diffusers_offload_mode (opts w) = "balanced" ->
  OffloadHook_init env checkpoint w = (Ok h, w') ->
  exists self evs,
    h = length (hooks w)
    /\ hooks w' = (hooks w ++ [self])%list
    /\ checkpoint_name self = checkpoint
    /\ min_watermark self = diffusers_offload_min_gpu_memory (opts w)
    /\ max_watermark self = (if 1 <? diffusers_offload_max_gpu_memory (opts w)
                             then 0.75 else diffusers_offload_max_gpu_memory (opts w))
    /\ offload_hook_instance w' = offload_hook_instance w
    /\ heap w' = heap w
    /\ diffusers_offload_mode (opts w') = "balanced"
    /\ (1 <? diffusers_offload_max_gpu_memory (opts w')) = false
    /\ events w' = (events w ++ evs)%list
    /\ Forall bookkeeping evs
    /\ ((diffusers_offload_min_gpu_memory (opts w) <? 0) = false ->
        (1 <? diffusers_offload_min_gpu_memory (opts w)) = false ->
        (diffusers_offload_max_gpu_memory (opts w) <? 0.1) = false ->
        (1 <? diffusers_offload_max_gpu_memory (opts w)) = false ->
        (diffusers_offload_max_gpu_memory (opts w)
         <? diffusers_offload_min_gpu_memory (opts w)) = false ->
        diffusers_offload_min_gpu_memory (opts w')
        = diffusers_offload_min_gpu_memory (opts w)
        /\ diffusers_offload_max_gpu_memory (opts w')
           = diffusers_offload_max_gpu_memory (opts w)
        /\ max_watermark self = diffusers_offload_max_gpu_memory (opts w)).
Proof.
  intros Hmode H. destruct w as [o hs inst hp evs0]. destruct o as [mode lo hi hc path te].
  simpl in Hmode. subst mode.
  unfold OffloadHook_init, eval, bind, when, get_opts, set_opts, alloc_hook, log, emit,
    ret, raise in H; simpl in H.
  destruct (1 <? hi) eqn:Ehi; destruct (1 <? hc) eqn:Ehc; simpl in H;
    rewrite ?Ehi, ?Ehc in H; simpl in H;
    (destruct (int_of (gpu_memory env * _ * 1024 * 1024 * 1024)) as [g|e] eqn:Hg in H;
     simpl in H; [|discriminate H]);
    (destruct (int_of (cpu_memory env * _ * 1024 * 1024 * 1024)) as [c|e] eqn:Hc in H;
     simpl in H; [|discriminate H]);
    match type of H with
    | context [validate env ?W] =>
        destruct (validate_run env W eq_refl)
          as (w1 & evs & Hrun & Hev & Hhooks & _ & _ & _ & Hhi1 & _ & _ & _ & Hinst & Hheap
              & Hmode & Hbk & _ & _ & _ & Hsame);
        rewrite Hrun in H; simpl in *
    end;
    injection H as <- <-;
    eexists _, (EvLog LvlInfo (MsgInit lo (if 1 <? hi then 0.75 else hi)) :: evs);
    (split; [reflexivity|]);
    (split; [exact Hhooks|]); simpl;
    rewrite Hev, <- List.app_assoc, Ehi;
    repeat (split; [first [reflexivity | assumption]|]);
    (split; [constructor; [exact I | exact Hbk]|]);
    intros T1 T2 T3 T4 T5; try congruence;
    destruct (Hsame T1 T2 T3 Ehi T5) as [Ho _]; rewrite Ho; simpl; auto.
Qed.

Lemma same_caches_refl (w : World) : same_caches w w.
Proof. intros h k Hk. exists k. auto. Qed.

Lemma same_caches_trans (a b c : World) :
  same_caches a b -> same_caches b c -> same_caches a c.
Proof.
  intros Hab Hbc h k Hk. destruct (Hab h k Hk) as (k1 & Hk1 & E1).
  destruct (Hbc h k1 Hk1) as (k2 & Hk2 & E2). exists k2. split; [exact Hk2 | congruence].
Qed.

Lemma attach_step (env : Env) (cached : bool) (checkpoint : string) (pipe : Pipe)
    (name : string) (size used u' : float) (w w' : World) (h : nat) :
  offload_module env cached checkpoint pipe name size used w = (Ok u', w') ->
  offload_hook_instance w = Some h ->
  offload_hook_instance w' = Some h
  /\ same_caches w w'
  /\ exists evs,
       events w' = (events w ++ evs)%list
       /\ (forall n, ~ In (EvSize n) evs)
       /\ (forall i, getattr pipe name = VModule i ->
           attached_hook w' i = Some h /\ In (EvAddHook i h) evs)
       /\ (forall j, attached_hook w' j = attached_hook w j
                     \/ (attached_hook w' j = Some h /\ getattr pipe name = VModule j)).
Proof.
  intros H Hinst. apply offload_module_step in H.
  destruct (getattr pipe name) as [|i|] eqn:Hattr.
  - subst w'. split; [exact Hinst|]. split; [apply same_caches_refl|].
    exists []. rewrite app_nil_r. split; [reflexivity|]. split; [auto|].
    split; [discriminate | auto].
  - destruct H as (m & h' & k & m' & evs & Hm & Hi & Hk & -> & Hhook & Hadd & Hsize).
    assert (h' = h) by congruence. subst h'.
    pose proof (lookup_lt_Some _ _ _ Hm) as Hlen.
    pose proof (lookup_lt_Some _ _ _ Hk) as Hlenk.
    assert (Hatt : attached_hook
                     (mkWorld (opts w)
                        (<[h := with_execution_device (Some (device env)) k]> (hooks w))
                        (Some h) (<[i := m']> (heap w)) (events w ++ evs)) i = Some h).
    { unfold attached_hook. simpl. rewrite list_lookup_insert_eq by exact Hlen. exact Hhook. }
    split; [reflexivity|]. split.
    + intros h0 k0 Hk0. simpl. destruct (decide (h = h0)) as [<-|Hne].
      * rewrite list_lookup_insert_eq by exact Hlenk. eexists. split; [reflexivity|].
        assert (k0 = k) by congruence. subst k0. reflexivity.
      * rewrite list_lookup_insert_ne by exact Hne. exists k0. auto.
    + exists evs. split; [reflexivity|]. split; [exact Hsize|]. split.
      * intros i0 Heq. injection Heq as <-. auto.
      * intros j. destruct (decide (i = j)) as [<-|Hne]; [right; auto|].
        left. unfold attached_hook. simpl. rewrite list_lookup_insert_ne by exact Hne.
        reflexivity.
  - contradiction.
Qed.

Lemma offload_modules_attach (env : Env) (cached : bool) (checkpoint : string)
    (pipe : Pipe) (items : list (string * float)) :
  forall used w w' h,
    offload_modules env cached checkpoint pipe items used w = (Ok tt, w') ->
    offload_hook_instance w = Some h ->
    same_caches w w'
    /\ exists evs,
         events w' = (events w ++ evs)%list
         /\ (forall n, ~ In (EvSize n) evs)
         /\ (forall n s i, In (n, s) items -> getattr pipe n = VModule i ->
             attached_hook w' i = Some h /\ In (EvAddHook i h) evs)
         /\ (forall j, attached_hook w' j = attached_hook w j
                       \/ (attached_hook w' j = Some h
                           /\ exists n s, In (n, s) items /\ getattr pipe n = VModule j)).
Proof.
  induction items as [|[name size] rest IH]; intros used w w' h H Hinst; simpl in H.
  - injection H as <-. split; [apply same_caches_refl|].
    exists []. rewrite app_nil_r. split; [reflexivity|]. split; [auto|].
    split; [intros ? ? ? [] | auto].
  - unfold bind in H.
    destruct (offload_module env cached checkpoint pipe name size used w)
      as [[u1|e] w1] eqn:Hstep; [|discriminate H].
    destruct (attach_step _ _ _ _ _ _ _ _ _ _ _ Hstep Hinst)
      as (Hinst1 & Hc1 & evs1 & Hev1 & Hsz1 & Hnew1 & Hold1).
    destruct (IH _ _ _ _ H Hinst1) as (Hc2 & evs2 & Hev2 & Hsz2 & Hnew2 & Hold2).
    split; [eapply same_caches_trans; eassumption|].
    exists (evs1 ++ evs2)%list.
    split; [rewrite Hev2, Hev1, <- List.app_assoc; reflexivity|].
    split.
    { intros n Hin. apply in_app_or in Hin as [Hin|Hin]; [eapply Hsz1 | eapply Hsz2];
        eassumption. }
    split.
    + intros n s i [Heq|Hin] Hattr.
      * injection Heq as <- <-. destruct (Hnew1 i Hattr) as [Hatt Hadd].
        split; [|apply in_or_app; left; exact Hadd].
        destruct (Hold2 i) as [Heq|[Hsome _]]; [rewrite Heq; exact Hatt | exact Hsome].
      * destruct (Hnew2 n s i Hin Hattr) as [Hatt Hadd].
        split; [exact Hatt | apply in_or_app; right; exact Hadd].
    + intros j. destruct (Hold2 j) as [Heq|[Hsome (n & s & Hin & Hattr)]].
      * destruct (Hold1 j) as [Heq1|[Hsome1 Hattr1]].
        -- left. congruence.
        -- right. split; [congruence|]. exists name, size. split; [left; reflexivity | exact Hattr1].
      * right. split; [exact Hsome|]. exists n, s. split; [right; exact Hin | exact Hattr].
Qed.

Lemma get_pipe_modules_loop_heap (pipe : Pipe) (names : list string) :
  forall modules pn w r w',
    get_pipe_modules_loop pipe names modules pn w = (r, w') -> heap w' = heap w.
Proof.
  induction names as [|name rest IH]; intros modules pn w r w' H; simpl in H.
  - injection H as _ <-. reflexivity.
  - unfold get_instance in H. unfold_py. destruct w as [o hs inst hp evs]. simpl in H.
    run_in H.
    all: try (injection H as _ <-; reflexivity).
    all: apply IH in H; exact H.
Qed.

Lemma get_pipe_modules_heap (exclude : list string) (pipe : Pipe) (w w' : World)
    (r : result (list (string * float))) :
  get_pipe_modules exclude pipe w = (r, w') -> heap w' = heap w.
Proof.
  unfold get_pipe_modules, bind. intros H.
  destruct (get_pipe_modules_loop pipe (pipe_module_names exclude pipe) [] None w)
    as [[ms|e] w1] eqn:Hloop; injection H as _ <-;
    eapply get_pipe_modules_loop_heap; eassumption.
Qed.

Lemma attached_hook_heap (w w' : World) (i : nat) :
  heap w' = heap w -> attached_hook w' i = attached_hook w i.
Proof. unfold attached_hook. intros ->. reflexivity. Qed.

Lemma settled_add_events (pipe : Pipe) (evs : list Event) (w : World) (name : string) :
  settled pipe w name -> settled pipe (add_events evs w) name.
Proof. intros H. exact H. Qed.

(** A pass that finishes leaves every module name of the pipeline in
    the size cache and every module it reaches hooked to the manager;
    modules hooked to the manager before stay so. *)
Lemma pass_establishes (env : Env) (cached : bool) (checkpoint : string)
    (exclude : list string) (pipe : Pipe) (w w' : World) (h : nat) :
  apply_balanced_offload_to_module env cached checkpoint exclude pipe w = (Ok tt, w') ->
  offload_hook_instance w = Some h ->
  (forall n, In n (pipe_module_names exclude pipe) -> settled pipe w' n)
  /\ (forall i, reaches exclude pipe i -> attached_hook w' i = Some h)
  /\ (forall j, attached_hook w j = Some h -> attached_hook w' j = Some h).
Proof.
  intros H Hinst.
  apply apply_to_module_ok in H as (items & used & w1 & w2 & Hitems & Hloop & ->).
  pose proof (get_pipe_modules_heap _ _ _ _ _ Hitems) as Hheap.
  apply get_pipe_modules_ok in Hitems as (Hframe1 & Hcover & _).
  assert (Hinst1 : offload_hook_instance w1 = Some h).
  { rewrite (fr_instance _ _ Hframe1). exact Hinst. }
  pose proof (framed_offload_modules _ _ _ _ _ _ _ _ _ Hloop) as Hframe2.
  destruct (offload_modules_attach _ _ _ _ _ _ _ _ _ Hloop Hinst1)
    as (_ & evs & _ & _ & Hnew & Hold).
  split; [|split].
  - intros n Hn. destruct (getattr pipe n) as [|i|] eqn:Hattr.
    + intros i Hi. congruence.
    + apply settled_add_events. eapply settled_frame; [exact Hframe2|].
      apply (Hcover n i Hn Hattr).
    + intros i Hi. congruence.
  - intros i (n & Hn & Hattr). destruct (Hcover n i Hn Hattr) as [[s Hs] _].
    apply (Hnew n s i Hs Hattr).
  - intros j Hj. change (attached_hook w2 j = Some h).
    destruct (Hold j) as [Heq|[Hsome _]]; [|exact Hsome].
    rewrite Heq, (attached_hook_heap _ _ j Hheap). exact Hj.
Qed.

(** A pass over a pipeline whose names are all in the cache and whose
    modules are all hooked to the manager: no size is computed, the
    caches and the attachments are as before, and every module reached
    has been hooked again. *)
Lemma pass_replays (env : Env) (cached : bool) (checkpoint : string)
    (exclude : list string) (pipe : Pipe) (w w' : World) (h : nat) :
  apply_balanced_offload_to_module env cached checkpoint exclude pipe w = (Ok tt, w') ->
  offload_hook_instance w = Some h ->
  (forall n, In n (pipe_module_names exclude pipe) -> settled pipe w n) ->
  (forall i, reaches exclude pipe i -> attached_hook w i = Some h) ->
  same_caches w w'
  /\ (forall j, attached_hook w' j = attached_hook w j)
  /\ exists evs,
       events w' = (events w ++ evs)%list
       /\ (forall n, ~ In (EvSize n) evs)
       /\ (forall i, reaches exclude pipe i -> In (EvAddHook i h) evs).
Proof.
  intros H Hinst Hsettled Hatt.
  apply apply_to_module_ok in H as (items & used & w1 & w2 & Hitems & Hloop & ->).
  apply get_pipe_modules_ok in Hitems as (_ & Hcover & Hfrom & _ & Hpure).
  assert (w1 = add_events [EvGc true false None] w) by (apply Hpure; exact Hsettled).
  subst w1.
  destruct (offload_modules_attach _ _ _ _ _ _ _ _ _ Hloop Hinst)
    as (Hcaches & evs & Hev & Hsize & Hnew & Hold).
  split; [exact Hcaches|]. split.
  - intros j. change (attached_hook w2 j = attached_hook w j).
    destruct (Hold j) as [Heq|[Hsome (n & s & Hin & Hattr)]]; [exact Heq|].
    rewrite Hsome. symmetry. apply Hatt. exists n. split; [eapply Hfrom; exact Hin | exact Hattr].
  - exists (EvGc true false None :: evs ++ [EvGc true true (Some "offload")])%list.
    split.
    { unfold add_events in *. simpl in *. rewrite Hev, <- !List.app_assoc. reflexivity. }
    split.
    { intros n [Hn|Hn]; [discriminate|]. apply in_app_or in Hn as [Hn|[Hn|[]]];
        [eapply Hsize; exact Hn | discriminate]. }
    intros i (n & Hn & Hattr). destruct (Hcover n i Hn Hattr) as [[s Hs] _].
    right. apply in_or_app. left. apply (Hnew n s i Hs Hattr).
Qed.

Lemma established_kept (exclude : list string) (h : nat) (w w' : World) (pipe : Pipe) :
  frame w w' ->
  (forall j, attached_hook w j = Some h -> attached_hook w' j = Some h) ->
  established exclude h w pipe -> established exclude h w' pipe.
Proof.
  intros Hframe Hatt [Hs Ha]. split.
  - intros n Hn. eapply settled_frame; [exact Hframe | apply Hs, Hn].
  - intros i Hi. apply Hatt, Ha, Hi.
Qed.

Lemma nested_establishes (env : Env) (cached : bool) (checkpoint : string)
    (exclude : list string) (pipe : option Pipe) (w w' : World) (h : nat) :
  apply_to_nested env cached checkpoint exclude pipe w = (Ok tt, w') ->
  offload_hook_instance w = Some h ->
  (forall p, pipe = Some p -> established exclude h w' p)
  /\ (forall j, attached_hook w j = Some h -> attached_hook w' j = Some h).
Proof.
  intros H Hinst. destruct pipe as [p|]; simpl in H.
  - destruct (pass_establishes _ _ _ _ _ _ _ _ H Hinst) as (Hs & Ha & Hkeep).
    split; [|exact Hkeep]. intros p' Heq. injection Heq as <-. split; assumption.
  - injection H as <-. split; [discriminate | auto].
Qed.

Lemma in_pipes_of (sd : SdModel) (p : Pipe) :
  In p (pipes_of sd)
  <-> p = sd_pipe sd \/ nested_pipe sd = Some p \/ prior_pipe sd = Some p
      \/ decoder_pipe sd = Some p.
Proof.
  unfold pipes_of.
  destruct (nested_pipe sd) as [a|], (prior_pipe sd) as [b|], (decoder_pipe sd) as [c|];
    simpl; split; intros H;
    repeat match goal with
           | H : _ \/ _ |- _ => destruct H
           | H : False |- _ => destruct H
           | H : Some _ = Some _ |- _ => injection H as H
           | H : None = Some _ |- _ => discriminate H
           end; subst; auto 10.
Qed.

(** The four passes of a call that finishes. *)
Lemma pipelines_ok (env : Env) (cached : bool) (checkpoint : string)
    (exclude : list string) (sd : SdModel) (w w' : World) :
  apply_to_pipelines env cached checkpoint exclude sd w = (Ok tt, w') ->
  exists wa wb wc,
    apply_balanced_offload_to_module env cached checkpoint exclude (sd_pipe sd) w = (Ok tt, wa)
    /\ apply_to_nested env cached checkpoint exclude (nested_pipe sd) wa = (Ok tt, wb)
    /\ apply_to_nested env cached checkpoint exclude (prior_pipe sd) wb = (Ok tt, wc)
    /\ apply_to_nested env cached checkpoint exclude (decoder_pipe sd) wc = (Ok tt, w').
Proof.
  intros H. unfold apply_to_pipelines in H.
  apply bind_ok in H as ([] & wa & Ha & H).
  apply bind_ok in H as ([] & wb & Hb & H).
  apply bind_ok in H as ([] & wc & Hc & H).
  exists wa, wb, wc. auto.
Qed.

Lemma pipelines_establish (env : Env) (cached : bool) (checkpoint : string)
    (exclude : list string) (sd : SdModel) (w w' : World) (h : nat) :
  apply_to_pipelines env cached checkpoint exclude sd w = (Ok tt, w') ->
  offload_hook_instance w = Some h ->
  forall p, In p (pipes_of sd) -> established exclude h w' p.
Proof.
  intros H Hinst.
  apply pipelines_ok in H as (wa & wb & wc & Ha & Hb & Hc & Hd).
  pose proof (framed_apply_to_module _ _ _ _ _ _ _ _ Ha) as Fa.
  pose proof (framed_apply_to_nested _ _ _ _ _ _ _ _ Hb) as Fb.
  pose proof (framed_apply_to_nested _ _ _ _ _ _ _ _ Hc) as Fc.
  pose proof (framed_apply_to_nested _ _ _ _ _ _ _ _ Hd) as Fd.
  assert (Ia : offload_hook_instance wa = Some h) by (rewrite (fr_instance _ _ Fa); exact Hinst).
  assert (Ib : offload_hook_instance wb = Some h) by (rewrite (fr_instance _ _ Fb); exact Ia).
  assert (Ic : offload_hook_instance wc = Some h) by (rewrite (fr_instance _ _ Fc); exact Ib).
  destruct (pass_establishes _ _ _ _ _ _ _ _ Ha Hinst) as (Hs1 & Ha1 & _).
  destruct (nested_establishes _ _ _ _ _ _ _ _ Hb Ia) as (Hb1 & Kb).
  destruct (nested_establishes _ _ _ _ _ _ _ _ Hc Ib) as (Hc1 & Kc).
  destruct (nested_establishes _ _ _ _ _ _ _ _ Hd Ic) as (Hd1 & Kd).
  intros p Hp. apply in_pipes_of in Hp as [->|[Hp|[Hp|Hp]]].
  - apply (established_kept exclude h wc w' _ Fd Kd).
    apply (established_kept exclude h wb wc _ Fc Kc).
    apply (established_kept exclude h wa wb _ Fb Kb). split; assumption.
  - apply (established_kept exclude h wc w' _ Fd Kd).
    apply (established_kept exclude h wb wc _ Fc Kc). apply Hb1, Hp.
  - apply (established_kept exclude h wc w' _ Fd Kd). apply Hc1, Hp.
  - apply Hd1, Hp.
Qed.

Lemma replays_trans (exclude : list string) (h : nat) (ps qs : list Pipe) (a b c : World) :
  replays exclude h ps a b -> replays exclude h qs b c ->
  replays exclude h (ps ++ qs) a c.
Proof.
  intros (C1 & A1 & e1 & E1 & S1 & R1) (C2 & A2 & e2 & E2 & S2 & R2).
  split; [eapply same_caches_trans; eassumption|]. split; [intros j; congruence|].
  exists (e1 ++ e2)%list. split; [rewrite E2, E1, <- List.app_assoc; reflexivity|].
  split.
  - intros n Hn. apply in_app_or in Hn as [Hn|Hn]; [eapply S1 | eapply S2]; eassumption.
  - intros p i Hp Hi. apply in_or_app. apply in_app_or in Hp as [Hp|Hp];
      [left; eapply R1 | right; eapply R2]; eassumption.
Qed.

Lemma nested_replays (env : Env) (cached : bool) (checkpoint : string)
    (exclude : list string) (pipe : option Pipe) (w w' : World) (h : nat) :
  apply_to_nested env cached checkpoint exclude pipe w = (Ok tt, w') ->
  offload_hook_instance w = Some h ->
  (forall p, pipe = Some p -> established exclude h w p) ->
  replays exclude h (match pipe with Some p => [p] | None => [] end) w w'.
Proof.
  intros H Hinst Hest. destruct pipe as [p|]; simpl in H.
  - destruct (Hest p eq_refl) as [Hs Ha].
    destruct (pass_replays _ _ _ _ _ _ _ _ H Hinst Hs Ha) as (C & A & evs & E & S & R).
    split; [exact C|]. split; [exact A|]. exists evs. split; [exact E|]. split; [exact S|].
    intros p' i [<-|[]] Hi. apply R, Hi.
  - injection H as <-. split; [apply same_caches_refl|]. split; [reflexivity|].
    exists []. rewrite app_nil_r. split; [reflexivity|]. split; [auto|]. intros p i [].
Qed.

Lemma established_replayed (exclude : list string) (h : nat) (ps : list Pipe)
    (w w' : World) (pipe : Pipe) :
  frame w w' -> replays exclude h ps w w' ->
  established exclude h w pipe -> established exclude h w' pipe.
Proof.
  intros Hframe (_ & Hatt & _) Hest. eapply established_kept; [exact Hframe| |exact Hest].
  intros j Hj. rewrite Hatt. exact Hj.
Qed.

Lemma pipelines_replay (env : Env) (cached : bool) (checkpoint : string)
    (exclude : list string) (sd : SdModel) (w w' : World) (h : nat) :
  apply_to_pipelines env cached checkpoint exclude sd w = (Ok tt, w') ->
  offload_hook_instance w = Some h ->
  (forall p, In p (pipes_of sd) -> established exclude h w p) ->
  replays exclude h (pipes_of sd) w w'.
Proof.
  intros H Hinst Hest.
  apply pipelines_ok in H as (wa & wb & wc & Ha & Hb & Hc & Hd).
  pose proof (framed_apply_to_module _ _ _ _ _ _ _ _ Ha) as Fa.
  pose proof (framed_apply_to_nested _ _ _ _ _ _ _ _ Hb) as Fb.
  pose proof (framed_apply_to_nested _ _ _ _ _ _ _ _ Hc) as Fc.
  assert (Ia : offload_hook_instance wa = Some h) by (rewrite (fr_instance _ _ Fa); exact Hinst).
  assert (Ib : offload_hook_instance wb = Some h) by (rewrite (fr_instance _ _ Fb); exact Ia).
  assert (Ic : offload_hook_instance wc = Some h) by (rewrite (fr_instance _ _ Fc); exact Ib).
  assert (Ra : replays exclude h [sd_pipe sd] w wa).
  { apply (nested_replays env cached checkpoint exclude (Some (sd_pipe sd)) w wa h Ha Hinst).
    intros p Hp. injection Hp as <-. apply Hest, in_pipes_of. left. reflexivity. }
  assert (Rb : replays exclude h (match nested_pipe sd with Some p => [p] | None => [] end)
                 wa wb).
  { apply (nested_replays _ _ _ _ _ _ _ _ Hb Ia). intros p Hp.
    apply (established_replayed exclude h _ w wa p Fa Ra).
    apply Hest, in_pipes_of. auto. }
  pose proof (replays_trans _ _ _ _ _ _ _ Ra Rb) as Rab.
  assert (Rc : replays exclude h (match prior_pipe sd with Some p => [p] | None => [] end)
                 wb wc).
  { apply (nested_replays _ _ _ _ _ _ _ _ Hc Ib). intros p Hp.
    apply (established_replayed exclude h _ w wb p (frame_trans _ _ _ Fa Fb) Rab).
    apply Hest, in_pipes_of. auto. }
  pose proof (replays_trans _ _ _ _ _ _ _ Rab Rc) as Rabc.
  assert (Rd : replays exclude h (match decoder_pipe sd with Some p => [p] | None => [] end)
                 wc w').
  { apply (nested_replays _ _ _ _ _ _ _ _ Hd Ic). intros p Hp.
    apply (established_replayed exclude h _ w wc p
             (frame_trans _ _ _ (frame_trans _ _ _ Fa Fb) Fc) Rabc).
    apply Hest, in_pipes_of. auto. }
  pose proof (replays_trans _ _ _ _ _ _ _ Rabc Rd) as R.
  destruct R as (C & A & evs & E & S & Radd).
  split; [exact C|]. split; [exact A|]. exists evs. split; [exact E|]. split; [exact S|].
  intros p i Hp Hi. apply (Radd p i); [|exact Hi].
  unfold pipes_of in Hp. simpl in Hp. destruct Hp as [<-|Hp].
  - apply in_or_app. left. apply in_or_app. left. apply in_or_app. left. left. reflexivity.
  - apply in_app_or in Hp as [Hp|Hp].
    + apply in_or_app. left. apply in_or_app. left. apply in_or_app. right. exact Hp.
    + apply in_app_or in Hp as [Hp|Hp].
      * apply in_or_app. left. apply in_or_app. right. exact Hp.
      * apply in_or_app. right. exact Hp.
Qed.

(** Closes [exists evs, W' = add_events evs W /\ Forall bookkeeping evs] for
    worlds written out. *)
Ltac solve_events_eq :=
  first
    [ exists []; split;
      [ unfold add_events; simpl; rewrite ?app_nil_r; reflexivity | constructor ]
    | eexists; split;
      [ unfold add_events; simpl; rewrite <- ?List.app_assoc; simpl; reflexivity
      | repeat constructor ] ].

Lemma instance_stale_world (checkpoint : string) (w w' : World) (r : result bool) :
  instance_stale checkpoint w = (r, w') -> w' = w.
Proof.
  unfold instance_stale. unfold_py. intros H.
  destruct (offload_hook_instance w); [destruct (hooks w !! n)|]; injection H as _ <-;
    reflexivity.
Qed.

(** A call of the orchestrator that gets to work and finishes: the
    manager is kept or built, the pipelines are walked through, and
    log lines follow. *)
Lemma apply_active_ok (env : Env) (sd_model r : option SdModel) (exclude : list string)
    (sd : SdModel) (w w' : World) :
  diffusers_offload_mode (opts w) = "balanced" ->
  resolve_model env sd_model = Some sd ->
  str_in (p_class (sd_pipe sd)) balanced_offload_exclude = false ->
  apply_balanced_offload env sd_model exclude w = (Ok r, w') ->
  exists stale wm wp evs,
    instance_stale (checkpoint_of sd) w = (Ok stale, w)
    /\ (if stale then
          exists wi, OffloadHook_init env (checkpoint_of sd) w = (Ok (length (hooks w)), wi)
                     /\ wm = mkWorld (opts wi) (hooks wi) (Some (length (hooks w)))
                               (heap wi) (events wi)
        else wm = w)
    /\ apply_to_pipelines env (negb stale) (checkpoint_of sd) exclude sd wm = (Ok tt, wp)
    /\ w' = add_events evs wp
    /\ Forall bookkeeping evs.
Proof.
  intros Hmode Hsd Hex H. unfold apply_balanced_offload in H.
  unfold bind at 1 in H. unfold get_opts at 1 in H.
  rewrite Hmode, Hsd, Hex in H. simpl in H.
  apply bind_ok in H as (stale & w0 & Hstale & H).
  pose proof (instance_stale_world _ _ _ _ Hstale). subst w0.
  apply bind_ok in H as ([] & wm & Hmgr & H).
  apply bind_ok in H as ([] & wp & Hpipes & H).
  exists stale, wm, wp.
  assert (Htail : exists evs, w' = add_events evs wp /\ Forall bookkeeping evs).
  { unfold get_instance in H. unfold_py. destruct wp as [o hs inst hp evs0].
    simpl in H. run_in H; try discriminate H; injection H as _ <-; solve_events_eq. }
  destruct Htail as (evs & -> & Hbk). exists evs.
  split; [exact Hstale|]. split; [|auto].
  destruct stale; simpl in Hmgr.
  - apply bind_ok in Hmgr as (h & wi & Hinit & Hset).
    destruct (OffloadHook_init_run env (checkpoint_of sd) w wi h Hmode Hinit)
      as (self & evs' & -> & _).
    exists wi. split; [exact Hinit|]. unfold set_instance in Hset. injection Hset as <-.
    reflexivity.
  - injection Hmgr as <-. reflexivity.
Qed.

Lemma instance_stale_false_inv (checkpoint : string) (w w' : World) :
  instance_stale checkpoint w = (Ok false, w') ->
  exists h k,
    offload_hook_instance w = Some h /\ hooks w !! h = Some k
    /\ (min_watermark k =? diffusers_offload_min_gpu_memory (opts w)) = true
    /\ (max_watermark k =? diffusers_offload_max_gpu_memory (opts w)) = true
    /\ checkpoint = checkpoint_name k.
Proof.
  unfold instance_stale. unfold_py. intros H.
  destruct (offload_hook_instance w) as [h|] eqn:Hi; [|discriminate H].
  destruct (hooks w !! h) as [k|] eqn:Hk; [|discriminate H].
  injection H as H _. apply orb_false_iff in H as [H Hck].
  apply orb_false_iff in H as [Hmin Hmax].
  apply negb_false_iff in Hmin, Hmax, Hck.
  exists h, k. split; [reflexivity|]. split; [exact Hk|]. split; [|split].
  - exact Hmin.
  - exact Hmax.
  - apply String.eqb_eq, Hck.
Qed.

Lemma established_add_events (exclude : list string) (h : nat) (evs : list Event)
    (w : World) (p : Pipe) :
  established exclude h w p -> established exclude h (add_events evs w) p.
Proof. intros H. exact H. Qed.

(** After a call that got to work and finished from watermark options
    that [validate] accepts as they are, the current manager matches
    the options and the checkpoint, and the pipelines are
    established. *)
Lemma first_call_leaves (env : Env) (sd_model r1 : option SdModel) (exclude : list string)
    (sd : SdModel) (w0 w1 : World) :
  diffusers_offload_mode (opts w0) = "balanced" ->
  resolve_model env sd_model = Some sd ->
  str_in (p_class (sd_pipe sd)) balanced_offload_exclude = false ->
  apply_balanced_offload env sd_model exclude w0 = (Ok r1, w1) ->
  (0 <=? diffusers_offload_min_gpu_memory (opts w0)) = true ->
  (diffusers_offload_min_gpu_memory (opts w0) <=? 1) = true ->
  (0.1 <=? diffusers_offload_max_gpu_memory (opts w0)) = true ->
  (diffusers_offload_max_gpu_memory (opts w0) <=? 1) = true ->
  (diffusers_offload_min_gpu_memory (opts w0)
   <=? diffusers_offload_max_gpu_memory (opts w0)) = true ->
  exists h k1,
    offload_hook_instance w1 = Some h /\ hooks w1 !! h = Some k1
    /\ (min_watermark k1 =? diffusers_offload_min_gpu_memory (opts w1)) = true
    /\ (max_watermark k1 =? diffusers_offload_max_gpu_memory (opts w1)) = true
    /\ checkpoint_of sd = checkpoint_name k1
    /\ diffusers_offload_mode (opts w1) = "balanced"
    /\ diffusers_offload_min_gpu_memory (opts w1) = diffusers_offload_min_gpu_memory (opts w0)
    /\ diffusers_offload_max_gpu_memory (opts w1) = diffusers_offload_max_gpu_memory (opts w0)
    /\ forall p, In p (pipes_of sd) -> established exclude h w1 p.
Proof.
  intros Hmode Hsd Hex H V1 V2 V3 V4 V5.
  apply apply_active_ok with (sd := sd) in H; try assumption.
  destruct H as (stale & wm & wp & evs & Hstale & Hmgr & Hpipes & -> & _).
  pose proof (framed_apply_to_pipelines _ _ _ _ _ _ _ _ Hpipes) as Hframe.
  destruct Hframe as [Fopts Finst _ _ Fhooks _].
  destruct stale.
  - destruct Hmgr as (wi & Hinit & ->).
    destruct (OffloadHook_init_run env (checkpoint_of sd) w0 wi _ Hmode Hinit)
      as (self & evs' & _ & Hhooks & Hck & Hlo & _ & _ & _ & Hmode' & _ & _ & _ & Hsame).
    destruct Hsame as (Elo & Ehi & Eself); try (apply leb_ltb_false; assumption).
    simpl in *.
    assert (Hself : hooks wi !! length (hooks w0) = Some self).
    { rewrite Hhooks. apply list_lookup_middle. reflexivity. }
    destruct (Fhooks _ _ Hself) as (k1 & Hk1 & (Eck & Emin & Emax & _) & _).
    exists (length (hooks w0)), k1. simpl.
    split; [exact Finst|]. split; [exact Hk1|].
    split; [rewrite Emin, Hlo, Fopts, Elo; apply is_nan_false;
            exact (proj1 (leb_number _ _ V2))|].
    split; [rewrite Emax, Eself, Fopts, Ehi; apply is_nan_false;
            exact (proj1 (leb_number _ _ V4))|].
    split; [congruence|]. split; [rewrite Fopts; exact Hmode'|].
    split; [rewrite Fopts; exact Elo|]. split; [rewrite Fopts; exact Ehi|].
    intros p Hp. apply established_add_events.
    eapply pipelines_establish; [exact Hpipes | reflexivity | exact Hp].
  - subst wm. apply instance_stale_false_inv in Hstale
      as (h & k & Hinst & Hk & Hkmin & Hkmax & Hck).
    destruct (Fhooks _ _ Hk) as (k1 & Hk1 & (Eck & Emin & Emax & _) & _).
    exists h, k1. simpl.
    split; [congruence|]. split; [exact Hk1|].
    split; [rewrite Emin, Fopts; exact Hkmin|].
    split; [rewrite Emax, Fopts; exact Hkmax|].
    split; [congruence|]. split; [rewrite Fopts; exact Hmode|].
    split; [rewrite Fopts; reflexivity|]. split; [rewrite Fopts; reflexivity|].
    intros p Hp. apply established_add_events.
    eapply pipelines_establish; [exact Hpipes | exact Hinst | exact Hp].
Qed.

(** A call that does not get to work changes nothing. *)
Lemma apply_inactive (env : Env) (sd_model : option SdModel) (exclude : list string)
    (w : World) :
  diffusers_offload_mode (opts w) <> "balanced"
  \/ resolve_model env sd_model = None
  \/ (exists sd, resolve_model env sd_model = Some sd
                 /\ str_in (p_class (sd_pipe sd)) balanced_offload_exclude = true) ->
  snd (apply_balanced_offload env sd_model exclude w) = w.
Proof.
  intros H. unfold apply_balanced_offload. unfold bind at 1. unfold get_opts at 1.
  destruct (String.eqb_spec (diffusers_offload_mode (opts w)) "balanced") as [Hm|Hm];
    cbn [negb]; [|reflexivity].
  destruct H as [H|[H|(sd & Hsd & Hex)]]; [contradiction | |].
  - rewrite H. reflexivity.
  - rewrite Hsd, Hex. reflexivity.
Qed.

Lemma reaches_by_name (exclude : list string) (p : Pipe) (name : string) (i : nat) :
  In name (match p_internal_dict p with
           | Some keys => keys
           | None => p_signature p
           end) ->
  str_in name exclude = false ->
  String.prefix "_" name = false ->
  getattr p name = VModule i ->
  reaches exclude p i.
Proof.
  intros Hin Hex Hpriv Hattr. exists name. split; [|exact Hattr].
  unfold pipe_module_names. apply filter_In. split; [exact Hin|].
  rewrite Hex, Hpriv. reflexivity.
Qed.

(** C3 (as amended). Two calls of the orchestrator in a row for the
    same model that both return, starting from watermark options that
    [validate] accepts as they are (numbers with [0 <= low <= 1],
    [0.1 <= high <= 1] and [low <= high]): the second call keeps the
    manager of the first (the same object, none built), computes no
    size (no size event, every size cache as it was) and leaves every
    module with the hook attachment it had after the first call. When
    the calls get to work (balanced mode, a model, its class not
    excluded), the second call hooks again every module it reaches:
    for the model itself and each of its [pipe], [prior_pipe] and
    [decoder_pipe], for every key of [_internal_dict] (or parameter
    name of the constructor) that is not excluded, does not start with
    an underscore and names a module, an [add_hook_to_module] of that
    module with the kept manager is among the calls, and the module is
    hooked to it afterwards. *)
Theorem apply_twice_reuses_manager (env : Env) (sd_model r1 r2 : option SdModel)
    (exclude : list string) (w0 w1 w2 : World) :
  (0 <=? diffusers_offload_min_gpu_memory (opts w0)) = true ->
  (diffusers_offload_min_gpu_memory (opts w0) <=? 1) = true ->
  (0.1 <=? diffusers_offload_max_gpu_memory (opts w0)) = true ->
  (diffusers_offload_max_gpu_memory (opts w0) <=? 1) = true ->
  (diffusers_offload_min_gpu_memory (opts w0)
   <=? diffusers_offload_max_gpu_memory (opts w0)) = true ->
  apply_balanced_offload env sd_model exclude w0 = (Ok r1, w1) ->
  apply_balanced_offload env sd_model exclude w1 = (Ok r2, w2) ->
  offload_hook_instance w2 = offload_hook_instance w1
  /\ length (hooks w2) = length (hooks w1)
  /\ (forall h k, hooks w1 !! h = Some k ->
        exists k', hooks w2 !! h = Some k' /\ offload_map k' = offload_map k)
  /\ (forall i, attached_hook w2 i = attached_hook w1 i)
  /\ exists evs,
       events w2 = (events w1 ++ evs)%list
       /\ (forall n, ~ In (EvSize n) evs)
       /\ (forall sd,
             diffusers_offload_mode (opts w0) = "balanced" ->
             resolve_model env sd_model = Some sd ->
             str_in (p_class (sd_pipe sd)) balanced_offload_exclude = false ->
             exists h,
               offload_hook_instance w1 = Some h
               /\ forall p name i,
                    p = sd_pipe sd \/ nested_pipe sd = Some p \/ prior_pipe sd = Some p
                    \/ decoder_pipe sd = Some p ->
                    In name (match p_internal_dict p with
                             | Some keys => keys
                             | None => p_signature p
                             end) ->
                    str_in name exclude = false ->
                    String.prefix "_" name = false ->
                    getattr p name = VModule i ->
                    In (EvAddHook i h) evs /\ attached_hook w2 i = Some h).
Proof.
  intros V1 V2 V3 V4 V5 H1 H2.
  assert (Hidle : forall w w' r,
             apply_balanced_offload env sd_model exclude w = (r, w') ->
             diffusers_offload_mode (opts w) <> "balanced"
             \/ resolve_model env sd_model = None
             \/ (exists sd, resolve_model env sd_model = Some sd
                            /\ str_in (p_class (sd_pipe sd)) balanced_offload_exclude = true) ->
             w' = w).
  { intros w w' r H Hc. pose proof (apply_inactive env sd_model exclude w Hc) as E.
    rewrite H in E. exact E. }
  assert (Hcases : (diffusers_offload_mode (opts w0) <> "balanced"
                    \/ resolve_model env sd_model = None
                    \/ (exists sd, resolve_model env sd_model = Some sd
                          /\ str_in (p_class (sd_pipe sd)) balanced_offload_exclude = true))
                   \/ (exists sd, diffusers_offload_mode (opts w0) = "balanced"
                          /\ resolve_model env sd_model = Some sd
                          /\ str_in (p_class (sd_pipe sd)) balanced_offload_exclude = false)).
  { destruct (String.eqb_spec (diffusers_offload_mode (opts w0)) "balanced") as [Hm|Hm];
      [|auto].
    destruct (resolve_model env sd_model) as [sd|] eqn:Hsd; [|auto].
    destruct (str_in (p_class (sd_pipe sd)) balanced_offload_exclude) eqn:Hex.
    - left. right. right. exists sd. auto.
    - right. exists sd. auto. }
  destruct Hcases as [Hc|(sd & Hmode & Hsd & Hex)].
  - (* neither call gets to work *)
    assert (w1 = w0) by (eapply Hidle; eassumption). subst w1.
    assert (w2 = w0) by (eapply Hidle; eassumption). subst w2.
    split; [reflexivity|]. split; [reflexivity|]. split; [apply same_caches_refl|].
    split; [reflexivity|]. exists []. rewrite app_nil_r. split; [reflexivity|].
    split; [auto|]. intros sd' Hm' Hsd' Hex'.
    destruct Hc as [Hc|[Hc|(sd & Hsd & Hex)]]; [contradiction | congruence | congruence].
  - destruct (first_call_leaves env sd_model r1 exclude sd w0 w1 Hmode Hsd Hex H1
                V1 V2 V3 V4 V5)
      as (h & k1 & Hinst & Hk1 & Hkmin & Hkmax & Hck & Hmode1 & _ & _ & Hest).
    apply apply_active_ok with (sd := sd) in H2; try assumption.
    destruct H2 as (stale & wm & wp & evs & Hstale & Hmgr & Hpipes & -> & Hbk).
    rewrite (instance_stale_false _ w1 h k1 Hinst Hk1 Hkmin Hkmax Hck) in Hstale.
    injection Hstale as <-. subst wm.
    pose proof (framed_apply_to_pipelines _ _ _ _ _ _ _ _ Hpipes) as [_ Finst Flen _ _ _].
    destruct (pipelines_replay _ _ _ _ _ _ _ _ Hpipes Hinst Hest)
      as (Hcaches & Hatt & evs' & Hev & Hsize & Hadd).
    split; [exact Finst|]. split; [exact Flen|]. split; [exact Hcaches|].
    split; [exact Hatt|]. exists (evs' ++ evs)%list. simpl.
    split; [rewrite Hev, <- List.app_assoc; reflexivity|]. split.
    + intros n Hn. apply in_app_or in Hn as [Hn|Hn]; [eapply Hsize; exact Hn|].
      eapply bookkeeping_no_size; eassumption.
    + intros sd' _ Hsd' _. assert (sd' = sd) by congruence. subst sd'.
      exists h. split; [exact Hinst|]. intros p name i Hp Hin Hexc Hpriv Hattr.
      apply in_pipes_of in Hp.
      pose proof (reaches_by_name exclude p name i Hin Hexc Hpriv Hattr) as Hreach.
      split.
      * apply in_or_app. left. exact (Hadd p i Hp Hreach).
      * change (attached_hook (add_events evs wp) i) with (attached_hook wp i).
        rewrite Hatt. exact (proj2 (Hest p Hp) i Hreach).
Qed.

Example apply_twice_sample :
  fst (apply_balanced_offload sample_env (Some twice_model) []
         (twice_first 0.2 0.75)) = Ok (Some twice_model)
  /\ offload_hook_instance (twice_second 0.2 0.75) = Some 0%nat
  /\ events (twice_second 0.2 0.75)
     = (events (twice_first 0.2 0.75)
        ++ [EvGc true false None; EvRemoveHook 0; EvAddHook 0 0;
            EvGc true true (Some "offload")])%list.
Proof. vm_compute. auto. Qed.

Lemma apply_twice_reuses_manager_witness :
  let w1 := twice_first 0.2 0.75 in
  let w2 := twice_second 0.2 0.75 in
  offload_hook_instance w2 = offload_hook_instance w1
  /\ length (hooks w2) = length (hooks w1)
  /\ (forall h k, hooks w1 !! h = Some k ->
        exists k', hooks w2 !! h = Some k' /\ offload_map k' = offload_map k)
  /\ (forall i, attached_hook w2 i = attached_hook w1 i)
  /\ exists evs,
       events w2 = (events w1 ++ evs)%list
       /\ (forall n, ~ In (EvSize n) evs)
       /\ offload_hook_instance w1 = Some 0%nat
       /\ In (EvAddHook 0 0) evs /\ attached_hook w2 0 = Some 0%nat.
Proof.
  intros w1 w2.
  assert (H1 : apply_balanced_offload sample_env (Some twice_model) []
                 (twice_start 0.2 0.75) = (Ok (Some twice_model), w1))
    by (vm_compute; reflexivity).
  assert (H2 : apply_balanced_offload sample_env (Some twice_model) [] w1
               = (Ok (Some twice_model), w2))
    by (vm_compute; reflexivity).
  destruct (apply_twice_reuses_manager sample_env (Some twice_model) (Some twice_model)
              (Some twice_model) [] (twice_start 0.2 0.75) w1 w2
              eq_refl eq_refl eq_refl eq_refl eq_refl H1 H2)
    as (Hinst & Hlen & Hcaches & Hatt & evs & Hev & Hsize & Hadd).
  split; [exact Hinst|]. split; [exact Hlen|]. split; [exact Hcaches|].
  split; [exact Hatt|]. exists evs. split; [exact Hev|]. split; [exact Hsize|].
  destruct (Hadd twice_model eq_refl eq_refl eq_refl) as (h & Hh & Hmods).
  assert (Hzero : h = 0%nat).
  { assert (E : offload_hook_instance w1 = Some 0%nat) by (vm_compute; reflexivity).
    congruence. }
  subst h. split; [exact Hh|].
  apply (Hmods (sd_pipe twice_model) "unet" 0%nat); try reflexivity.
  - left. reflexivity.
  - simpl. auto.
Defined.

(** C3 as stated fails: the watermark configuration is the same for
    both calls, a low watermark of 1.5. The first call builds a
    manager that records 1.5, and [validate] then rewrites the option
    to 0.2; the second call, on the same model, finds the manager
    stale, builds a second one and computes the size of [unet]
    again. *)
Lemma invalid_low_rebuilds_manager :
  let first := apply_balanced_offload sample_env (Some twice_model) []
                 (twice_start 1.5 0.75) in
  let second := apply_balanced_offload sample_env (Some twice_model) [] (snd first) in
  fst first = Ok (Some twice_model)
  /\ fst second = Ok (Some twice_model)
  /\ diffusers_offload_min_gpu_memory (opts (snd first)) = 0.2
  /\ offload_hook_instance (snd first) = Some 0%nat
  /\ option_map min_watermark (hooks (snd first) !! 0%nat) = Some 1.5
  /\ offload_hook_instance (snd second) = Some 1%nat
  /\ length (hooks (snd second)) = 2%nat
  /\ In (EvSize "unet") (skipn (length (events (snd first))) (events (snd second))).
Proof. vm_compute. repeat split. right. right. left. reflexivity. Qed.

(** ** The declared execution device after a whole call (C9) *)

Lemma get_pipe_modules_loop_exec (pipe : Pipe) (names : list string) :
  forall modules pn w r w',
    get_pipe_modules_loop pipe names modules pn w = (r, w') ->
    forall h, option_map execution_device (hooks w' !! h)
              = option_map execution_device (hooks w !! h).
Proof.
  induction names as [|name rest IH]; intros modules pn w r w' H h0; simpl in H.
  - injection H as _ <-. reflexivity.
  - unfold get_instance in H. unfold_py. destruct w as [o hs inst hp evs]. simpl in H.
    run_in H.
    all: try (injection H as _ <-; simpl).
    all: try (apply IH with (h := h0) in H; rewrite H; simpl).
    all: try reflexivity.
    all: match goal with
         | E : ?l !! ?n = Some ?k |- context [<[?n := _]> _ !! _] =>
             destruct (decide (n = h0)) as [<-|Hne];
             [ rewrite ?list_lookup_insert_eq
                 by (rewrite ?length_insert; eapply lookup_lt_Some; exact E);
               rewrite ?E; reflexivity
             | rewrite ?list_lookup_insert_ne by exact Hne; reflexivity ]
         end.
Qed.

Lemma get_pipe_modules_declared (exclude : list string) (pipe : Pipe) (w w' : World)
    (r : result (list (string * float))) (j : nat) :
  get_pipe_modules exclude pipe w = (r, w') ->
  declared_execution_device w' j = declared_execution_device w j.
Proof.
  intros H. pose proof (get_pipe_modules_heap _ _ _ _ _ H) as Hheap.
  assert (Hexec : forall h, option_map execution_device (hooks w' !! h)
                            = option_map execution_device (hooks w !! h)).
  { unfold get_pipe_modules, bind in H.
    destruct (get_pipe_modules_loop pipe (pipe_module_names exclude pipe) [] None w)
      as [[ms|e] w1] eqn:Hloop; injection H as _ <-;
      eapply get_pipe_modules_loop_exec; eassumption. }
  unfold declared_execution_device. rewrite Hheap.
  destruct (heap w !! j) as [m|]; [|reflexivity].
  destruct (m_hf_hook m) as [h|]; [|reflexivity].
  specialize (Hexec h).
  destruct (hooks w' !! h), (hooks w !! h); simpl in Hexec; congruence.
Qed.

Lemma pass_keeps_declared (env : Env) (cached : bool) (checkpoint : string)
    (exclude : list string) (pipe : Pipe) (w w' : World) (j : nat) :
  apply_balanced_offload_to_module env cached checkpoint exclude pipe w = (Ok tt, w') ->
  declared_execution_device w j = Some (device env) ->
  declared_execution_device w' j = Some (device env).
Proof.
  intros H Hj.
  apply apply_to_module_ok in H as (items & used & w1 & w2 & Hitems & Hloop & ->).
  rewrite declared_add_events.
  apply offload_modules_declared in Hloop as [Hkeep _]. apply Hkeep.
  rewrite (get_pipe_modules_declared _ _ _ _ _ j Hitems). exact Hj.
Qed.

Lemma nested_declared (env : Env) (cached : bool) (checkpoint : string)
    (exclude : list string) (pipe : option Pipe) (w w' : World) :
  apply_to_nested env cached checkpoint exclude pipe w = (Ok tt, w') ->
  (forall p i, pipe = Some p -> reaches exclude p i ->
               declared_execution_device w' i = Some (device env))
  /\ (forall j, declared_execution_device w j = Some (device env) ->
                declared_execution_device w' j = Some (device env)).
Proof.
  intros H. destruct pipe as [p|]; simpl in H.
  - split.
    + intros p' i Heq Hi. injection Heq as <-. eapply apply_to_module_declared; eassumption.
    + intros j Hj. eapply pass_keeps_declared; eassumption.
  - injection H as <-. split; [discriminate | auto].
Qed.

(** After a call of the orchestrator that got to work and finished,
    every module of the model's pipelines has the accelerator as its
    declared execution device. *)
Lemma apply_declared (env : Env) (sd_model r : option SdModel) (exclude : list string)
    (sd : SdModel) (w w' : World) (p : Pipe) (i : nat) :
  apply_balanced_offload env sd_model exclude w = (Ok r, w') ->
  diffusers_offload_mode (opts w) = "balanced" ->
  resolve_model env sd_model = Some sd ->
  str_in (p_class (sd_pipe sd)) balanced_offload_exclude = false ->
  In p (pipes_of sd) ->
  reaches exclude p i ->
  declared_execution_device w' i = Some (device env).
Proof.
  intros H Hmode Hsd Hex Hp Hi.
  apply apply_active_ok with (sd := sd) in H; try assumption.
  destruct H as (stale & wm & wp & evs & _ & _ & Hpipes & -> & _).
  rewrite declared_add_events.
  apply pipelines_ok in Hpipes as (wa & wb & wc & Ha & Hb & Hc & Hd).
  destruct (nested_declared _ _ _ _ _ _ _ Hb) as [Nb Kb].
  destruct (nested_declared _ _ _ _ _ _ _ Hc) as [Nc Kc].
  destruct (nested_declared _ _ _ _ _ _ _ Hd) as [Nd Kd].
  apply in_pipes_of in Hp as [->|[Hp|[Hp|Hp]]].
  - apply Kd, Kc, Kb. eapply apply_to_module_declared; eassumption.
  - apply Kd, Kc. eapply Nb; eassumption.
  - apply Kd. eapply Nc; eassumption.
  - eapply Nd; eassumption.
Qed.

(** C9. A submodule that the orchestrator processes, or that the
    placement hook places, has the accelerator device as its declared
    execution device afterwards, wherever its weights are: after a
    call of the orchestrator that gets to work and finishes, for every
    module of the model's pipelines; after a pass over one pipeline
    that finishes, for every module the pass reaches; after each turn
    of a pass, which finishes whenever the module is in the store, a
    manager is current and the capacity is not zero; and after a
    placement by [pre_forward] that returns. *)
Theorem execution_device_pinned (env : Env) :
  (forall sd_model r exclude sd w w' p i,
     apply_balanced_offload env sd_model exclude w = (Ok r, w') ->
     diffusers_offload_mode (opts w) = "balanced" ->
     resolve_model env sd_model = Some sd ->
     str_in (p_class (sd_pipe sd)) balanced_offload_exclude = false ->
     In p (pipes_of sd) ->
     reaches exclude p i ->
     declared_execution_device w' i = Some (device env))
  /\
  (forall cached checkpoint exclude pipe w w' i,
     apply_balanced_offload_to_module env cached checkpoint exclude pipe w = (Ok tt, w') ->
     reaches exclude pipe i ->
     declared_execution_device w' i = Some (device env))
  /\
  (forall cached checkpoint pipe name i size used w m h k,
     getattr pipe name = VModule i ->
     heap w !! i = Some m ->
     offload_hook_instance w = Some h ->
     hooks w !! h = Some k ->
     (gpu_memory env =? 0) = false ->
     exists u' w',
       offload_module env cached checkpoint pipe name size used w = (Ok u', w')
       /\ declared_execution_device w' i = Some (device env))
  /\
  (forall h i w w' self m,
     hooks w !! h = Some self ->
     heap w !! i = Some m ->
     same_device env (m_device m) (device env) = false ->
     pre_forward env h i w = (Ok tt, w') ->
     declared_execution_device w' i = Some (device env)).
Proof.
  split; [|split; [|split]].
  - intros. eapply apply_declared; eassumption.
  - intros. eapply apply_to_module_declared; eassumption.
  - intros cached checkpoint pipe name i size used w m h k Hattr Hm Hi Hk Hgpu.
    destruct (offload_module_run env cached checkpoint pipe name i size used w m h k
                Hattr Hm Hi Hk Hgpu) as (u' & m' & evs & Hrun & Hhook & _).
    eexists _, _. split; [exact Hrun|].
    exact (proj1 (declared_after_step env w i h k m m' evs Hm Hk Hhook)).
  - intros. eapply pre_forward_declared; eassumption.
Qed.

Lemma execution_device_pinned_witness :
  let host := sample_module devices_cpu (Some [("", DInt 0)]) (Some sample_max_memory) None in
  let pipe := sample_pipe [("unet", VModule 0)] in
  declared_execution_device (twice_first 0.2 0.75) 0 = Some cuda0
  /\ declared_execution_device
       (snd (apply_balanced_offload_to_module sample_env true "ckpt" [] pipe
               (sample_world host)))
       0 = Some cuda0
  /\ declared_execution_device (snd (pre_forward sample_env 0 0 (sample_world host))) 0
     = Some cuda0.
Proof.
  intros host pipe.
  destruct (execution_device_pinned sample_env) as (Hcall & Hpass & _ & Hpre).
  split.
  { apply (Hcall (Some twice_model) (Some twice_model) [] twice_model
             (twice_start 0.2 0.75) _ (sd_pipe twice_model) 0%nat).
    - vm_compute. reflexivity.
    - reflexivity.
    - reflexivity.
    - reflexivity.
    - left. reflexivity.
    - exists "unet". split; [left; reflexivity | reflexivity]. }
  split.
  - apply (Hpass true "ckpt" [] pipe (sample_world host)).
    + reflexivity.
    + exists "unet". split; [left; reflexivity | reflexivity].
  - apply (Hpre 0%nat 0%nat (sample_world host) _ sample_hook host); reflexivity.
Defined.

(** ** The sizes that [get_pipe_modules] hands out *)

Lemma insert_desc_perm (x : string * float) (l : list (string * float)) :
  Permutation (insert_desc x l) (x :: l).
Proof.
  induction l as [|y l IH]; simpl; [reflexivity|].
  destruct (snd y <? snd x); [reflexivity|].
  rewrite IH. apply perm_swap.
Qed.

Lemma sorted_desc_perm (l : list (string * float)) : Permutation (sorted_desc l) l.
Proof.
  unfold sorted_desc.
  assert (H : forall acc, Permutation (fold_left (fun acc x => insert_desc x acc) l acc)
                            (acc ++ l)).
  { induction l as [|x l IH]; simpl; intros acc; [rewrite app_nil_r; reflexivity|].
    rewrite IH, insert_desc_perm. apply Permutation_middle. }
  apply (H []).
Qed.

Lemma dict_set_keys {V : Type} (k : string) (v : V) (d : list (string * V)) :
  map fst (dict_set k v d)
  = if existsb (String.eqb k) (map fst d) then map fst d else (map fst d ++ [k])%list.
Proof.
  induction d as [|[k' v'] d IH]; simpl; [reflexivity|].
  destruct (String.eqb k k') eqn:E; simpl; [reflexivity|].
  rewrite IH. destruct (existsb (String.eqb k) (map fst d)); reflexivity.
Qed.

Lemma dict_set_NoDup {V : Type} (k : string) (v : V) (d : list (string * V)) :
  NoDup (map fst d) -> NoDup (map fst (dict_set k v d)).
Proof.
  intros Hd. rewrite dict_set_keys.
  destruct (existsb (String.eqb k) (map fst d)) eqn:E; [exact Hd|].
  apply NoDup_app. split; [exact Hd|]. split; [|apply NoDup_singleton].
  intros x Hx Hk. apply list_elem_of_In in Hx. apply list_elem_of_In in Hk.
  destruct Hk as [<-|[]].
  assert (existsb (String.eqb k) (map fst d) = true); [|congruence].
  apply existsb_exists. exists k. split; [exact Hx | apply String.eqb_refl].
Qed.

Lemma In_dict_get {V : Type} (n : string) (v : V) (d : list (string * V)) :
  NoDup (map fst d) -> In (n, v) d -> dict_get n d = Some v.
Proof.
  induction d as [|[k' v'] d IH]; simpl; intros Hd Hin; [contradiction|].
  apply NoDup_cons in Hd as [Hk Hd].
  destruct Hin as [Heq|Hin].
  - injection Heq as -> ->. rewrite String.eqb_refl. reflexivity.
  - destruct (String.eqb n k') eqn:E; [|apply IH; assumption].
    apply String.eqb_eq in E. subst k'. exfalso. apply Hk.
    apply list_elem_of_In. apply (in_map fst) in Hin. exact Hin.
Qed.

Lemma agrees_set (modules : list (string * float)) (w : World) (name : string) (s : float) :
  agrees_with_cache modules w -> cached_size w name s ->
  agrees_with_cache (dict_set name s modules) w.
Proof.
  intros Hm Hs n v Hv. destruct (String.eqb n name) eqn:E.
  - apply String.eqb_eq in E. subst n. rewrite dict_get_set_same in Hv.
    injection Hv as <-. exact Hs.
  - apply String.eqb_neq in E. rewrite dict_get_set_other in Hv by exact E. apply Hm, Hv.
Qed.

Lemma get_pipe_modules_loop_cached (pipe : Pipe) (names : list string) :
  forall modules pn w ms w',
    get_pipe_modules_loop pipe names modules pn w = (Ok ms, w') ->
    NoDup (map fst modules) ->
    agrees_with_cache modules w ->
    NoDup (map fst ms) /\ agrees_with_cache ms w'.
Proof.
  induction names as [|name rest IH]; intros modules pn w ms w' H Hnd Hag; simpl in H.
  - injection H as <- <-. auto.
  - unfold get_instance in H. unfold_py. destruct w as [o hs inst hp evs]. simpl in H.
    run_in H; try discriminate H.
    all: apply IH in H; [exact H | try apply dict_set_NoDup; exact Hnd |].
    all: try exact Hag.
    all: intros n0 v Hv; exists n; simpl.
    all: rewrite ?list_insert_insert_eq.
    all: rewrite ?list_lookup_insert_eq by (eapply lookup_lt_Some; eassumption).
    all: eexists; split; [reflexivity|]; split; [first [eassumption | reflexivity]|]; simpl.
    all: destruct (String.eqb n0 name) eqn:E;
      [ apply String.eqb_eq in E; subst n0;
        rewrite dict_get_set_same in Hv; rewrite ?dict_get_set_same; congruence
      | apply String.eqb_neq in E;
        rewrite dict_get_set_other in Hv by exact E;
        rewrite ?dict_get_set_other by exact E;
        destruct (Hag n0 v Hv) as (h1 & k1 & Hh1 & Hk1 & Hget);
        simpl in Hh1, Hk1; congruence ].
Qed.

Lemma get_pipe_modules_sizes (exclude : list string) (pipe : Pipe) (w w' : World)
    (items : list (string * float)) :
  get_pipe_modules exclude pipe w = (Ok items, w') ->
  NoDup (map fst items)
  /\ forall name size, In (name, size) items -> cached_size w' name size.
Proof.
  intros H. unfold get_pipe_modules in H. apply bind_ok in H as (ms & w1 & Hloop & Hret).
  injection Hret as <- <-.
  apply get_pipe_modules_loop_cached in Hloop as [Hnd Hag];
    [|apply NoDup_nil_2 | intros n s Hn; discriminate Hn].
  split.
  { assert (Hp : Permutation (map fst (sorted_desc ms)) (map fst ms))
      by apply Permutation_map, sorted_desc_perm.
    rewrite Hp. exact Hnd. }
  intros n s Hin. apply Hag, In_dict_get; [exact Hnd|]. apply sorted_desc_In. exact Hin.
Qed.

(** ** Eviction (C2) *)



(** The pass of the witness: the size handed to the turn of [unet] is
    the 5 of the size cache, and the estimate of 12 leads to a move. *)
Example pass_sample :
  let m := sample_module cuda0 None None (Some true) in
  let pipe := sample_pipe [("unet", VModule 0)] in
  get_pipe_modules [] pipe (add_events [EvGc true false None] (sample_world m))
  = (Ok [("unet", 5)], add_events [EvGc true false None] (sample_world m))
  /\ events (snd (apply_balanced_offload_to_module sample_env true "ckpt" [] pipe
                    (sample_world m)))
     = [EvGc true false None; EvRemoveHook 0; EvTo 0 devices_cpu; EvAddHook 0 0;
        EvGc true true (Some "offload")].
Proof. vm_compute. auto. Qed.


(** * Further properties of the module *)

(** ** Validation and construction, repeated *)

Lemma valid_tests (o : Opts) :
  valid_watermarks o ->
  (diffusers_offload_min_gpu_memory o <? 0) = false
  /\ (1 <? diffusers_offload_min_gpu_memory o) = false
  /\ (diffusers_offload_max_gpu_memory o <? 0.1) = false
  /\ (1 <? diffusers_offload_max_gpu_memory o) = false
  /\ (diffusers_offload_max_gpu_memory o <? diffusers_offload_min_gpu_memory o) = false.
Proof.
  intros (V1 & V2 & V3 & V4 & V5). repeat split; apply leb_ltb_false; assumption.
Qed.

Lemma tests_valid (o : Opts) :
  is_nan (diffusers_offload_min_gpu_memory o) = false ->
  is_nan (diffusers_offload_max_gpu_memory o) = false ->
  (diffusers_offload_min_gpu_memory o <? 0) = false ->
  (1 <? diffusers_offload_min_gpu_memory o) = false ->
  (diffusers_offload_max_gpu_memory o <? 0.1) = false ->
  (1 <? diffusers_offload_max_gpu_memory o) = false ->
  (diffusers_offload_max_gpu_memory o <? diffusers_offload_min_gpu_memory o) = false ->
  valid_watermarks o.
Proof.
  intros Nlo Nhi T1 T2 T3 T4 T5. repeat split; apply ltb_false_leb; auto.
Qed.

Lemma validate_on_valid (env : Env) (w : World) :
  diffusers_offload_mode (opts w) = "balanced" ->
  valid_watermarks (opts w) ->
  validate env w
  = (Ok tt,
     if diffusers_offload_max_gpu_memory (opts w) * gpu_memory env <? 4
     then add_events [EvLog LvlWarning (MsgLowMemory (diffusers_offload_max_gpu_memory (opts w)))] w
     else w).
Proof.
  intros Hmode Hvalid. apply valid_tests in Hvalid as (E1 & E2 & E3 & E4 & E5).
  destruct w as [o hs inst hp evs0]. destruct o as [mode lo hi hc path te].
  simpl in *. subst mode.
  unfold validate, bind, when, get_opts, set_opts, log, emit, ret; simpl.
  rewrite E1, E2. simpl. rewrite E3, E4. simpl. rewrite E5. simpl.
  destruct (hi * gpu_memory env <? 4); reflexivity.
Qed.

(** X1. [validate] settles in one run: run again on the options it
    left, it changes no option and at most repeats the low-memory
    warning. Neither run raises. *)
Theorem validate_settles (env : Env) (w : World) :
  exists w1 w2 evs,
    validate env w = (Ok tt, w1)
    /\ validate env w1 = (Ok tt, w2)
    /\ opts w2 = opts w1
    /\ events w2 = (events w1 ++ evs)%list
    /\ forall e, In e evs -> exists high, e = EvLog LvlWarning (MsgLowMemory high).
Proof.
  destruct (String.eqb (diffusers_offload_mode (opts w)) "balanced") eqn:Emode.
  - apply String.eqb_eq in Emode.
    destruct (validate_run env w Emode)
      as (w1 & evs1 & Hrun1 & _ & _ & T1 & T2 & T3 & T4 & T5 & _ & _ & _ & _ & Hmode1 & _).
    rewrite Emode in Hmode1.
    destruct (validate_run env w1 Hmode1)
      as (w2 & evs & Hrun2 & Hev & _ & _ & _ & _ & _ & _ & _ & _ & _ & _ & _ & _ & _ & _
          & _ & Hsame).
    destruct (Hsame T1 T2 T3 T4 T5) as [Ho Hevs].
    exists w1, w2, evs. repeat split; try assumption.
    intros e He. destruct Hevs as [-> | ->]; [destruct He|].
    destruct He as [<-|[]]. eexists. reflexivity.
  - assert (Hrun : validate env w = (Ok tt, w)).
    { unfold validate, bind, get_opts, ret. simpl. rewrite Emode. reflexivity. }
    exists w, w, []. rewrite Hrun. repeat split; try reflexivity.
    + symmetry. apply app_nil_r.
    + intros e [].
Qed.

(** The constructor, when it returns from a low watermark that is a
    number, leaves options within the ranges. *)
Lemma OffloadHook_init_ranges (env : Env) (checkpoint : string) (w w' : World) (h : nat) :
  diffusers_offload_mode (opts w) = "balanced" ->
  is_nan (diffusers_offload_min_gpu_memory (opts w)) = false ->
  OffloadHook_init env checkpoint w = (Ok h, w') ->
  valid_watermarks (opts w') /\ diffusers_offload_mode (opts w') = "balanced".
Proof.
  intros Hmode Hnum H. destruct w as [o hs inst hp evs0].
  destruct o as [mode lo hi hc path te]. simpl in Hmode, Hnum. subst mode.
  unfold OffloadHook_init, eval, bind, when, get_opts, set_opts, alloc_hook, log, emit,
    ret, raise in H; simpl in H.
  destruct (1 <? hi) eqn:Ehi; destruct (1 <? hc) eqn:Ehc; simpl in H;
    rewrite ?Ehi, ?Ehc in H; simpl in H;
    (destruct (int_of (gpu_memory env * _ * 1024 * 1024 * 1024)) as [g|e] eqn:Hg in H;
     simpl in H; [|discriminate H]);
    (destruct (int_of (cpu_memory env * _ * 1024 * 1024 * 1024)) as [c|e] eqn:Hc in H;
     simpl in H; [|discriminate H]);
    apply budget_number in Hg;
    match type of H with
    | context [validate env ?W] =>
        destruct (validate_run env W eq_refl)
          as (w1 & evs & Hrun & _ & _ & T1 & T2 & T3 & T4 & T5 & _ & _ & _ & _
              & Hmode & _ & Nlo & Nhi & _);
        rewrite Hrun in H; simpl in *
    end;
    injection H as _ <-;
    (split; [apply tests_valid; auto | exact Hmode]).
Qed.

(** The constructor leaves watermark options within the ranges as they
    are, however it ends. *)
Lemma OffloadHook_init_on_valid (env : Env) (checkpoint : string) (w : World) (r : result nat)
    (w' : World) :
  diffusers_offload_mode (opts w) = "balanced" ->
  valid_watermarks (opts w) ->
  OffloadHook_init env checkpoint w = (r, w') ->
  diffusers_offload_min_gpu_memory (opts w') = diffusers_offload_min_gpu_memory (opts w)
  /\ diffusers_offload_max_gpu_memory (opts w') = diffusers_offload_max_gpu_memory (opts w).
Proof.
  intros Hmode Hvalid. pose proof (valid_tests _ Hvalid) as (_ & _ & _ & Ehi & _).
  destruct w as [o hs inst hp evs0]. destruct o as [mode lo hi hc path te].
  simpl in *. subst mode.
  unfold OffloadHook_init, eval, bind, when, get_opts, set_opts, alloc_hook, log, emit,
    ret, raise; simpl.
  rewrite Ehi. simpl.
  destruct (1 <? hc) eqn:Ehc; simpl; rewrite ?Ehi, ?Ehc; simpl;
    (destruct (int_of (gpu_memory env * _ * 1024 * 1024 * 1024)) as [g|e]; simpl;
     [|intros H; injection H as _ <-; auto]);
    (destruct (int_of (cpu_memory env * _ * 1024 * 1024 * 1024)) as [c|e]; simpl;
     [|intros H; injection H as _ <-; auto]);
    match goal with
    | |- context [validate env ?W] =>
        rewrite (validate_on_valid env W eq_refl Hvalid); simpl
    end;
    destruct (_ <? 4); intros H; injection H as _ <-; auto.
Qed.

(** Whether the orchestrator gets to work depends on the mode, the
    model and its class. *)
Lemma apply_active_or_not (env : Env) (sd_model : option SdModel) (w : World) :
  (diffusers_offload_mode (opts w) = "balanced"
   /\ exists sd, resolve_model env sd_model = Some sd
                 /\ str_in (p_class (sd_pipe sd)) balanced_offload_exclude = false)
  \/ (diffusers_offload_mode (opts w) <> "balanced"
      \/ resolve_model env sd_model = None
      \/ (exists sd, resolve_model env sd_model = Some sd
                     /\ str_in (p_class (sd_pipe sd)) balanced_offload_exclude = true)).
Proof.
  destruct (String.eqb (diffusers_offload_mode (opts w)) "balanced") eqn:Emode.
  - apply String.eqb_eq in Emode.
    destruct (resolve_model env sd_model) as [sd|]; [|right; auto].
    destruct (str_in (p_class (sd_pipe sd)) balanced_offload_exclude) eqn:Eex.
    + right. right. right. exists sd. auto.
    + left. split; [exact Emode|]. exists sd. auto.
  - apply String.eqb_neq in Emode. right. left. exact Emode.
Qed.

(** After a call that got to work from a low watermark that is a
    number, the current manager agrees with the options, or the
    options are within the ranges of [validate]. *)
Lemma active_call_leaves (env : Env) (sd_model r1 : option SdModel) (exclude : list string)
    (sd : SdModel) (w0 w1 : World) :
  diffusers_offload_mode (opts w0) = "balanced" ->
  resolve_model env sd_model = Some sd ->
  str_in (p_class (sd_pipe sd)) balanced_offload_exclude = false ->
  is_nan (diffusers_offload_min_gpu_memory (opts w0)) = false ->
  apply_balanced_offload env sd_model exclude w0 = (Ok r1, w1) ->
  diffusers_offload_mode (opts w1) = "balanced"
  /\ (valid_watermarks (opts w1)
      \/ exists h k,
           offload_hook_instance w1 = Some h /\ hooks w1 !! h = Some k
           /\ (min_watermark k =? diffusers_offload_min_gpu_memory (opts w1)) = true
           /\ (max_watermark k =? diffusers_offload_max_gpu_memory (opts w1)) = true
           /\ checkpoint_of sd = checkpoint_name k).
Proof.
  intros Hmode Hsd Hex Hnum H.
  apply apply_active_ok with (sd := sd) in H; try assumption.
  destruct H as (stale & wm & wp & evs & Hstale & Hmgr & Hpipes & -> & _).
  pose proof (framed_apply_to_pipelines _ _ _ _ _ _ _ _ Hpipes) as Hframe.
  destruct Hframe as [Fopts Finst _ _ Fhooks _]. simpl.
  destruct stale.
  - destruct Hmgr as (wi & Hinit & ->).
    destruct (OffloadHook_init_ranges env (checkpoint_of sd) w0 wi _ Hmode Hnum Hinit)
      as (Hvalid & Hmode').
    simpl in Fopts. rewrite Fopts. auto.
  - subst wm. rewrite Fopts. split; [exact Hmode|]. right.
    apply instance_stale_false_inv in Hstale as (h & k & Hinst & Hk & Hkmin & Hkmax & Hck).
    destruct (Fhooks _ _ Hk) as (k1 & Hk1 & (Eck & Emin & Emax & _) & _).
    exists h, k1. split; [congruence|]. split; [exact Hk1|].
    rewrite Emin, Emax, Eck. auto.
Qed.

(** X2. Of three calls of the orchestrator in a row on the same model
    that all return, the low watermark being a number at the start,
    the third never builds a manager: the second call leaves the
    watermark options as it found them, so the manager that is current
    after it passes the staleness test of the third. *)
Theorem third_call_keeps_manager (env : Env) (sd_model r1 r2 r3 : option SdModel)
    (exclude : list string) (w0 w1 w2 w3 : World) :
  is_nan (diffusers_offload_min_gpu_memory (opts w0)) = false ->
  apply_balanced_offload env sd_model exclude w0 = (Ok r1, w1) ->
  apply_balanced_offload env sd_model exclude w1 = (Ok r2, w2) ->
  apply_balanced_offload env sd_model exclude w2 = (Ok r3, w3) ->
  diffusers_offload_min_gpu_memory (opts w2) = diffusers_offload_min_gpu_memory (opts w1)
  /\ diffusers_offload_max_gpu_memory (opts w2) = diffusers_offload_max_gpu_memory (opts w1)
  /\ offload_hook_instance w3 = offload_hook_instance w2
  /\ length (hooks w3) = length (hooks w2)
  /\ opts w3 = opts w2.
Proof.
  intros Hnum H1 H2 H3.
  destruct (apply_active_or_not env sd_model w0) as [(Hmode & sd & Hsd & Hex)|Hnot].
  - destruct (active_call_leaves _ _ _ _ _ _ _ Hmode Hsd Hex Hnum H1) as (Hmode1 & Hcase).
    assert (Hsecond : exists h k,
               offload_hook_instance w2 = Some h /\ hooks w2 !! h = Some k
               /\ (min_watermark k =? diffusers_offload_min_gpu_memory (opts w2)) = true
               /\ (max_watermark k =? diffusers_offload_max_gpu_memory (opts w2)) = true
               /\ checkpoint_of sd = checkpoint_name k
               /\ diffusers_offload_min_gpu_memory (opts w2)
                  = diffusers_offload_min_gpu_memory (opts w1)
               /\ diffusers_offload_max_gpu_memory (opts w2)
                  = diffusers_offload_max_gpu_memory (opts w1)).
    { destruct Hcase as [Hvalid|(h & k & Hinst & Hk & Hmin & Hmax & Hck)].
      - pose proof Hvalid as (V1 & V2 & V3 & V4 & V5).
        destruct (first_call_leaves _ _ _ _ _ _ _ Hmode1 Hsd Hex H2 V1 V2 V3 V4 V5)
          as (h & k & Hinst & Hk & Hkmin & Hkmax & Hck & _ & Elo & Ehi & _).
        exists h, k. auto 10.
      - pose proof (apply_cached_frame env sd_model exclude w1 h k Hinst Hk Hmin Hmax) as Hfr.
        rewrite H2 in Hfr. simpl in Hfr.
        destruct Hfr as [Fopts Finst _ _ Fhooks _].
        { intros sd' Hsd'. rewrite Hsd in Hsd'. injection Hsd' as <-. exact Hck. }
        destruct (Fhooks _ _ Hk) as (k2 & Hk2 & (Eck & Emin & Emax & _) & _).
        exists h, k2. rewrite Fopts, Emin, Emax, Eck. split; [congruence|]. auto 10. }
    destruct Hsecond as (h & k & Hinst & Hk & Hkmin & Hkmax & Hck & Elo & Ehi).
    split; [exact Elo|]. split; [exact Ehi|].
    pose proof (apply_cached_frame env sd_model exclude w2 h k Hinst Hk Hkmin Hkmax) as Hfr.
    rewrite H3 in Hfr. simpl in Hfr.
    destruct Hfr as [Fopts Finst Flen _ _ _].
    + intros sd' Hsd'. rewrite Hsd in Hsd'. injection Hsd' as <-. exact Hck.
    + auto.
  - pose proof (apply_inactive env sd_model exclude w0 Hnot) as E1.
    rewrite H1 in E1. simpl in E1. subst w1.
    pose proof (apply_inactive env sd_model exclude w0 Hnot) as E2.
    rewrite H2 in E2. simpl in E2. subst w2.
    pose proof (apply_inactive env sd_model exclude w0 Hnot) as E3.
    rewrite H3 in E3. simpl in E3. subst w3. auto.
Qed.

Lemma third_call_keeps_manager_witness :
  let w1 := twice_first 1.5 0.75 in
  let w2 := twice_second 1.5 0.75 in
  let w3 := snd (apply_balanced_offload sample_env (Some twice_model) [] w2) in
  diffusers_offload_min_gpu_memory (opts w2) = diffusers_offload_min_gpu_memory (opts w1)
  /\ diffusers_offload_max_gpu_memory (opts w2) = diffusers_offload_max_gpu_memory (opts w1)
  /\ offload_hook_instance w3 = offload_hook_instance w2
  /\ length (hooks w3) = length (hooks w2)
  /\ opts w3 = opts w2.
Proof.
  intros w1 w2 w3.
  apply (third_call_keeps_manager sample_env (Some twice_model) (Some twice_model)
           (Some twice_model) (Some twice_model) [] (twice_start 1.5 0.75)
           w1 w2 w3); vm_compute; reflexivity.
Defined.

(** With a low watermark that is not a number every call builds a
    manager: [nan != nan] holds in the staleness test. *)
Example nan_low_always_rebuilds :
  let w1 := twice_first nan 0.75 in
  let w2 := twice_second nan 0.75 in
  let w3 := snd (apply_balanced_offload sample_env (Some twice_model) [] w2) in
  offload_hook_instance w1 = Some 0%nat
  /\ offload_hook_instance w2 = Some 1%nat
  /\ offload_hook_instance w3 = Some 2%nat.
Proof. vm_compute. auto. Qed.

(** ** What [get_pipe_modules] returns *)

Lemma insert_desc_descending (x : string * float) (l : list (string * float)) :
  descending l -> descending (insert_desc x l).
Proof.
  induction l as [|y l IH]; simpl; intros Hl.
  - split; [intros ? []|exact I].
  - destruct Hl as [Hy Hl]. destruct (snd y <? snd x) eqn:Hcmp; simpl.
    + split; [|split; assumption].
      intros z [<-|Hz]; [apply ltb_asym; exact Hcmp|].
      destruct (snd x <? snd z) eqn:Hxz; [|reflexivity].
      rewrite <- (Hy z Hz). symmetry. exact (ltb_trans _ _ _ Hcmp Hxz).
    + split; [|apply IH; exact Hl].
      intros z Hz. apply insert_desc_In in Hz as [->|Hz]; [exact Hcmp | apply Hy; exact Hz].
Qed.

Lemma sorted_desc_descending (l : list (string * float)) : descending (sorted_desc l).
Proof.
  unfold sorted_desc.
  assert (H : forall acc, descending acc ->
                descending (fold_left (fun acc x => insert_desc x acc) l acc)).
  { induction l as [|x l IH]; simpl; intros acc Hacc; [exact Hacc|].
    apply IH, insert_desc_descending, Hacc. }
  apply H. exact I.
Qed.

Lemma descending_lookup (l : list (string * float)) (a b : nat) (x y : string * float) :
  descending l -> l !! a = Some x -> l !! b = Some y -> (a < b)%nat ->
  (snd x <? snd y) = false.
Proof.
  revert a b. induction l as [|z l IH]; intros a b Hd Ha Hb Hlt; [discriminate Ha|].
  destruct Hd as [Hz Hd]. destruct b as [|b]; [lia|]. simpl in Hb.
  destruct a as [|a].
  - injection Ha as <-. apply Hz. apply list_elem_of_In. eapply list_elem_of_lookup_2.
    exact Hb.
  - simpl in Ha. apply (IH a b Hd Ha Hb). lia.
Qed.

(** X3. The list that [get_pipe_modules] returns is in descending order
    of size (no entry is below a later one) and names no module twice;
    every name in it is one the caller did not exclude and that does
    not start with an underscore, and its size is the entry of the
    current manager's size cache. *)
Theorem get_pipe_modules_sorted_and_cached (exclude : list string) (pipe : Pipe)
    (w w' : World) (items : list (string * float)) :
  get_pipe_modules exclude pipe w = (Ok items, w') ->
  (forall a b x y, items !! a = Some x -> items !! b = Some y -> (a < b)%nat ->
                   (snd x <? snd y) = false)
  /\ NoDup (map fst items)
  /\ forall n s, In (n, s) items ->
       str_in n exclude = false /\ String.prefix "_" n = false
       /\ exists h k, offload_hook_instance w' = Some h /\ hooks w' !! h = Some k
                      /\ dict_get n (offload_map k) = Some s.
Proof.
  intros H. pose proof (get_pipe_modules_ok _ _ _ _ _ H) as (_ & _ & Hnames & _).
  pose proof (get_pipe_modules_sizes _ _ _ _ _ H) as [Hnd Hsizes].
  unfold get_pipe_modules in H. apply bind_ok in H as (ms & w1 & Hloop & Hret).
  injection Hret as <- <-.
  split.
  { intros a b x y Ha Hb Hlt.
    exact (descending_lookup _ a b x y (sorted_desc_descending ms) Ha Hb Hlt). }
  split; [exact Hnd|].
  intros n s Hin. specialize (Hnames n s Hin).
  unfold pipe_module_names in Hnames. apply filter_In in Hnames as [_ Hf].
  apply andb_true_iff in Hf as [Hex Hpriv].
  apply negb_true_iff in Hex. apply negb_true_iff in Hpriv.
  split; [exact Hex|]. split; [exact Hpriv|]. exact (Hsizes n s Hin).
Qed.

Lemma get_pipe_modules_sorted_and_cached_witness :
  let pipe := sample_pipe [("vae", VModule 1); ("_private", VModule 0); ("unet", VModule 0)] in
  let big := sample_module cuda0 None None None in
  let small := mkModule "AutoencoderKL" None cuda0 (Some "float16") (Ok [(10, 2)%Z])
                 None None None None None None in
  let w := mkWorld (sample_opts 0.2 0.75)
             [with_offload_map [] sample_hook] (Some 0%nat) [big; small] [] in
  let items := [("unet", 2000 / 1024 / 1024 / 1024); ("vae", 20 / 1024 / 1024 / 1024)] in
  let w' := snd (get_pipe_modules [] pipe w) in
  (forall a b x y, items !! a = Some x -> items !! b = Some y -> (a < b)%nat ->
                   (snd x <? snd y) = false)
  /\ NoDup (map fst items)
  /\ forall n s, In (n, s) items ->
       str_in n [] = false /\ String.prefix "_" n = false
       /\ exists h k, offload_hook_instance w' = Some h /\ hooks w' !! h = Some k
                      /\ dict_get n (offload_map k) = Some s.
Proof.
  intros pipe big small w items w'.
  apply (get_pipe_modules_sorted_and_cached [] pipe w w' items).
  vm_compute. reflexivity.
Defined.


(** ** Which modules the hooks and the orchestrator change *)

Lemma touches_mono {A : Type} (P Q : nat -> Prop) (m : M A) :
  (forall j, P j -> Q j) -> touches_only P m -> touches_only Q m.
Proof. intros HPQ Hm w r w' H j Hj. eapply Hm; [exact H|]. intros Hp. apply Hj, HPQ, Hp. Qed.

Lemma touches_ret {A : Type} (P : nat -> Prop) (a : A) : touches_only P (ret a).
Proof. intros w r w' H j _. injection H as _ <-. reflexivity. Qed.

Lemma touches_raise {A : Type} (P : nat -> Prop) (e : Exn) : touches_only P (@raise A e).
Proof. intros w r w' H j _. injection H as _ <-. reflexivity. Qed.

Lemma touches_bind {A B : Type} (P : nat -> Prop) (m : M A) (f : A -> M B) :
  touches_only P m -> (forall a, touches_only P (f a)) -> touches_only P (bind m f).
Proof.
  intros Hm Hf w r w' H j Hj. unfold bind in H.
  destruct (m w) as [[a|e] w1] eqn:Em.
  - rewrite (Hf a _ _ _ H j Hj). eapply Hm; eassumption.
  - injection H as _ <-. eapply Hm; eassumption.
Qed.

Lemma touches_try_except {A : Type} (P : nat -> Prop) (m : M A) (h : Exn -> M A) :
  touches_only P m -> (forall e, touches_only P (h e)) -> touches_only P (try_except m h).
Proof.
  intros Hm Hh w r w' H j Hj. unfold try_except in H.
  destruct (m w) as [[a|e] w1] eqn:Em.
  - injection H as _ <-. eapply Hm; eassumption.
  - rewrite (Hh e _ _ _ H j Hj). eapply Hm; eassumption.
Qed.

Lemma touches_attempt {A : Type} (P : nat -> Prop) (m : M A) :
  touches_only P m -> touches_only P (attempt m).
Proof.
  intros Hm w r w' H j Hj. unfold attempt in H.
  destruct (m w) as [a w1] eqn:Em. injection H as _ <-. eapply Hm; eassumption.
Qed.

Lemma touches_when (P : nat -> Prop) (b : bool) (m : M unit) :
  touches_only P m -> touches_only P (when b m).
Proof. intros Hm. destruct b; [exact Hm | apply touches_ret]. Qed.

(** A step that leaves the whole store of modules alone. *)
Lemma touches_nothing {A : Type} (P : nat -> Prop) (m : M A) :
  (forall w r w', m w = (r, w') -> heap w' = heap w) -> touches_only P m.
Proof. intros Hm w r w' H j _. rewrite (Hm _ _ _ H). reflexivity. Qed.

Lemma touches_get_world (P : nat -> Prop) : touches_only P get_world.
Proof. apply touches_nothing. intros w r w' H. injection H as _ <-. reflexivity. Qed.

Lemma touches_get_opts (P : nat -> Prop) : touches_only P get_opts.
Proof. apply touches_nothing. intros w r w' H. injection H as _ <-. reflexivity. Qed.

Lemma touches_set_opts (P : nat -> Prop) (o : Opts) : touches_only P (set_opts o).
Proof. apply touches_nothing. intros w r w' H. injection H as _ <-. reflexivity. Qed.

Lemma touches_set_instance (P : nat -> Prop) (i : option nat) :
  touches_only P (set_instance i).
Proof. apply touches_nothing. intros w r w' H. injection H as _ <-. reflexivity. Qed.

Lemma touches_alloc_hook (P : nat -> Prop) (k : OffloadHook) : touches_only P (alloc_hook k).
Proof. apply touches_nothing. intros w r w' H. injection H as _ <-. reflexivity. Qed.

Lemma touches_emit (P : nat -> Prop) (e : Event) : touches_only P (emit e).
Proof. apply touches_nothing. intros w r w' H. injection H as _ <-. reflexivity. Qed.

Lemma touches_log (P : nat -> Prop) (l : Level) (msg : LogMsg) : touches_only P (log l msg).
Proof. apply touches_emit. Qed.

Lemma touches_get_module (P : nat -> Prop) (i : nat) : touches_only P (get_module i).
Proof.
  apply touches_nothing. intros w r w' H. unfold get_module in H.
  destruct (heap w !! i); injection H as _ <-; reflexivity.
Qed.

Lemma touches_get_hook (P : nat -> Prop) (h : nat) : touches_only P (get_hook h).
Proof.
  apply touches_nothing. intros w r w' H. unfold get_hook in H.
  destruct (hooks w !! h); injection H as _ <-; reflexivity.
Qed.

Lemma touches_put_hook (P : nat -> Prop) (h : nat) (k : OffloadHook) :
  touches_only P (put_hook h k).
Proof. apply touches_nothing. intros w r w' H. injection H as _ <-. reflexivity. Qed.

Lemma touches_get_instance (P : nat -> Prop) : touches_only P get_instance.
Proof.
  apply touches_nothing. intros w r w' H. unfold get_instance in H.
  destruct (offload_hook_instance w); injection H as _ <-; reflexivity.
Qed.

Lemma touches_put_module (i : nat) (m : Module) : touches_only (eq i) (put_module i m).
Proof.
  intros w r w' H j Hj. injection H as _ <-. simpl.
  apply list_lookup_insert_ne. exact Hj.
Qed.

Create HintDb touches.

#[local] Hint Resolve touches_ret touches_raise touches_get_world touches_get_opts
  touches_set_opts touches_set_instance touches_alloc_hook touches_emit touches_log
  touches_get_module touches_get_hook touches_put_hook touches_get_instance
  touches_put_module : touches.

(** Goals [touches_only P m] for straight-line code. *)
Ltac touch_auto :=
  repeat first
    [ solve [auto with touches]
    | apply touches_bind; [|intros ?]
    | apply touches_try_except; [|intros ?]
    | apply touches_attempt
    | apply touches_when
    | progress cbv zeta
    | match goal with
      | |- touches_only _ (match ?x with _ => _ end) => destruct x
      | |- touches_only _ (if ?x then _ else _) => destruct x
      end ].

Lemma touches_validate (env : Env) (P : nat -> Prop) : touches_only P (validate env).
Proof. unfold validate. touch_auto. Qed.

Lemma touches_OffloadHook_init (env : Env) (P : nat -> Prop) (checkpoint : string) :
  touches_only P (OffloadHook_init env checkpoint).
Proof. unfold OffloadHook_init, eval. pose proof (touches_validate env P). touch_auto. Qed.

Lemma touches_torch_gc (env : Env) (P : nat -> Prop) (fast force : bool)
    (reason : option string) :
  touches_only P (torch_gc env fast force reason).
Proof. unfold torch_gc. touch_auto. Qed.

Lemma touches_py_div (P : nat -> Prop) (a b : float) : touches_only P (py_div a b).
Proof. unfold py_div. touch_auto. Qed.

Lemma touches_module_to (env : Env) (i : nat) (d : Device) :
  touches_only (eq i) (module_to env i d).
Proof. unfold module_to. touch_auto. Qed.

Lemma touches_remove_hook (i : nat) : touches_only (eq i) (remove_hook_from_module i).
Proof. unfold remove_hook_from_module. touch_auto. Qed.

Lemma touches_add_hook (i h : nat) : touches_only (eq i) (add_hook_to_module i h).
Proof. unfold add_hook_to_module. touch_auto. Qed.

Lemma touches_set_execution_device (env : Env) (P : nat -> Prop) (i : nat) :
  touches_only P (set_execution_device env i).
Proof. unfold set_execution_device. touch_auto. Qed.

Lemma touches_module_dtype (P : nat -> Prop) (i : nat) : touches_only P (module_dtype i).
Proof. unfold module_dtype. touch_auto. Qed.

Lemma touches_module_dunder_name (P : nat -> Prop) (i : nat) :
  touches_only P (module_dunder_name i).
Proof. unfold module_dunder_name. touch_auto. Qed.

Lemma touches_dict_item (P : nat -> Prop) (k : string) (d : list (string * float)) :
  touches_only P (dict_item k d).
Proof. unfold dict_item. touch_auto. Qed.

#[local] Hint Resolve touches_validate touches_OffloadHook_init touches_torch_gc
  touches_py_div touches_module_to touches_remove_hook touches_add_hook
  touches_set_execution_device touches_module_dtype touches_module_dunder_name
  touches_dict_item : touches.

Lemma touches_offload_except (env : Env) (P : nat -> Prop) (name : M string) (e : Exn) :
  touches_only P name -> touches_only P (offload_except env name e).
Proof. intros Hn. unfold offload_except. touch_auto. Qed.

Lemma touches_pre_forward (env : Env) (h i : nat) : touches_only (eq i) (pre_forward env h i).
Proof. unfold pre_forward, infer_device_map, dispatch. touch_auto. Qed.

Lemma touches_post_forward (env : Env) (A : Type) (h i : nat) (output : A) :
  touches_only (eq i) (post_forward env h i output).
Proof.
  unfold post_forward.
  pose proof (touches_offload_except env (eq i) (module_dunder_name i)) as He.
  touch_auto.
Qed.

Lemma touches_offload_try (env : Env) (cached : bool) (name : string) (i : nat)
    (module : Module) (size used perc : float) :
  touches_only (eq i) (offload_try env cached name i module size used perc).
Proof.
  unfold offload_try, offload_log_lines.
  pose proof (touches_offload_except env (eq i) (ret name)) as He.
  touch_auto.
Qed.

Lemma touches_offload_attach (env : Env) (checkpoint name : string) (i : nat)
    (ln : option string) (dm : option DeviceMap) (mm : option MaxMemory) :
  touches_only (eq i) (offload_attach env checkpoint name i ln dm mm).
Proof. unfold offload_attach. touch_auto. Qed.

Lemma touches_offload_module (env : Env) (cached : bool) (checkpoint : string) (pipe : Pipe)
    (name : string) (size used : float) :
  touches_only (fun j => getattr pipe name = VModule j)
    (offload_module env cached checkpoint pipe name size used).
Proof.
  unfold offload_module. destruct (getattr pipe name) as [|i|] eqn:E.
  - apply touches_ret.
  - apply touches_mono with (P := eq i); [intros j <-; reflexivity|].
    pose proof (touches_offload_try env cached name i) as Ht.
    pose proof (touches_offload_attach env checkpoint name i) as Ha.
    touch_auto.
  - apply touches_raise.
Qed.

Lemma touches_offload_modules (env : Env) (cached : bool) (checkpoint : string) (pipe : Pipe)
    (items : list (string * float)) :
  forall used,
    touches_only (fun j => exists n s, In (n, s) items /\ getattr pipe n = VModule j)
      (offload_modules env cached checkpoint pipe items used).
Proof.
  induction items as [|[name size] rest IH]; intros used; simpl.
  - apply touches_ret.
  - apply touches_bind.
    + eapply touches_mono; [|apply touches_offload_module].
      intros j Hj. exists name, size. split; [left; reflexivity | exact Hj].
    + intros u. eapply touches_mono; [|apply IH].
      intros j (n & s & Hin & Hj). exists n, s. split; [right; exact Hin | exact Hj].
Qed.

Lemma touches_apply_to_module (env : Env) (cached : bool) (checkpoint : string)
    (exclude : list string) (pipe : Pipe) :
  touches_only (reaches exclude pipe)
    (apply_balanced_offload_to_module env cached checkpoint exclude pipe).
Proof.
  unfold apply_balanced_offload_to_module.
  apply touches_bind; [apply touches_torch_gc|]. intros r.
  intros w r0 w' H j Hj. unfold bind at 1 in H.
  destruct (get_pipe_modules exclude pipe w) as [[items|e] w1] eqn:Hitems.
  - rewrite <- (get_pipe_modules_heap _ _ _ _ _ Hitems).
    pose proof (get_pipe_modules_ok _ _ _ _ _ Hitems) as (_ & _ & Hnames & _).
    assert (Ht : touches_only (reaches exclude pipe)
                   (offload_modules env cached checkpoint pipe items (fst r) ;;
                    torch_gc env true true (Some "offload") ;; ret tt)).
    { apply touches_bind; [|intros ?; touch_auto].
      eapply touches_mono; [|apply touches_offload_modules].
      intros j0 (n & s & Hin & Hj0). exists n.
      split; [eapply Hnames; exact Hin | exact Hj0]. }
    exact (Ht w1 r0 w' H j Hj).
  - injection H as _ <-. rewrite (get_pipe_modules_heap _ _ _ _ _ Hitems). reflexivity.
Qed.

Lemma touches_apply_to_nested (env : Env) (cached : bool) (checkpoint : string)
    (exclude : list string) (pipe : option Pipe) :
  touches_only (fun j => exists p, pipe = Some p /\ reaches exclude p j)
    (apply_to_nested env cached checkpoint exclude pipe).
Proof.
  destruct pipe as [p|]; simpl; [|apply touches_ret].
  eapply touches_mono; [|apply touches_apply_to_module].
  intros j Hj. exists p. auto.
Qed.

Lemma touches_apply_to_pipelines (env : Env) (cached : bool) (checkpoint : string)
    (exclude : list string) (sd : SdModel) :
  touches_only (reached_in exclude sd) (apply_to_pipelines env cached checkpoint exclude sd).
Proof.
  assert (Hn : forall pipe,
             nested_pipe sd = pipe \/ prior_pipe sd = pipe \/ decoder_pipe sd = pipe ->
             touches_only (reached_in exclude sd)
               (apply_to_nested env cached checkpoint exclude pipe)).
  { intros pipe Hpipe. eapply touches_mono; [|apply touches_apply_to_nested].
    intros j (p & -> & Hj). exists p. split; [apply in_pipes_of; tauto | exact Hj]. }
  unfold apply_to_pipelines.
  apply touches_bind; [|intros _; apply touches_bind; [|intros _; apply touches_bind]].
  - eapply touches_mono; [|apply touches_apply_to_module].
    intros j Hj. exists (sd_pipe sd). split; [apply in_pipes_of; auto | exact Hj].
  - apply Hn. auto.
  - apply Hn. auto.
  - intros _. apply Hn. auto.
Qed.

Lemma touches_instance_stale (P : nat -> Prop) (checkpoint : string) :
  touches_only P (instance_stale checkpoint).
Proof. unfold instance_stale. touch_auto. Qed.

Lemma touches_apply (env : Env) (sd_model : option SdModel) (exclude : list string) :
  touches_only (fun j => exists sd, resolve_model env sd_model = Some sd
                                    /\ reached_in exclude sd j)
    (apply_balanced_offload env sd_model exclude).
Proof.
  unfold apply_balanced_offload.
  apply touches_bind; [apply touches_get_opts|]. intros o.
  destruct (negb _); [apply touches_ret|].
  destruct (resolve_model env sd_model) as [sd|]; [|apply touches_ret].
  destruct (str_in _ _); [apply touches_ret|]. cbv zeta.
  pose proof (touches_instance_stale) as Hs.
  apply touches_bind; [apply Hs|]. intros stale.
  apply touches_bind; [touch_auto|]. intros _.
  apply touches_bind; [|intros _; touch_auto].
  eapply touches_mono; [|apply touches_apply_to_pipelines].
  intros j Hj. exists sd. auto.
Qed.

Lemma reaches_name (exclude : list string) (p : Pipe) (i : nat) :
  reaches exclude p i ->
  exists name,
    In name (match p_internal_dict p with
             | Some keys => keys
             | None => p_signature p
             end)
    /\ str_in name exclude = false
    /\ String.prefix "_" name = false
    /\ getattr p name = VModule i.
Proof.
  intros (name & Hin & Hattr). exists name.
  unfold pipe_module_names in Hin. apply filter_In in Hin as [Hin Hf].
  apply andb_true_iff in Hf as [Hex Hpriv].
  apply negb_true_iff in Hex. apply negb_true_iff in Hpriv. auto.
Qed.

(** X4. The orchestrator changes no module but those it reaches. A
    module that is the attribute of no name the pass walks through
    (the keys of [_internal_dict], or the constructor's parameter
    names, that are not excluded and do not start with an underscore)
    is, after a pass over a pipeline, what it was before, however the
    pass ends; and after a whole call, so is a module that no such
    name leads to in the model, its [pipe], its [prior_pipe] or its
    [decoder_pipe]. *)
Theorem orchestrator_touches_only_reached (env : Env) :
  (forall cached checkpoint exclude pipe w r w' j,
     apply_balanced_offload_to_module env cached checkpoint exclude pipe w = (r, w') ->
     (forall name,
        In name (match p_internal_dict pipe with
                 | Some keys => keys
                 | None => p_signature pipe
                 end) ->
        str_in name exclude = false ->
        String.prefix "_" name = false ->
        getattr pipe name <> VModule j) ->
     heap w' !! j = heap w !! j)
  /\
  (forall sd_model exclude w r w' j,
     apply_balanced_offload env sd_model exclude w = (r, w') ->
     (forall sd p name,
        resolve_model env sd_model = Some sd ->
        p = sd_pipe sd \/ nested_pipe sd = Some p \/ prior_pipe sd = Some p
        \/ decoder_pipe sd = Some p ->
        In name (match p_internal_dict p with
                 | Some keys => keys
                 | None => p_signature p
                 end) ->
        str_in name exclude = false ->
        String.prefix "_" name = false ->
        getattr p name <> VModule j) ->
     heap w' !! j = heap w !! j).
Proof.
  split.
  - intros cached checkpoint exclude pipe w r w' j H Hj.
    apply (touches_apply_to_module env cached checkpoint exclude pipe w r w' H j).
    intros Hr. apply reaches_name in Hr as (name & Hin & Hex & Hpriv & Hattr).
    exact (Hj name Hin Hex Hpriv Hattr).
  - intros sd_model exclude w r w' j H Hj.
    apply (touches_apply env sd_model exclude w r w' H j).
    intros (sd & Hsd & p & Hp & Hr).
    apply reaches_name in Hr as (name & Hin & Hex & Hpriv & Hattr).
    apply in_pipes_of in Hp.
    exact (Hj sd p name Hsd Hp Hin Hex Hpriv Hattr).
Qed.

Lemma orchestrator_touches_only_reached_witness :
  heap (snd (apply_balanced_offload_to_module sample_env true "ckpt" []
               (sd_pipe twice_model) two_module_world)) !! 1%nat
  = heap two_module_world !! 1%nat
  /\ heap (snd (apply_balanced_offload sample_env (Some twice_model) [] two_module_world))
       !! 1%nat
     = heap two_module_world !! 1%nat.
Proof.
  destruct (orchestrator_touches_only_reached sample_env) as [Hpass Hcall].
  split.
  - eapply (Hpass true "ckpt" [] (sd_pipe twice_model) two_module_world).
    + apply surjective_pairing.
    + intros name Hin _ _. simpl in Hin.
      destruct Hin as [<-|[<-|[]]]; vm_compute; discriminate.
  - eapply (Hcall (Some twice_model) [] two_module_world).
    + apply surjective_pairing.
    + intros sd p name Hsd Hp Hin _ _. injection Hsd as <-.
      destruct Hp as [->|[Hp|[Hp|Hp]]]; try discriminate Hp.
      simpl in Hin. destruct Hin as [<-|[<-|[]]]; vm_compute; discriminate.
Defined.

(** X5. A hook is local to the module it is called for, however it
    ends: [pre_forward] and [post_forward] change no other module, no
    option, and not which manager is current; every manager keeps its
    configuration and the entries of its size cache. *)
Theorem hooks_are_local (env : Env) (h i : nat) (w : World) :
  (forall r w',
     pre_forward env h i w = (r, w') ->
     frame w w' /\ forall j, j <> i -> heap w' !! j = heap w !! j)
  /\
  (forall (A : Type) (output : A) r w',
     post_forward env h i output w = (r, w') ->
     frame w w' /\ forall j, j <> i -> heap w' !! j = heap w !! j).
Proof.
  split.
  - intros r w' H. split; [eapply framed_pre_forward; exact H|].
    intros j Hj. eapply touches_pre_forward; [exact H|]. intros <-. apply Hj. reflexivity.
  - intros A output r w' H. split; [eapply framed_post_forward; exact H|].
    intros j Hj. eapply touches_post_forward; [exact H|]. intros <-. apply Hj. reflexivity.
Qed.

Lemma hooks_are_local_witness :
  let w := two_module_world in
  (frame w (snd (pre_forward sample_env 0 0 w))
   /\ forall j, j <> 0%nat -> heap (snd (pre_forward sample_env 0 0 w)) !! j = heap w !! j)
  /\ (frame w (snd (post_forward sample_env 0 0 tt w))
      /\ forall j, j <> 0%nat ->
           heap (snd (post_forward sample_env 0 0 tt w)) !! j = heap w !! j).
Proof.
  intros w. destruct (hooks_are_local sample_env 0 0 w) as [Hpre Hpost]. split.
  - eapply Hpre. apply surjective_pairing.
  - eapply Hpost. apply surjective_pairing.
Defined.

(** ** Which modules are evicted after their forward pass *)

Lemma offload_attach_flag (env : Env) (checkpoint name : string) (i : nat)
    (ln : option string) (dm : option DeviceMap) (mm : option MaxMemory) (w w' : World) :
  offload_attach env checkpoint name i ln dm mm w = (Ok tt, w') ->
  exists m', heap w' !! i = Some m' /\ offload_post m' = Some (post_flag env (opts w) name).
Proof.
  unfold offload_attach, add_hook_to_module, set_execution_device, get_instance.
  unfold_py. destruct w as [o hs inst hp evs]. simpl. intros H.
  run_in H; try discriminate H.
  all: injection H as <-; simpl.
  all: rewrite ?list_insert_insert_eq.
  all: rewrite list_lookup_insert_eq by (eapply lookup_lt_Some; eassumption).
  all: eexists; split; [reflexivity|]; reflexivity.
Qed.

Lemma offload_module_flag (env : Env) (cached : bool) (checkpoint : string) (pipe : Pipe)
    (name : string) (i : nat) (size used u' : float) (w w' : World) :
  getattr pipe name = VModule i ->
  offload_module env cached checkpoint pipe name size used w = (Ok u', w') ->
  exists m', heap w' !! i = Some m' /\ offload_post m' = Some (post_flag env (opts w) name).
Proof.
  intros Hget H. unfold offload_module in H. rewrite Hget in H.
  apply bind_ok in H as (m & w0 & Hm & H).
  apply bind_ok in H as ([] & w1 & Hrm & H).
  apply bind_ok in H as (perc & w2 & Hdiv & H).
  apply bind_ok in H as (u & w3 & Htry & H).
  apply bind_ok in H as ([] & w4 & Hatt & H).
  injection H as _ <-.
  apply offload_attach_flag in Hatt as (m' & Hm' & Hflag).
  exists m'. split; [exact Hm'|]. rewrite Hflag. f_equal. f_equal.
  rewrite (fr_opts _ _ (framed_offload_try _ _ _ _ _ _ _ _ _ _ _ Htry)).
  rewrite (fr_opts _ _ (framed_py_div _ _ _ _ _ Hdiv)).
  rewrite (fr_opts _ _ (framed_remove_hook _ _ _ _ Hrm)).
  rewrite (fr_opts _ _ (framed_get_module _ _ _ _ Hm)).
  reflexivity.
Qed.

Lemma PyVal_eq_dec (a b : PyVal) : {a = b} + {a <> b}.
Proof. decide equality. apply Nat.eq_dec. Qed.

Lemma reached_by_dec (pipe : Pipe) (items : list (string * float)) (j : nat) :
  (exists n s, In (n, s) items /\ getattr pipe n = VModule j)
  \/ ~ (exists n s, In (n, s) items /\ getattr pipe n = VModule j).
Proof.
  induction items as [|[n s] rest IH].
  - right. intros (? & ? & [] & _).
  - destruct (PyVal_eq_dec (getattr pipe n) (VModule j)) as [E|E].
    + left. exists n, s. split; [left; reflexivity | exact E].
    + destruct IH as [(n' & s' & Hin & Hg)|Hno].
      * left. exists n', s'. split; [right; exact Hin | exact Hg].
      * right. intros (n' & s' & [Heq|Hin] & Hg).
        -- injection Heq as <- <-. exact (E Hg).
        -- apply Hno. exists n', s'. auto.
Qed.

Lemma offload_modules_flag (env : Env) (cached : bool) (checkpoint : string)
    (pipe : Pipe) (items : list (string * float)) :
  forall used w w' j,
    offload_modules env cached checkpoint pipe items used w = (Ok tt, w') ->
    (exists n s, In (n, s) items /\ getattr pipe n = VModule j) ->
    exists m' n s,
      In (n, s) items /\ getattr pipe n = VModule j
      /\ heap w' !! j = Some m'
      /\ offload_post m' = Some (post_flag env (opts w) n).
Proof.
  induction items as [|[name size] rest IH]; intros used w w' j H Hj; simpl in H.
  - destruct Hj as (? & ? & [] & _).
  - apply bind_ok in H as (u1 & w1 & Hstep & Hrest).
    pose proof (fr_opts _ _ (framed_offload_module _ _ _ _ _ _ _ _ _ _ Hstep)) as Hopts.
    destruct (reached_by_dec pipe rest j) as [Hlater|Hnot].
    + destruct (IH _ _ _ _ Hrest Hlater) as (m' & n & s & Hin & Hg & Hm' & Hflag).
      exists m', n, s. split; [right; exact Hin|]. split; [exact Hg|]. split; [exact Hm'|].
      rewrite <- Hopts. exact Hflag.
    + destruct Hj as (n & s & [Heq|Hin] & Hg); [|exfalso; apply Hnot; eauto].
      injection Heq as <- <-.
      destruct (offload_module_flag _ _ _ _ _ _ _ _ _ _ _ Hg Hstep) as (m' & Hm' & Hflag).
      exists m', name, size. split; [left; reflexivity|]. split; [exact Hg|].
      split; [|exact Hflag].
      rewrite (touches_offload_modules _ _ _ _ _ _ _ _ _ Hrest j Hnot). exact Hm'.
Qed.

(** X6. After a pass that returns, every module the pass reaches
    (the attribute of a key of [_internal_dict], or constructor
    parameter name, that is not excluded and does not start with an
    underscore) has [offload_post] set, and set to true only if the
    model type is [h1], [te_hijack] is on and a name that the pass
    reaches the module by starts with [text_encoder]. On a module whose
    flag is false, [post_forward] is a no-op: it moves nothing and
    calls nothing. *)
Theorem pass_flags_text_encoders_only (env : Env) (cached : bool) (checkpoint : string)
    (exclude : list string) (pipe : Pipe) (w w' : World) (i : nat) (name0 : string) :
  apply_balanced_offload_to_module env cached checkpoint exclude pipe w = (Ok tt, w') ->
  In name0 (match p_internal_dict pipe with
            | Some keys => keys
            | None => p_signature pipe
            end) ->
  str_in name0 exclude = false ->
  String.prefix "_" name0 = false ->
  getattr pipe name0 = VModule i ->
  exists m' name,
    heap w' !! i = Some m'
    /\ In name (match p_internal_dict pipe with
                | Some keys => keys
                | None => p_signature pipe
                end)
    /\ str_in name exclude = false
    /\ String.prefix "_" name = false
    /\ getattr pipe name = VModule i
    /\ offload_post m'
       = Some (str_in (sd_model_type env) offload_post_families
               && te_hijack (opts w)
               && String.prefix "text_encoder" name)
    /\ (offload_post m' = Some false ->
        forall (A : Type) (output : A) h self,
          hooks w' !! h = Some self ->
          post_forward env h i output w' = (Ok output, w')).
Proof.
  intros H Hkey Hexc Hpriv Hget0.
  pose proof (reaches_by_name exclude pipe name0 i Hkey Hexc Hpriv Hget0)
    as (name0' & Hin0 & Hget0').
  apply apply_to_module_ok in H as (items & used & w1 & w2 & Hitems & Hloop & ->).
  pose proof (get_pipe_modules_ok _ _ _ _ _ Hitems) as (Hfr & Hall & Hnames & _).
  destruct (Hall _ _ Hin0 Hget0') as [(s0 & Hs0) _].
  destruct (offload_modules_flag _ _ _ _ _ _ _ _ _ Hloop
              (ex_intro _ name0' (ex_intro _ s0 (conj Hs0 Hget0'))))
    as (m' & n & s & Hin & Hg & Hm' & Hflag).
  rewrite (fr_opts _ _ Hfr) in Hflag. simpl in Hflag.
  destruct (reaches_name exclude pipe i (ex_intro _ n (conj (Hnames _ _ Hin) Hg)))
    as (n' & _).
  pose proof (Hnames _ _ Hin) as Hn. unfold pipe_module_names in Hn.
  apply filter_In in Hn as [Hn Hf]. apply andb_true_iff in Hf as [Hex' Hpriv'].
  apply negb_true_iff in Hex'. apply negb_true_iff in Hpriv'.
  exists m', n. split; [exact Hm'|]. split; [exact Hn|]. split; [exact Hex'|].
  split; [exact Hpriv'|]. split; [exact Hg|]. split; [exact Hflag|].
  intros Hfalse A output h self Hself.
  apply (post_forward_skip env A h i output _ self m'); [exact Hself | exact Hm' |].
  left. rewrite Hfalse. discriminate.
Qed.

Lemma pass_flags_text_encoders_only_witness :
  let w := two_module_world in
  let w' := snd (apply_balanced_offload_to_module sample_env true "ckpt" []
                   (sd_pipe twice_model) w) in
  exists m' name,
    heap w' !! 0%nat = Some m'
    /\ In name ["unet"; "scheduler"]
    /\ str_in name [] = false
    /\ String.prefix "_" name = false
    /\ getattr (sd_pipe twice_model) name = VModule 0
    /\ offload_post m'
       = Some (str_in "sdxl" offload_post_families && false
               && String.prefix "text_encoder" name)
    /\ (offload_post m' = Some false ->
        forall (A : Type) (output : A) h self,
          hooks w' !! h = Some self ->
          post_forward sample_env h 0 output w' = (Ok output, w')).
Proof.
  intros w w'.
  apply (pass_flags_text_encoders_only sample_env true "ckpt" [] (sd_pipe twice_model) w w'
           0%nat "unet").
  - vm_compute. reflexivity.
  - left. reflexivity.
  - reflexivity.
  - reflexivity.
  - reflexivity.
Defined.

(** ** Placement on DirectML *)

Lemma directml_rewrite_strings (env : Env) (dm : DeviceMap) (k : string) (v : DevSpec) :
  In (k, v) (directml_rewrite env dm) -> exists s, v = DStr s.
Proof.
  unfold directml_rewrite. intros Hin. apply in_map_iff in Hin as ([k0 v0] & Heq & _).
  simpl in Heq. destruct v0; injection Heq as _ <-; eauto.
Qed.

(** X7. On the DirectML backend, a placement that returns leaves the
    module with a device map that has no integer entry: every device
    is a string. When the builder yields no map, the placement raises
    AttributeError before anything is dispatched: the test for a
    missing map comes after the rewrite that needs one. *)
Theorem pre_forward_directml (env : Env) (h i : nat) (w : World) (self : OffloadHook)
    (m : Module) :
  backend env = "directml" ->
  hooks w !! h = Some self ->
  heap w !! i = Some m ->
  same_device env (m_device m) (device env) = false ->
  (forall w',
     pre_forward env h i w = (Ok tt, w') ->
     exists m' dm,
       heap w' !! i = Some m'
       /\ balanced_offload_device_map m' = Some dm
       /\ forall k v, In (k, v) dm -> exists s, v = DStr s)
  /\
  (let mm := mkMaxMemory (match dev_index (device env) with Some k => k | None => 0%Z end)
               (gpu self) (cpu self) in
   balanced_offload_device_map m = None ->
   infer_auto_device_map env (events w) m mm = Ok None ->
   pre_forward env h i w
   = (Raise (mkExn "AttributeError" "'NoneType' object has no attribute 'keys'"),
      mkWorld (opts w) (hooks w) (offload_hook_instance w) (heap w)
        (events w ++ [EvInfer i mm]))).
Proof.
  intros Hbackend Hself Hm Hdev. split.
  - intros w' H.
    unfold pre_forward, infer_device_map, dispatch, set_execution_device in H.
    unfold_py. rewrite Hself, Hm, Hdev, Hbackend in H.
    destruct w as [o hs inst hp evs]. simpl in *.
    run_in H; try discriminate H.
    all: injection H as <-; simpl.
    all: rewrite list_lookup_insert_eq
      by (rewrite ?length_insert; eapply lookup_lt_Some; eassumption).
    all: eexists; eexists; split; [reflexivity|]; split; [reflexivity|].
    all: intros k v Hin; eapply directml_rewrite_strings; exact Hin.
  - intros mm Hnone Hbuilt.
    assert (Hcached : device_map_cached m (current_max_memory env self) = None)
      by (unfold device_map_cached; rewrite Hnone; reflexivity).
    change mm with (current_max_memory env self) in *.
    unfold pre_forward, infer_device_map. unfold_py.
    rewrite Hself, Hm, Hdev, Hcached. simpl. rewrite Hm, Hbuilt, Hbackend. reflexivity.
Qed.

Lemma pre_forward_directml_witness :
  let m := sample_module devices_cpu None None None in
  let w := sample_world m in
  (exists m' dm,
     heap (snd (pre_forward (directml_env (Some [("", DInt 0)])) 0 0 w)) !! 0%nat = Some m'
     /\ balanced_offload_device_map m' = Some dm
     /\ forall k v, In (k, v) dm -> exists s, v = DStr s)
  /\ pre_forward (directml_env None) 0 0 w
     = (Raise (mkExn "AttributeError" "'NoneType' object has no attribute 'keys'"),
        mkWorld (opts w) (hooks w) (offload_hook_instance w) (heap w)
          (events w ++ [EvInfer 0 sample_max_memory])).
Proof.
  intros m w. split.
  - destruct (pre_forward_directml (directml_env (Some [("", DInt 0)])) 0 0 w sample_hook m
                eq_refl eq_refl eq_refl eq_refl) as [Hplaced _].
    apply Hplaced. vm_compute. reflexivity.
  - destruct (pre_forward_directml (directml_env None) 0 0 w sample_hook m
                eq_refl eq_refl eq_refl eq_refl) as [_ Hnone].
    apply Hnone; reflexivity.
Defined.

Example pre_forward_directml_sample :
  let m := sample_module devices_cpu None None None in
  option_map balanced_offload_device_map
    (heap (snd (pre_forward (directml_env (Some [("", DInt 0); ("head", DStr "cpu")])) 0 0
                  (sample_world m))) !! 0%nat)
  = Some (Some [("", DStr "privateuseone:0"); ("head", DStr "cpu")]).
Proof. vm_compute. reflexivity. Qed.

(** ** No accelerator memory *)

(** X8. The two divisions by [shared.gpu_memory] are outside the [try]
    blocks. When it is zero, a turn of the orchestrator's pass on a
    module raises ZeroDivisionError after the module's hook has been
    removed and before one is attached, and [post_forward] on a flagged
    module that is not on the host raises it too. Zero of either sign
    counts. *)
Theorem zero_capacity_raises (env : Env) :
  (gpu_memory env =? 0) = true ->
  (forall cached checkpoint pipe name i size used w m,
     getattr pipe name = VModule i ->
     heap w !! i = Some m ->
     offload_module env cached checkpoint pipe name size used w
     = (Raise ZeroDivisionError,
        mkWorld (opts w) (hooks w) (offload_hook_instance w)
          (<[i := with_hf_hook None m]> (heap w)) (events w ++ [EvRemoveHook i])))
  /\
  (forall (A : Type) (output : A) h i w self m,
     hooks w !! h = Some self ->
     heap w !! i = Some m ->
     offload_post m = Some true ->
     m_device m <> devices_cpu ->
     post_forward env h i output w
     = (Raise ZeroDivisionError, add_events [EvGc true false None] w)).
Proof.
  intros Hzero. split.
  - intros cached checkpoint pipe name i size used w m Hget Hm.
    unfold offload_module, remove_hook_from_module, py_div. rewrite Hget.
    unfold_py. destruct w as [o hs inst hp evs]. cbn [heap] in Hm. simpl.
    repeat (rewrite Hm; simpl). rewrite Hzero. reflexivity.
  - intros A output h i w self m Hself Hm Hflag Hdev.
    unfold post_forward, torch_gc, py_div. unfold_py.
    destruct w as [o hs inst hp evs]. cbn [heap hooks] in Hm, Hself. simpl.
    rewrite Hself. simpl. rewrite Hm. simpl. rewrite Hflag. simpl.
    destruct (Device_eqb (m_device m) devices_cpu) eqn:E.
    + apply Device_eqb_eq in E. contradiction.
    + simpl. rewrite Hzero. reflexivity.
Qed.

Lemma zero_capacity_raises_witness :
  let m := sample_module cuda0 None None (Some true) in
  let w := sample_world m in
  offload_module no_gpu_env true "ckpt" (sample_pipe [("unet", VModule 0)]) "unet" 5 12 w
  = (Raise ZeroDivisionError,
     mkWorld (opts w) (hooks w) (offload_hook_instance w)
       (<[0%nat := with_hf_hook None m]> (heap w)) (events w ++ [EvRemoveHook 0]))
  /\ post_forward no_gpu_env 0 0 tt w
     = (Raise ZeroDivisionError, add_events [EvGc true false None] w).
Proof.
  intros m w.
  destruct (zero_capacity_raises no_gpu_env) as [Hturn Hpost]; [reflexivity|].
  split.
  - apply Hturn; reflexivity.
  - apply (Hpost unit tt 0%nat 0%nat w sample_hook m); try reflexivity. discriminate.
Defined.


(** * Properties of the rest of the module *)

(** ** [dtype_byte_size] and its patch *)

Lemma torch_attrs_all (defined names : list string) :
  torch_attrs defined names
  = if forallb (fun n => str_in n defined) names then Ok (map TorchDtype names)
    else torch_attrs defined names.
Proof.
  induction names as [|n rest IH]; simpl; [reflexivity|].
  destruct (str_in n defined); simpl; [|reflexivity].
  destruct (forallb _ rest); [|reflexivity].
  rewrite IH. reflexivity.
Qed.

Lemma torch_attrs_missing (defined names : list string) :
  forallb (fun n => str_in n defined) names = false ->
  exists e, torch_attrs defined names = Raise e.
Proof.
  induction names as [|n rest IH]; simpl; [discriminate|].
  destruct (str_in n defined); simpl; [|eauto].
  intros H. destruct (IH H) as [e ->]. eauto.
Qed.

Lemma existsb_Dtype (dtype : Dtype) (names : list string) :
  existsb (Dtype_eqb dtype) (map TorchDtype names)
  = match dtype with
    | TorchDtype n => str_in n names
    | CustomDtype _ => false
    end.
Proof.
  induction names as [|n rest IH]; simpl; [destruct dtype; reflexivity|].
  rewrite IH. destruct dtype; reflexivity.
Qed.

(** What the function of this module hands to the saved one. *)
Lemma dtype_byte_size_library (host : Host) (dtype : Dtype) :
  dtype_byte_size host (Some LibraryByteSize) dtype
  = library_dtype_byte_size host
      (if defines_fp8 host && is_fp8 dtype then CustomDtype "FP8" else dtype).
Proof.
  unfold dtype_byte_size, defines_fp8, is_fp8.
  destruct (forallb (fun n => str_in n (torch_dtypes host)) fp8_dtypes) eqn:E.
  - rewrite torch_attrs_all, E, existsb_Dtype. reflexivity.
  - destruct (torch_attrs_missing _ _ E) as [e ->]. reflexivity.
Qed.

(** X9. With the patch consistent, accelerate's [dtype_byte_size] gives
    what accelerate's own function gives, on the same dtype or, once
    the patch is made, on [CustomDtype.FP8] for the four FP8 dtypes of
    torch. The FP8 dtypes are replaced only if this torch defines all
    four of them: with one missing, the list in the membership test
    raises, and every dtype goes through as it is. *)
Theorem patched_dtype_byte_size (host : Host) (s : Session) (dtype : Dtype) :
  patch_consistent s ->
  call_dtype_byte_size host s dtype
  = library_dtype_byte_size host
      (if match accelerate_dtype_byte_size s with Some _ => true | None => false end
          && defines_fp8 host && is_fp8 dtype
       then CustomDtype "FP8" else dtype).
Proof.
  unfold call_dtype_byte_size. intros [[-> ->]|[-> ->]].
  - reflexivity.
  - apply dtype_byte_size_library.
Qed.

Lemma patched_dtype_byte_size_witness :
  let s := with_patch (Some LibraryByteSize) OffloadByteSize
             (fresh_session (empty_world (sample_opts 0.2 0.75)) [] false) in
  call_dtype_byte_size sample_host s (TorchDtype "float8_e5m2") = Ok 1
  /\ call_dtype_byte_size sample_host s (TorchDtype "float16") = Ok 2
  /\ call_dtype_byte_size old_torch_host s (TorchDtype "float8_e5m2") = Ok 4.
Proof.
  intros s.
  assert (Hs : patch_consistent s) by (right; split; reflexivity).
  rewrite !(patched_dtype_byte_size _ s _ Hs). repeat split; reflexivity.
Defined.

(** ** Steps of the session *)

Ltac unfold_sess :=
  unfold sbind, sret, sraise, stry, swhen, get_session, lift, get_model, put_model,
    set_has_accelerate, record, slog, squiet in *.

Lemma sbind_ok {A B : Type} (m : Sess A) (f : A -> Sess B) (s s' : Session) (b : B) :
  sbind m f s = (Ok b, s') ->
  exists a s1, m s = (Ok a, s1) /\ f a s1 = (Ok b, s').
Proof.
  unfold sbind. destruct (m s) as [[a|e] s1]; intros H; [eauto | discriminate H].
Qed.

Section Ensures.

Context {R : Session -> Session -> Prop}.
Hypothesis R_refl : forall s, R s s.
Hypothesis R_trans : forall a b c, R a b -> R b c -> R a c.

Lemma ensures_sret {A : Type} (a : A) : ensures R (sret a).
Proof. intros s r s' H. injection H as _ <-. apply R_refl. Qed.

Lemma ensures_sraise {A : Type} (e : Exn) : ensures R (@sraise A e).
Proof. intros s r s' H. injection H as _ <-. apply R_refl. Qed.

Lemma ensures_get_session : ensures R get_session.
Proof. intros s r s' H. injection H as _ <-. apply R_refl. Qed.

Lemma ensures_get_model (r : nat) : ensures R (get_model r).
Proof.
  intros s r0 s' H. unfold get_model in H.
  destruct (models s !! r); injection H as _ <-; apply R_refl.
Qed.

Lemma ensures_sbind {A B : Type} (m : Sess A) (f : A -> Sess B) :
  ensures R m -> (forall a, ensures R (f a)) -> ensures R (sbind m f).
Proof.
  intros Hm Hf s r s' H. unfold sbind in H.
  destruct (m s) as [[a|e] s1] eqn:Em.
  - eapply R_trans; [eapply Hm; exact Em | eapply Hf; exact H].
  - injection H as _ <-. eapply Hm; exact Em.
Qed.

Lemma ensures_stry {A : Type} (m : Sess A) (h : Exn -> Sess A) :
  ensures R m -> (forall e, ensures R (h e)) -> ensures R (stry m h).
Proof.
  intros Hm Hh s r s' H. unfold stry in H.
  destruct (m s) as [[a|e] s1] eqn:Em.
  - injection H as _ <-. eapply Hm; exact Em.
  - eapply R_trans; [eapply Hm; exact Em | eapply Hh; exact H].
Qed.

Lemma ensures_swhen (b : bool) (m : Sess unit) : ensures R m -> ensures R (swhen b m).
Proof. intros Hm. destruct b; [exact Hm | apply ensures_sret]. Qed.

(** The updates of a session, one for each part of it. *)
Lemma ensures_update (f : Session -> Session) :
  (forall s, R s (f s)) -> ensures R (fun s => (Ok tt, f s)).
Proof. intros Hf s r s' H. injection H as _ <-. apply Hf. Qed.

Lemma ensures_put_model (r : nat) (mo : ModelObject) :
  (forall s ms, R s (with_models ms s)) -> ensures R (put_model r mo).
Proof. intros Hf s r0 s' H. injection H as _ <-. apply Hf. Qed.

Lemma ensures_record (c : Call) :
  (forall s, R s (with_calls (calls s ++ [c]) s)) -> ensures R (record c).
Proof. intros Hf s r0 s' H. injection H as _ <-. apply Hf. Qed.

Lemma ensures_lift {A : Type} (m : M A) :
  (forall s w r, m (world s) = (r, w) -> R s (with_world w s)) -> ensures R (lift m).
Proof.
  intros Hf s r s' H. unfold lift in H. destruct (m (world s)) as [r0 w] eqn:Em.
  injection H as _ <-. eapply Hf. exact Em.
Qed.

Lemma ensures_call (host : Host) (c : Call) :
  (forall s hp,
     R s (with_calls (calls s ++ [c])
            (with_world (mkWorld (opts (world s)) (hooks (world s))
                           (offload_hook_instance (world s)) hp (events (world s))) s))) ->
  ensures R (call host c).
Proof.
  intros Hf s r s' H. unfold call in H.
  destruct (library host (calls s) c (heap (world s))) as [[e|] hp];
    injection H as _ <-; apply Hf.
Qed.

End Ensures.

Lemma same_on_refl {X : Type} (f : Session -> X) (s : Session) : same_on f s s.
Proof. reflexivity. Qed.

Lemma same_on_trans {X : Type} (f : Session -> X) (a b c : Session) :
  same_on f a b -> same_on f b c -> same_on f a c.
Proof. unfold same_on. congruence. Qed.

Lemma calls_grow_refl (P : Call -> Prop) (s : Session) : calls_grow_by P s s.
Proof. exists []. split; [symmetry; apply app_nil_r | constructor]. Qed.

Lemma calls_grow_trans (P : Call -> Prop) (a b c : Session) :
  calls_grow_by P a b -> calls_grow_by P b c -> calls_grow_by P a c.
Proof.
  intros (cs1 & E1 & F1) (cs2 & E2 & F2). exists (cs1 ++ cs2)%list.
  split; [rewrite E2, E1, <- List.app_assoc; reflexivity | apply Forall_app; auto].
Qed.

Lemma mark_components_run (pipe : Pipe) (keys : list string) :
  forall s,
    mark_components pipe keys s
    = (Ok tt, with_components (component_has_accelerate s ++ modules_under pipe keys) s).
Proof.
  induction keys as [|k rest IH]; intros s; simpl.
  - unfold sret. rewrite app_nil_r. destruct s; reflexivity.
  - unfold sbind. destruct (getattr pipe k) as [|i|]; simpl; rewrite IH; simpl;
      rewrite <- ?List.app_assoc; reflexivity.
Qed.

Lemma set_accelerate_to_module_run (pipe : Pipe) (s : Session) :
  set_accelerate_to_module pipe s
  = (Ok tt, with_components (component_has_accelerate s ++ components_of pipe) s).
Proof.
  unfold set_accelerate_to_module, components_of.
  destruct (p_internal_dict pipe); [apply mark_components_run|].
  unfold sret. rewrite app_nil_r. destruct s; reflexivity.
Qed.

Lemma set_accelerate_to_nested_run (pipe : option Pipe) (s : Session) :
  set_accelerate_to_nested pipe s
  = (Ok tt, with_components (component_has_accelerate s ++ components_of_nested pipe) s).
Proof.
  destruct pipe; simpl; [apply set_accelerate_to_module_run|].
  unfold sret. rewrite app_nil_r. destruct s; reflexivity.
Qed.

Lemma set_accelerate_run (r : nat) (mo : ModelObject) (s : Session) :
  models s !! r = Some mo ->
  set_accelerate r s = (Ok tt, accelerated r mo s).
Proof.
  intros Hmo. unfold set_accelerate, set_has_accelerate, sbind, get_model, put_model.
  rewrite Hmo. simpl.
  rewrite list_lookup_insert_eq by (eapply lookup_lt_Some; exact Hmo). simpl.
  rewrite set_accelerate_to_nested_run. simpl.
  rewrite set_accelerate_to_module_run. simpl.
  rewrite set_accelerate_to_nested_run. simpl.
  rewrite set_accelerate_to_nested_run. simpl.
  unfold accelerated, components_of_model. simpl.
  rewrite <- !List.app_assoc. reflexivity.
Qed.

Lemma set_accelerate_dangling (r : nat) (s : Session) :
  models s !! r = None -> set_accelerate r s = (Raise dangling, s).
Proof.
  intros Hmo. unfold set_accelerate, set_has_accelerate, sbind, get_model. rewrite Hmo.
  reflexivity.
Qed.


(** ** [set_accelerate] *)

Lemma in_modules_under (pipe : Pipe) (keys : list string) (i : nat) :
  In i (modules_under pipe keys) <-> exists k, In k keys /\ getattr pipe k = VModule i.
Proof.
  unfold modules_under. rewrite in_flat_map. split.
  - intros (k & Hk & Hi). exists k. split; [exact Hk|].
    destruct (getattr pipe k) as [|j|]; simpl in Hi; try contradiction.
    destruct Hi as [<-|[]]. reflexivity.
  - intros (k & Hk & Hg). exists k. split; [exact Hk|]. rewrite Hg. left. reflexivity.
Qed.





(** ** [disable_offload] *)

Lemma unhooked_length (refs : list nat) :
  forall hp, length (unhooked refs hp) = length hp.
Proof.
  induction refs as [|i rest IH]; intros hp; simpl; [reflexivity|].
  rewrite IH. destruct (hp !! i); [apply length_insert | reflexivity].
Qed.

Lemma unhooked_other (refs : list nat) (j : nat) :
  ~ In j refs -> forall hp, unhooked refs hp !! j = hp !! j.
Proof.
  induction refs as [|i rest IH]; intros Hj hp; simpl; [reflexivity|].
  rewrite IH by (intros H; apply Hj; right; exact H).
  destruct (hp !! i); [|reflexivity].
  apply list_lookup_insert_ne. intros ->. apply Hj. left. reflexivity.
Qed.

Lemma unhooked_lookup (refs : list nat) (j : nat) :
  forall hp m, hp !! j = Some m -> m_hf_hook m = None \/ In j refs ->
    unhooked refs hp !! j = Some (with_hf_hook None m).
Proof.
  induction refs as [|i rest IH]; intros hp m Hm Hj; simpl.
  - destruct Hj as [Hnone|[]]. rewrite Hm. f_equal. destruct m. simpl in Hnone.
    subst. reflexivity.
  - destruct (decide (i = j)) as [->|Hne].
    + rewrite Hm. rewrite (IH _ (with_hf_hook None m));
        [reflexivity | | left; reflexivity].
      apply list_lookup_insert_eq. eapply lookup_lt_Some. exact Hm.
    + destruct Hj as [Hnone|[Heq|Hin]]; [| contradiction |].
      * destruct (hp !! i); [|apply IH; auto].
        apply IH; [|auto]. rewrite list_lookup_insert_ne by exact Hne. exact Hm.
      * destruct (hp !! i); [|apply IH; auto].
        apply IH; [|auto]. rewrite list_lookup_insert_ne by exact Hne. exact Hm.
Qed.

Lemma with_network_layer_name_same (m : Module) :
  with_network_layer_name (network_layer_name m) (with_hf_hook None m) = with_hf_hook None m.
Proof. destruct m. reflexivity. Qed.

Lemma disable_offload_loop_run (pipe : Pipe) (keys : list string) :
  forall w,
    (forall i, In i (modules_under pipe keys) -> (i < length (heap w))%nat) ->
    disable_offload_loop pipe keys w
    = (Ok tt, mkWorld (opts w) (hooks w) (offload_hook_instance w)
                (unhooked (modules_under pipe keys) (heap w))
                (events w ++ map EvRemoveHook (modules_under pipe keys))).
Proof.
  induction keys as [|k rest IH]; intros w Hvalid.
  - simpl. unfold ret. rewrite app_nil_r. destruct w; reflexivity.
  - change (modules_under pipe (k :: rest))
      with ((match getattr pipe k with VModule i => [i] | _ => [] end)
            ++ modules_under pipe rest)%list in *.
    cbn [disable_offload_loop].
    destruct (getattr pipe k) as [|i|] eqn:Hg.
    + unfold bind at 1, ret at 1. apply IH. exact Hvalid.
    + destruct (lookup_lt_is_Some_2 (heap w) i (Hvalid i (or_introl eq_refl))) as [m Hm].
      assert (Hstep :
        (module <- get_module i ;;
         remove_hook_from_module i ;;
         when (truthy_str (network_layer_name module))
           (m0 <- get_module i ;;
            put_module i (with_network_layer_name (network_layer_name module) m0))) w
        = (Ok tt, mkWorld (opts w) (hooks w) (offload_hook_instance w)
                    (<[i := with_hf_hook None m]> (heap w)) (events w ++ [EvRemoveHook i]))).
      { unfold remove_hook_from_module. unfold_py. destruct w as [o hs inst hp evs].
        cbn [heap] in Hm. simpl. rewrite Hm. simpl. rewrite Hm. simpl.
        destruct (truthy_str (network_layer_name m)); simpl; [|reflexivity].
        rewrite list_lookup_insert_eq by (eapply lookup_lt_Some; exact Hm). simpl.
        rewrite list_insert_insert_eq, with_network_layer_name_same. reflexivity. }
      unfold bind at 1. rewrite Hstep. rewrite IH.
      * simpl. rewrite Hm, <- List.app_assoc. reflexivity.
      * intros j Hj. simpl. rewrite length_insert. apply Hvalid. right. exact Hj.
    + unfold bind at 1, ret at 1. apply IH. exact Hvalid.
Qed.


Lemma set_has_accelerate_run (r : nat) (b : bool) (mo : ModelObject) (s : Session) :
  models s !! r = Some mo ->
  set_has_accelerate r b s
  = (Ok tt, with_models (<[r := with_has_accelerate (Some b) mo]> (models s)) s).
Proof.
  intros Hmo. unfold set_has_accelerate, sbind, get_model, put_model. rewrite Hmo.
  reflexivity.
Qed.

Lemma disable_offload_run (r : nat) (mo : ModelObject) (s : Session) :
  models s !! r = Some mo ->
  has_accelerate mo = Some true ->
  (forall i, In i (modules_under (sd_pipe (pipelines mo)) (pipe_keys (sd_pipe (pipelines mo))))
             -> (i < length (heap (world s)))%nat) ->
  disable_offload (Some r) s
  = (Ok tt,
     with_models (<[r := with_has_accelerate (Some false) mo]> (models s))
       (with_world
          (mkWorld (opts (world s)) (hooks (world s)) (offload_hook_instance (world s))
             (unhooked (modules_under (sd_pipe (pipelines mo))
                          (pipe_keys (sd_pipe (pipelines mo))))
                (heap (world s)))
             (events (world s)
              ++ map EvRemoveHook (modules_under (sd_pipe (pipelines mo))
                                     (pipe_keys (sd_pipe (pipelines mo))))))
          s)).
Proof.
  intros Hmo Hflag Hvalid.
  unfold disable_offload, sbind, get_model, lift.
  rewrite Hmo, Hflag. simpl.
  rewrite (disable_offload_loop_run _ _ (world s) Hvalid).
  rewrite (set_has_accelerate_run r false mo) by exact Hmo.
  reflexivity.
Qed.

(** X11. [disable_offload] acts only on a model whose [has_accelerate]
    is true. Then it removes the hook of every module that a key of the
    model leads to, private keys too, and of no other module, so that
    the modules of [pipe], [prior_pipe] and [decoder_pipe] keep theirs
    unless the model has them under a key of its own; it leaves each
    module otherwise as it is, sets the model's [has_accelerate] to
    false, and changes neither the managers, nor the options, nor
    which components are marked. *)
Theorem disable_offload_unhooks (r : nat) (mo : ModelObject) (s : Session) :
  models s !! r = Some mo ->
  let pipe := sd_pipe (pipelines mo) in
  let refs := modules_under pipe (pipe_keys pipe) in
  (has_accelerate mo <> Some true -> disable_offload (Some r) s = (Ok tt, s))
  /\
  (has_accelerate mo = Some true ->
   (forall i, In i refs -> (i < length (heap (world s)))%nat) ->
   exists s',
     disable_offload (Some r) s = (Ok tt, s')
     /\ has_accelerate <$> models s' !! r = Some (Some false)
     /\ (forall i m, In i refs -> heap (world s) !! i = Some m ->
           heap (world s') !! i = Some (with_hf_hook None m))
     /\ (forall j, ~ In j refs -> heap (world s') !! j = heap (world s) !! j)
     /\ hooks (world s') = hooks (world s)
     /\ offload_hook_instance (world s') = offload_hook_instance (world s)
     /\ opts (world s') = opts (world s)
     /\ component_has_accelerate s' = component_has_accelerate s).
Proof.
  intros Hmo. cbv zeta. split.
  - intros Hflag. unfold disable_offload, sbind, get_model. rewrite Hmo.
    destruct (has_accelerate mo) as [[|]|]; try reflexivity. contradiction.
  - intros Hflag Hvalid.
    eexists. split; [apply (disable_offload_run r mo s Hmo Hflag Hvalid)|]. simpl.
    split; [rewrite list_lookup_insert_eq by (eapply lookup_lt_Some; exact Hmo); reflexivity|].
    split; [intros i m Hi Hm; apply unhooked_lookup; auto|].
    split; [intros j Hj; apply unhooked_other; exact Hj|].
    repeat split.
Qed.

Lemma disable_offload_unhooks_witness :
  let mo := sample_object twice_model (Some true) in
  let s := fresh_session two_module_world [mo] false in
  exists s',
    disable_offload (Some 0%nat) s = (Ok tt, s')
    /\ has_accelerate <$> models s' !! 0%nat = Some (Some false)
    /\ (forall i m, In i [0%nat] -> heap (world s) !! i = Some m ->
          heap (world s') !! i = Some (with_hf_hook None m))
    /\ (forall j, ~ In j [0%nat] -> heap (world s') !! j = heap (world s) !! j)
    /\ hooks (world s') = hooks (world s)
    /\ offload_hook_instance (world s') = offload_hook_instance (world s)
    /\ opts (world s') = opts (world s)
    /\ component_has_accelerate s' = component_has_accelerate s.
Proof.
  intros mo s.
  destruct (disable_offload_unhooks 0 mo s eq_refl) as [_ Hon].
  apply Hon; [reflexivity|].
  intros i [<-|[]]. simpl. lia.
Defined.


(** ** The orchestrator with its tail *)

Lemma sbind_lift {A B : Type} (m : M A) (f : A -> Sess B) (s : Session) :
  sbind (lift m) f s
  = match m (world s) with
    | (Ok a, w) => f a (with_world w s)
    | (Raise e, w) => (Raise e, with_world w s)
    end.
Proof. unfold sbind, lift. destruct (m (world s)) as [[a|e] w]; reflexivity. Qed.

Lemma sbind_get_model {B : Type} (r : nat) (mo : ModelObject) (f : ModelObject -> Sess B)
    (s : Session) :
  models s !! r = Some mo -> sbind (get_model r) f s = f mo s.
Proof. intros Hmo. unfold sbind, get_model. rewrite Hmo. reflexivity. Qed.

Lemma sbind_get_session {B : Type} (f : Session -> Sess B) (s : Session) :
  sbind get_session f s = f s s.
Proof. reflexivity. Qed.

Lemma sbind_swhen_false {B : Type} (m : Sess unit) (f : unit -> Sess B) (s : Session) :
  sbind (swhen false m) f s = f tt s.
Proof. reflexivity. Qed.

Lemma sbind_set_accelerate {B : Type} (r : nat) (mo : ModelObject) (f : unit -> Sess B)
    (s : Session) :
  models s !! r = Some mo -> sbind (set_accelerate r) f s = f tt (accelerated r mo s).
Proof. intros Hmo. unfold sbind. rewrite (set_accelerate_run r mo s Hmo). reflexivity. Qed.

Lemma with_world_same (s : Session) : with_world (world s) s = s.
Proof. destruct s. reflexivity. Qed.

(** A run that has raised: the four parts of the statement below. *)
Ltac raised :=
  simpl; split; [reflexivity|]; split; [reflexivity|]; split; [reflexivity|];
  let Hres := fresh in intros ? Hres; discriminate Hres.

(** The orchestrator on a model object, against its core. *)
Lemma apply_on_core (env : Env) (host : Host) (r : nat) (exclude : list string)
    (s : Session) (mo : ModelObject) :
  models s !! r = Some mo ->
  layerwise_quantization s = false ->
  let core := apply_balanced_offload env (Some (pipelines mo)) exclude (world s) in
  let run := apply_balanced_offload_on env host r exclude s in
  fst run = match fst core with Ok _ => Ok r | Raise e => Raise e end
  /\ world (snd run) = snd core
  /\ calls (snd run) = calls s
  /\ (forall res,
        fst core = Ok res ->
        diffusers_offload_mode (opts (world s)) = "balanced" ->
        str_in (p_class (sd_pipe (pipelines mo))) balanced_offload_exclude = false ->
        snd run = accelerated r mo (with_world (snd core) s)).
Proof.
  intros Hmo Hlw. cbv zeta.
  unfold apply_balanced_offload_on, apply_balanced_offload.
  unfold bind, get_opts. rewrite sbind_lift. cbn [resolve_model].
  destruct (String.eqb (diffusers_offload_mode (opts (world s))) "balanced") eqn:Emode;
    cbn [negb].
  2:{ unfold sret, ret. simpl. rewrite with_world_same.
      split; [reflexivity|]. split; [reflexivity|]. split; [reflexivity|].
      intros res _ Hm. apply String.eqb_neq in Emode. contradiction. }
  rewrite with_world_same. rewrite (sbind_get_model r mo) by exact Hmo.
  destruct (str_in (p_class (sd_pipe (pipelines mo))) balanced_offload_exclude) eqn:Eex.
  { unfold sret, ret. simpl.
    split; [reflexivity|]. split; [reflexivity|]. split; [reflexivity|].
    intros res _ _ Hx. discriminate Hx. }
  cbv zeta. rewrite sbind_lift.
  destruct (instance_stale (checkpoint_of (pipelines mo)) (world s)) as [[stale|e] w0];
    [|raised].
  rewrite sbind_lift. cbn [world with_world].
  match goal with
  | |- context [when stale ?m w0] => destruct (when stale m w0) as [[[]|e] w1]
  end; [|raised].
  rewrite sbind_lift. cbn [world with_world].
  destruct (apply_to_pipelines env (negb stale) (checkpoint_of (pipelines mo)) exclude
              (pipelines mo) w1) as [[[]|e] w2]; [|raised].
  rewrite sbind_get_session. cbn [layerwise_quantization with_world].
  rewrite Hlw, sbind_swhen_false.
  rewrite (sbind_set_accelerate r mo) by exact Hmo.
  rewrite sbind_lift. cbn [world with_world accelerated with_components with_models].
  destruct (when (debug env) (log LvlTrace MsgApplied) w2) as [[[]|e] w3]; [|raised].
  rewrite sbind_lift. cbn [world with_world].
  match goal with
  | |- context [when (negb (negb stale)) ?m w3] =>
      destruct (when (negb (negb stale)) m w3) as [[[]|e] w4]
  end; [|raised].
  unfold sret, ret. simpl.
  split; [reflexivity|]. split; [reflexivity|]. split; [reflexivity|].
  intros res _ _ _. reflexivity.
Qed.




(** A call on a model object that got to work and returned: the model
    is marked, the world is the core's, and every pipeline of the model
    is established with the current manager. *)
Lemma apply_on_ok (env : Env) (host : Host) (r : nat) (exclude : list string)
    (s s1 : Session) (mo : ModelObject) (r1 : nat) :
  models s !! r = Some mo ->
  layerwise_quantization s = false ->
  diffusers_offload_mode (opts (world s)) = "balanced" ->
  str_in (p_class (sd_pipe (pipelines mo))) balanced_offload_exclude = false ->
  apply_balanced_offload_on env host r exclude s = (Ok r1, s1) ->
  exists res h,
    apply_balanced_offload env (Some (pipelines mo)) exclude (world s) = (Ok res, world s1)
    /\ s1 = accelerated r mo (with_world (world s1) s)
    /\ length (heap (world s1)) = length (heap (world s))
    /\ offload_hook_instance (world s1) = Some h
    /\ forall p, In p (pipes_of (pipelines mo)) -> established exclude h (world s1) p.
Proof.
  intros Hmo Hlw Hmode Hex Hrun.
  destruct (apply_on_core env host r exclude s mo Hmo Hlw) as (Hfst & Hworld & _ & Hacc).
  rewrite Hrun in Hfst, Hworld, Hacc. simpl in Hfst, Hworld, Hacc.
  destruct (apply_balanced_offload env (Some (pipelines mo)) exclude (world s))
    as [[res|e] w1] eqn:Hcore; [|discriminate Hfst].
  simpl in Hworld, Hacc. subst w1.
  specialize (Hacc res eq_refl Hmode Hex).
  apply apply_active_ok with (sd := pipelines mo) in Hcore; try assumption; [|reflexivity].
  destruct Hcore as (stale & wm & wp & evs & Hstale & Hmgr & Hpipes & Hw1 & _).
  pose proof (framed_apply_to_pipelines _ _ _ _ _ _ _ _ Hpipes) as [_ Finst _ Fheap _ _].
  assert (Hwm : exists h, offload_hook_instance wm = Some h
                          /\ length (heap wm) = length (heap (world s))).
  { destruct stale.
    - destruct Hmgr as (wi & Hinit & ->). simpl.
      destruct (OffloadHook_init_run env (checkpoint_of (pipelines mo)) (world s) wi _
                  Hmode Hinit)
        as (self & evs' & _ & _ & _ & _ & _ & _ & Hheap & _).
      rewrite Hheap. eauto.
    - subst wm. apply instance_stale_false_inv in Hstale as (h & k & Hinst & _). eauto. }
  destruct Hwm as (h & Hinst & Hlen).
  exists res, h. split; [reflexivity|]. split; [exact Hacc|].
  rewrite Hw1. simpl. split; [congruence|]. split; [congruence|].
  intros p Hp. apply established_add_events.
  eapply pipelines_establish; [exact Hpipes | exact Hinst | exact Hp].
Qed.

Lemma reaches_under_keys (exclude : list string) (pipe : Pipe) (i : nat) :
  reaches exclude pipe i -> In i (modules_under pipe (pipe_keys pipe)).
Proof.
  intros (name & Hin & Hget). apply in_modules_under. exists name. split; [|exact Hget].
  unfold pipe_module_names in Hin. apply filter_In in Hin as [Hin _]. exact Hin.
Qed.

(** X13. [disable_offload] after the orchestrator: when a call of the
    orchestrator on a model has got to work and returned, disabling
    takes the manager's hook off every module that the orchestrator
    reached in the model's own pipeline, and the model is no longer
    marked. The manager stays current, and a module that a [pipe],
    [prior_pipe] or [decoder_pipe] leads to, and no key of the model
    itself, keeps the manager's hook. *)
Theorem disable_after_apply (env : Env) (host : Host) (r : nat) (exclude : list string)
    (s s1 : Session) (mo : ModelObject) (r1 : nat) :
  models s !! r = Some mo ->
  layerwise_quantization s = false ->
  diffusers_offload_mode (opts (world s)) = "balanced" ->
  str_in (p_class (sd_pipe (pipelines mo))) balanced_offload_exclude = false ->
  let own := sd_pipe (pipelines mo) in
  let keys_of := fun p : Pipe => match p_internal_dict p with
                                 | Some keys => keys
                                 | None => p_signature p
                                 end in
  (forall k i, In k (keys_of own) -> getattr own k = VModule i ->
               (i < length (heap (world s)))%nat) ->
  apply_balanced_offload_on env host r exclude s = (Ok r1, s1) ->
  exists s2 h,
    disable_offload (Some r) s1 = (Ok tt, s2)
    /\ has_accelerate <$> models s1 !! r = Some (Some true)
    /\ has_accelerate <$> models s2 !! r = Some (Some false)
    /\ offload_hook_instance (world s2) = Some h
    /\ (forall name i,
          In name (keys_of own) -> str_in name exclude = false ->
          String.prefix "_" name = false -> getattr own name = VModule i ->
          attached_hook (world s1) i = Some h /\ attached_hook (world s2) i = None)
    /\ (forall p name j,
          nested_pipe (pipelines mo) = Some p \/ prior_pipe (pipelines mo) = Some p
          \/ decoder_pipe (pipelines mo) = Some p ->
          In name (keys_of p) -> str_in name exclude = false ->
          String.prefix "_" name = false -> getattr p name = VModule j ->
          (forall k, In k (keys_of own) -> getattr own k <> VModule j) ->
          attached_hook (world s2) j = Some h).
Proof.
  intros Hmo Hlw Hmode Hex own keys_of Hvalid Hrun.
  destruct (apply_on_ok _ _ _ _ _ _ _ _ Hmo Hlw Hmode Hex Hrun)
    as (res & h & _ & Hs1 & Hlen & Hinst & Hest).
  assert (Hmo1 : models s1 !! r = Some (with_has_accelerate (Some true) mo)).
  { rewrite Hs1. simpl. apply list_lookup_insert_eq. eapply lookup_lt_Some. exact Hmo. }
  assert (Hunder : forall i, In i (modules_under own (pipe_keys own))
                             <-> exists k, In k (keys_of own) /\ getattr own k = VModule i).
  { intros i. apply in_modules_under. }
  assert (Hvalid1 : forall i,
             In i (modules_under own (pipe_keys own))
             -> (i < length (heap (world s1)))%nat).
  { intros i Hi. rewrite Hlen. apply Hunder in Hi as (k & Hk & Hget).
    exact (Hvalid k i Hk Hget). }
  pose proof (disable_offload_run r _ s1 Hmo1 eq_refl Hvalid1) as Hdis.
  simpl in Hdis. eexists. exists h. split; [exact Hdis|]. simpl.
  split; [rewrite Hmo1; reflexivity|].
  split; [rewrite list_lookup_insert_eq by (eapply lookup_lt_Some; exact Hmo1); reflexivity|].
  split; [exact Hinst|].
  split.
  - intros name i Hin Hexc Hpriv Hget.
    pose proof (reaches_by_name exclude own name i Hin Hexc Hpriv Hget) as Hi.
    assert (Hatt : attached_hook (world s1) i = Some h).
    { destruct (Hest own) as [_ Hall]; [apply in_pipes_of; auto|].
      apply Hall, Hi. }
    split; [exact Hatt|].
    unfold attached_hook in *. simpl.
    destruct (heap (world s1) !! i) as [m|] eqn:Hm; [|discriminate Hatt].
    rewrite (unhooked_lookup _ i _ m Hm); [reflexivity|].
    right. apply Hunder. exists name. auto.
  - intros p name j Hp Hin Hexc Hpriv Hget Hnot.
    pose proof (reaches_by_name exclude p name j Hin Hexc Hpriv Hget) as Hj.
    assert (Hp' : In p (pipes_of (pipelines mo))) by (apply in_pipes_of; tauto).
    destruct (Hest p Hp') as [_ Hall]. specialize (Hall j Hj).
    unfold attached_hook in *. simpl. rewrite unhooked_other; [exact Hall|].
    intros Hin'. apply Hunder in Hin' as (k & Hk & Hgetk). exact (Hnot k Hk Hgetk).
Qed.

Lemma disable_after_apply_witness :
  let mo := sample_object nested_model None in
  let s := fresh_session two_module_world [mo] false in
  let s1 := snd (apply_balanced_offload_on sample_env sample_host 0 [] s) in
  exists s2 h,
    disable_offload (Some 0%nat) s1 = (Ok tt, s2)
    /\ has_accelerate <$> models s1 !! 0%nat = Some (Some true)
    /\ has_accelerate <$> models s2 !! 0%nat = Some (Some false)
    /\ offload_hook_instance (world s2) = Some h
    /\ (attached_hook (world s1) 0 = Some h /\ attached_hook (world s2) 0 = None)
    /\ attached_hook (world s2) 1 = Some h.
Proof.
  intros mo s s1.
  assert (Hrun : apply_balanced_offload_on sample_env sample_host 0 [] s = (Ok 0%nat, s1))
    by (vm_compute; reflexivity).
  assert (Hvalid : forall k i, In k ["unet"] ->
                     getattr (sample_pipe [("unet", VModule 0)]) k = VModule i ->
                     (i < 2)%nat).
  { intros k i [<-|[]] Hget. vm_compute in Hget. injection Hget as <-. lia. }
  destruct (disable_after_apply sample_env sample_host 0 [] s s1 mo 0
              eq_refl eq_refl eq_refl eq_refl Hvalid Hrun)
    as (s2 & h & Hdis & Hon & Hoff & Hinst & Hown & Hnested).
  exists s2, h. split; [exact Hdis|]. split; [exact Hon|]. split; [exact Hoff|].
  split; [exact Hinst|]. split.
  - apply (Hown "unet" 0%nat); try reflexivity. left. reflexivity.
  - apply (Hnested (sample_pipe [("prior", VModule 1)]) "prior" 1%nat); try reflexivity.
    + right. left. reflexivity.
    + left. reflexivity.
    + intros k [<-|[]] Hget. vm_compute in Hget. discriminate Hget.
Defined.

Example disable_after_apply_sample :
  let mo := sample_object nested_model None in
  let s := fresh_session two_module_world [mo] false in
  let s1 := snd (apply_balanced_offload_on sample_env sample_host 0 [] s) in
  let s2 := snd (disable_offload (Some 0%nat) s1) in
  map m_hf_hook (heap (world s1)) = [Some 0%nat; Some 0%nat]
  /\ map m_hf_hook (heap (world s2)) = [None; Some 0%nat]
  /\ component_has_accelerate s2 = [0%nat; 1%nat].
Proof. vm_compute. auto. Qed.

